(** * A shallow embedding of the semu-derived RV64 core (src/semu.c, src/semu.h,
      src/main.c) and the properties of its specification.

    Conventions of the embedding.

    - A C integer of width w is a [Z]; every conversion the C code performs,
      explicitly by a cast or implicitly by an assignment, is written out with
      the cast functions [uint64_t], [int32_t], ... below.
    - The arrays of the C code ([regs], [csrs], [ram->data], [uart->data])
      are finite maps from the index to the cell, a missing cell standing
      for the zero the C code gets from [calloc].  The C code never checks
      an index against the size of an array; an index past the end is
      undefined behaviour in C and simply names a cell of its own here, so
      statements about RAM carry their bounds as hypotheses.
    - The disk image is a buffer of the host that may be absent; it is the
      finite map of its cells, and an access outside it has no result.
    - Operations the C standard leaves undefined or implementation defined
      take the value a two's complement target gives them: conversion to a
      signed type wraps, [>>] on a signed value is arithmetic, signed
      multiplication wraps.  Division by zero is reached only where the
      source forgets to guard it and takes the value of [Z.quot]/[Z.rem].
    - Functions that return an [exception_t] and write through a [result]
      pointer return a [result]; functions that change a device return the
      device next to their status. *)

From Stdlib Require Import ZArith Lia Bool.
From stdpp Require Import gmap.

Local Open Scope Z_scope.

(** ** C integer types *)

Definition uint8_t (z : Z) : Z := z mod 2 ^ 8.
Definition uint16_t (z : Z) : Z := z mod 2 ^ 16.
Definition uint32_t (z : Z) : Z := z mod 2 ^ 32.
Definition uint64_t (z : Z) : Z := z mod 2 ^ 64.

(** Conversion to a signed type of width [w]. *)
Definition signed (w z : Z) : Z :=
  let m := z mod 2 ^ w in
  if m <? 2 ^ (w - 1) then m else m - 2 ^ w.

Definition int8_t : Z -> Z := signed 8.
Definition int16_t : Z -> Z := signed 16.
Definition int32_t : Z -> Z := signed 32.
Definition int64_t : Z -> Z := signed 64.

Definition INT32_MIN : Z := - 2 ^ 31.
Definition INT64_MIN : Z := - 2 ^ 63.
Definition UINT64_MAX : Z := 2 ^ 64 - 1.

(** [!!b] and the truth value of a comparison, as a C [int]. *)
Definition of_bool (b : bool) : Z := if b then 1 else 0.

(** [x != 0], the truth value of a C scalar. *)
Definition truthy (z : Z) : bool := negb (z =? 0).

(** ** semu.h: constants *)

Definition N_REG : Z := 32.
Definition N_CSR : Z := 4096.

Definition RAM_SIZE : Z := 1024 * 1024 * 8.
Definition RAM_BASE : Z := 0x80000000.

Definition CLINT_BASE : Z := 0x2000000.
Definition CLINT_SIZE : Z := 0x10000.
Definition CLINT_MTIMECMP : Z := CLINT_BASE + 0x4000.
Definition CLINT_MTIME : Z := CLINT_BASE + 0xbff8.

Definition PLIC_BASE : Z := 0xC000000.
Definition PLIC_SIZE : Z := 0x4000000.
Definition PLIC_PENDING : Z := PLIC_BASE + 0x1000.
Definition PLIC_SENABLE : Z := PLIC_BASE + 0x2080.
Definition PLIC_SPRIORITY : Z := PLIC_BASE + 0x201000.
Definition PLIC_SCLAIM : Z := PLIC_BASE + 0x201004.

Definition UART_BASE : Z := 0x10000000.
Definition UART_SIZE : Z := 0x100.
Definition UART_RHR : Z := UART_BASE.
Definition UART_THR : Z := UART_BASE.
Definition UART_LCR : Z := UART_BASE + 3.
Definition UART_LSR : Z := UART_BASE + 5.
Definition UART_LSR_RX : Z := 1.
Definition UART_LSR_TX : Z := Z.shiftl 1 5.

Definition DISK_BASE : Z := 0x10001000.
Definition DISK_SIZE : Z := 0x100.
Definition DISK_MAGIC : Z := DISK_BASE + 0x000.
Definition DISK_VERSION : Z := DISK_BASE + 0x004.
Definition DISK_NOTIFY : Z := DISK_BASE + 0x008.
Definition DISK_DIRECTION : Z := DISK_BASE + 0x00C.
Definition DISK_BUFFER_ADDR_HIGH : Z := DISK_BASE + 0x010.
Definition DISK_BUFFER_ADDR_LOW : Z := DISK_BASE + 0x014.
Definition DISK_BUFFER_LEN_HIGH : Z := DISK_BASE + 0x018.
Definition DISK_BUFFER_LEN_LOW : Z := DISK_BASE + 0x01C.
Definition DISK_SECTOR : Z := DISK_BASE + 0x020.

(** Modelled from the spec: semu.c reads and writes a register [DISK_DONE]
    and a field [done] that the header under src/ does not declare; the
    MMIO map of the specification places it at offset 0x24 of the block
    device. *)
Definition DISK_DONE : Z := DISK_BASE + 0x024.

(** ** semu.h: enumerations *)

Inductive cpu_mode_t := USER | SUPERVISOR | MACHINE.

Definition mode_code (m : cpu_mode_t) : Z :=
  match m with USER => 0x0 | SUPERVISOR => 0x1 | MACHINE => 0x3 end.

(** [exception_t].  The three [ECALL_FROM_*] members are not enumerators of
    the header: [cpu_execute] produces them as [8 + cpu->mode] and names
    them in its comment. *)
Inductive exception_t :=
| OK
| INSTRUCTION_ADDRESS_MISALIGNED
| INSTRUCTION_ACCESS_FAULT
| ILLEGAL_INSTRUCTION
| BREAKPOINT
| LOAD_ADDRESS_MISALIGNED
| LOAD_ACCESS_FAULT
| STORE_AMO_ADDRESS_MISALIGNED
| STORE_AMO_ACCESS_FAULT
| ECALL_FROM_UMODE
| ECALL_FROM_SMODE
| ECALL_FROM_MMODE
| INSTRUCTION_PAGE_FAULT
| LOAD_PAGE_FAULT
| STORE_AMO_PAGE_FAULT.

Definition exception_code (e : exception_t) : Z :=
  match e with
  | OK => -1
  | INSTRUCTION_ADDRESS_MISALIGNED => 0
  | INSTRUCTION_ACCESS_FAULT => 1
  | ILLEGAL_INSTRUCTION => 2
  | BREAKPOINT => 3
  | LOAD_ADDRESS_MISALIGNED => 4
  | LOAD_ACCESS_FAULT => 5
  | STORE_AMO_ADDRESS_MISALIGNED => 6
  | STORE_AMO_ACCESS_FAULT => 7
  | ECALL_FROM_UMODE => 8
  | ECALL_FROM_SMODE => 9
  | ECALL_FROM_MMODE => 11
  | INSTRUCTION_PAGE_FAULT => 12
  | LOAD_PAGE_FAULT => 13
  | STORE_AMO_PAGE_FAULT => 15
  end.

Inductive interrupt_t :=
| NONE
| SUPERVISOR_SOFTWARE_INTERRUPT
| MACHINE_SOFTWARE_INTERRUPT
| SUPERVISOR_TIMER_INTERRUPT
| MACHINE_TIMER_INTERRUPT
| SUPERVISOR_EXTERNAL_INTERRUPT
| MACHINE_EXTERNAL_INTERRUPT.

Definition interrupt_code (i : interrupt_t) : Z :=
  match i with
  | NONE => -1
  | SUPERVISOR_SOFTWARE_INTERRUPT => 1
  | MACHINE_SOFTWARE_INTERRUPT => 3
  | SUPERVISOR_TIMER_INTERRUPT => 5
  | MACHINE_TIMER_INTERRUPT => 7
  | SUPERVISOR_EXTERNAL_INTERRUPT => 9
  | MACHINE_EXTERNAL_INTERRUPT => 11
  end.

(** What a function with an [exception_t] status and a [uint64_t *result]
    parameter hands back: the value written on [OK], the status otherwise. *)
Inductive result (A : Type) :=
| Ok (a : A)
| Failed (e : exception_t).
Arguments Ok {A} a.
Arguments Failed {A} e.

Definition status {A} (r : result A) : exception_t :=
  match r with Ok _ => OK | Failed e => e end.

(** ** Arrays *)

(** [a[i]] for an array of integers that [calloc] zeroed. *)
Definition cell (a : gmap Z Z) (i : Z) : Z := default 0 (a !! i).

(** ** RAM *)

Record struct_ram := { ram_data : gmap Z Z }.

(** [ram_load].  The [switch] falls through from the widest case to the
    narrowest; each [case_n] below is the code from that label to the
    [return]. *)
Definition ram_load (ram : struct_ram) (addr size : Z) : result Z :=
  let index := uint64_t (addr - RAM_BASE) in
  let byte k sh tmp :=
    Z.lor tmp (uint64_t (Z.shiftl (cell (ram_data ram) (uint64_t (index + k))) sh)) in
  let case_8 tmp := byte 0 0 tmp in
  let case_16 tmp := case_8 (byte 1 8 tmp) in
  let case_32 tmp := case_16 (byte 2 16 (byte 3 24 tmp)) in
  let case_64 tmp := case_32 (byte 4 32 (byte 5 40 (byte 6 48 (byte 7 56 tmp)))) in
  if size =? 64 then Ok (case_64 0)
  else if size =? 32 then Ok (case_32 0)
  else if size =? 16 then Ok (case_16 0)
  else if size =? 8 then Ok (case_8 0)
  else Failed LOAD_ACCESS_FAULT.

Definition ram_store (ram : struct_ram) (addr size value : Z)
  : struct_ram * exception_t :=
  let index := uint64_t (addr - RAM_BASE) in
  let byte k sh (d : gmap Z Z) : gmap Z Z :=
    <[uint64_t (index + k) := Z.land (Z.shiftr value sh) 0xff]> d in
  let case_8 d := byte 0 0 d in
  let case_16 d := case_8 (byte 1 8 d) in
  let case_32 d := case_16 (byte 2 16 (byte 3 24 d)) in
  let case_64 d := case_32 (byte 4 32 (byte 5 40 (byte 6 48 (byte 7 56 d)))) in
  if size =? 64 then ({| ram_data := case_64 (ram_data ram) |}, OK)
  else if size =? 32 then ({| ram_data := case_32 (ram_data ram) |}, OK)
  else if size =? 16 then ({| ram_data := case_16 (ram_data ram) |}, OK)
  else if size =? 8 then ({| ram_data := case_8 (ram_data ram) |}, OK)
  else (ram, STORE_AMO_ACCESS_FAULT).

Definition exception_is_fatal (e : exception_t) : bool :=
  match e with
  | INSTRUCTION_ADDRESS_MISALIGNED
  | INSTRUCTION_ACCESS_FAULT
  | LOAD_ACCESS_FAULT
  | STORE_AMO_ADDRESS_MISALIGNED
  | STORE_AMO_ACCESS_FAULT => true
  | _ => false
  end.

(** [memcpy(dst + at, src, length src)] on an array of bytes. *)
Fixpoint memcpy (dst : gmap Z Z) (at_ : Z) (src : list Z) : gmap Z Z :=
  match src with
  | [] => dst
  | b :: src' => memcpy (<[at_ := uint8_t b]> dst) (at_ + 1) src'
  end.

(** [ram_new(code, code_size)]: the image is the list [code], its length
    the [code_size]. *)
Definition ram_new (code : list Z) : struct_ram :=
  {| ram_data := memcpy ∅ 0 code |}.

(** ** CLINT *)

Record struct_clint := { mtime : Z; mtimecmp : Z }.

Definition clint_new : struct_clint := {| mtime := 0; mtimecmp := 0 |}.

Definition clint_load (clint : struct_clint) (addr size : Z) : result Z :=
  if negb (size =? 64) then Failed LOAD_ACCESS_FAULT
  else if addr =? CLINT_MTIMECMP then Ok (mtimecmp clint)
  else if addr =? CLINT_MTIME then Ok (mtime clint)
  else Ok 0.

Definition clint_store (clint : struct_clint) (addr size value : Z)
  : struct_clint * exception_t :=
  if negb (size =? 64) then (clint, STORE_AMO_ACCESS_FAULT)
  else if addr =? CLINT_MTIMECMP then
    ({| mtime := mtime clint; mtimecmp := value |}, OK)
  else if addr =? CLINT_MTIME then
    ({| mtime := value; mtimecmp := mtimecmp clint |}, OK)
  else (clint, OK).

(** ** PLIC *)

Record struct_plic := {
  pending : Z;
  senable : Z;
  spriority : Z;
  sclaim : Z
}.

Definition plic_new : struct_plic :=
  {| pending := 0; senable := 0; spriority := 0; sclaim := 0 |}.

Definition plic_load (plic : struct_plic) (addr size : Z) : result Z :=
  if negb (size =? 32) then Failed LOAD_ACCESS_FAULT
  else if addr =? PLIC_PENDING then Ok (pending plic)
  else if addr =? PLIC_SENABLE then Ok (senable plic)
  else if addr =? PLIC_SPRIORITY then Ok (spriority plic)
  else if addr =? PLIC_SCLAIM then Ok (sclaim plic)
  else Ok 0.

Definition plic_store (plic : struct_plic) (addr size value : Z)
  : struct_plic * exception_t :=
  if negb (size =? 32) then (plic, STORE_AMO_ACCESS_FAULT)
  else if addr =? PLIC_PENDING then
    ({| pending := value; senable := senable plic;
        spriority := spriority plic; sclaim := sclaim plic |}, OK)
  else if addr =? PLIC_SENABLE then
    ({| pending := pending plic; senable := value;
        spriority := spriority plic; sclaim := sclaim plic |}, OK)
  else if addr =? PLIC_SPRIORITY then
    ({| pending := pending plic; senable := senable plic;
        spriority := value; sclaim := sclaim plic |}, OK)
  else if addr =? PLIC_SCLAIM then
    ({| pending := pending plic; senable := senable plic;
        spriority := spriority plic; sclaim := value |}, OK)
  else (plic, OK).

(** ** The host side of the devices

    What the devices reach outside the emulator: the bytes [putchar] has
    written to standard output, oldest first, and the queue of key codes
    that keyboard.h keeps for [key_take]. *)

Record host_io := { stdout : list Z; keys : list Z }.

Definition putchar (c : Z) (h : host_io) : host_io :=
  {| stdout := stdout h ++ [c]; keys := keys h |}.

(** Modelled from the spec: [key_take] is declared in keyboard.h, which is
    not under src/.  The specification has the keyboard port return one
    queued key code or zero: the oldest key leaves the queue, an empty queue
    gives 0. *)
Definition key_take (h : host_io) : Z * host_io :=
  match keys h with
  | [] => (0, h)
  | k :: ks => (k, {| stdout := stdout h; keys := ks |})
  end.

(** ** UART *)

Record struct_uart := { uart_data : gmap Z Z; interrupting : bool }.

Definition uart_set_data (uart : struct_uart) (i v : Z) : struct_uart :=
  {| uart_data := <[i := v]> (uart_data uart);
     interrupting := interrupting uart |}.

(** The body of the loop of [uart_thread_func] once [read] has delivered the
    character [c], run under the lock: [None] while the thread waits on the
    condition variable. *)
Definition uart_thread_func (c : Z) (uart : struct_uart) : option struct_uart :=
  let lsr := UART_LSR - UART_BASE in
  if Z.land (cell (uart_data uart) lsr) UART_LSR_RX =? 1 then None
  else
    let d := <[0 := uint8_t c]> (uart_data uart) in
    Some {| uart_data := <[lsr := uint8_t (Z.lor (cell d lsr) UART_LSR_RX)]> d;
            interrupting := true |}.

Definition uart_new : struct_uart :=
  let lsr := UART_LSR - UART_BASE in
  {| uart_data := <[lsr := uint8_t (Z.lor (cell ∅ lsr) UART_LSR_TX)]> ∅;
     interrupting := false |}.

(** [uart_load].  [case UART_RHR] has no [break] and falls into [default]. *)
Definition uart_load (uart : struct_uart) (addr size : Z)
  : struct_uart * result Z :=
  if negb (size =? 8) then (uart, Failed LOAD_ACCESS_FAULT)
  else
    let lsr := UART_LSR - UART_BASE in
    let uart1 :=
      if addr =? UART_RHR then
        uart_set_data uart lsr
          (uint8_t (Z.land (cell (uart_data uart) lsr) (Z.lnot UART_LSR_RX)))
      else uart in
    (uart1, Ok (cell (uart_data uart1) (uint64_t (addr - UART_BASE)))).

Definition uart_store (uart : struct_uart) (h : host_io) (addr size value : Z)
  : struct_uart * host_io * exception_t :=
  if negb (size =? 8) then (uart, h, STORE_AMO_ACCESS_FAULT)
  else if addr =? UART_THR then (uart, putchar (Z.land value 0xff) h, OK)
  else (uart_set_data uart (uint64_t (addr - UART_BASE)) (Z.land value 0xff),
        h, OK).

Definition uart_is_interrupting (uart : struct_uart) : bool * struct_uart :=
  (interrupting uart,
   {| uart_data := uart_data uart; interrupting := false |}).

(** ** Block device *)

Record struct_disk := {
  buffer_address_high : Z;
  buffer_address_low : Z;
  buffer_length_high : Z;
  buffer_length_low : Z;
  sector : Z;
  notify : Z;
  direction : Z;
  disk_done : Z;
  disk_data : gmap Z Z
}.

(** One field of a [struct disk] replaced; [upd] names the register. *)
Definition disk_set (vio : struct_disk) (upd : Z) (value : Z) : struct_disk :=
  let pick reg old := if upd =? reg then value else old in
  {| buffer_address_high := pick DISK_BUFFER_ADDR_HIGH (buffer_address_high vio);
     buffer_address_low := pick DISK_BUFFER_ADDR_LOW (buffer_address_low vio);
     buffer_length_high := pick DISK_BUFFER_LEN_HIGH (buffer_length_high vio);
     buffer_length_low := pick DISK_BUFFER_LEN_LOW (buffer_length_low vio);
     sector := pick DISK_SECTOR (sector vio);
     notify := pick DISK_NOTIFY (notify vio);
     direction := pick DISK_DIRECTION (direction vio);
     disk_done := pick DISK_DONE (disk_done vio);
     disk_data := disk_data vio |}.

Definition disk_new (disk : gmap Z Z) : struct_disk :=
  {| buffer_address_high := 0; buffer_address_low := 0;
     buffer_length_high := 0; buffer_length_low := 0;
     sector := 0; notify := uint32_t (-1); direction := 0; disk_done := 0;
     disk_data := disk |}.

Definition disk_load (vio : struct_disk) (addr size : Z) : result Z :=
  if negb (size =? 32) then Failed LOAD_ACCESS_FAULT
  else if addr =? DISK_MAGIC then Ok 0x666F7864
  else if addr =? DISK_VERSION then Ok 0x01
  else if addr =? DISK_NOTIFY then Ok (notify vio)
  else if addr =? DISK_DIRECTION then Ok (direction vio)
  else if addr =? DISK_BUFFER_ADDR_HIGH then Ok (buffer_address_high vio)
  else if addr =? DISK_BUFFER_ADDR_LOW then Ok (buffer_address_low vio)
  else if addr =? DISK_BUFFER_LEN_HIGH then Ok (buffer_length_high vio)
  else if addr =? DISK_BUFFER_LEN_LOW then Ok (buffer_length_low vio)
  else if addr =? DISK_SECTOR then Ok (sector vio)
  else if addr =? DISK_DONE then Ok (disk_done vio)
  else Ok 0.

(** [disk_store]: every assignment narrows the 64-bit [value] to the 32-bit
    field. *)
Definition disk_store (vio : struct_disk) (addr size value : Z)
  : struct_disk * exception_t :=
  if negb (size =? 32) then (vio, STORE_AMO_ACCESS_FAULT)
  else if (addr =? DISK_NOTIFY) || (addr =? DISK_DIRECTION)
          || (addr =? DISK_BUFFER_ADDR_HIGH) || (addr =? DISK_BUFFER_ADDR_LOW)
          || (addr =? DISK_BUFFER_LEN_HIGH) || (addr =? DISK_BUFFER_LEN_LOW)
          || (addr =? DISK_SECTOR) || (addr =? DISK_DONE)
  then (disk_set vio addr (uint32_t value), OK)
  else (vio, OK).

Definition disk_is_interrupting (vio : struct_disk) : bool * struct_disk :=
  if negb (notify vio =? uint32_t (-1)) then
    (true, disk_set vio DISK_NOTIFY (uint32_t (-1)))
  else (false, vio).

(** [vio->disk] is the host buffer that holds the disk image; [struct disk]
    does not record its size and no access checks an index against it.  The
    map [disk_data] has a cell for every index of the buffer and for no
    other, and is empty when the machine has no image ([disk] is [NULL]).
    An access outside the buffer is undefined in C: [None]. *)
Definition disk_disk_read (vio : struct_disk) (addr : Z) : option Z :=
  disk_data vio !! addr.

Definition disk_disk_write (vio : struct_disk) (addr value : Z)
  : option struct_disk :=
  match disk_data vio !! addr with
  | Some _ =>
      Some
        {| buffer_address_high := buffer_address_high vio;
           buffer_address_low := buffer_address_low vio;
           buffer_length_high := buffer_length_high vio;
           buffer_length_low := buffer_length_low vio;
           sector := sector vio; notify := notify vio;
           direction := direction vio;
           disk_done := disk_done vio;
           disk_data := <[addr := uint8_t value]> (disk_data vio) |}
  | None => None
  end.

(** ** Keyboard port *)

(** keyboard.h is not under src/: the three constants the bus and
    [kbd_load] take from it are parameters of everything that follows. *)
Class keyboard_h := { KBD_BASE : Z; KBD_SIZE : Z; KBD_GET : Z }.

Section Platform.
Context {kbd : keyboard_h}.

(** [kbd_load].  [case KBD_GET] has no [break]: the key code it stores in
    [*result] is overwritten by the [default] branch it falls into. *)
Definition kbd_load (h : host_io) (addr size : Z) : host_io * result Z :=
  if negb (size =? 32) then (h, Failed LOAD_ACCESS_FAULT)
  else
    let '(result, h1) :=
      if addr =? KBD_GET then
        let '(k, h1) := key_take h in (uint64_t k, h1)
      else (0, h) in
    let result := 0 in
    (h1, Ok result).

(** ** Bus *)

Record struct_bus := {
  ram : struct_ram;
  clint : struct_clint;
  plic : struct_plic;
  uart : struct_uart;
  disk : struct_disk;
  host : host_io
}.

Definition bus_set_ram (b : struct_bus) (x : struct_ram) : struct_bus :=
  {| ram := x; clint := clint b; plic := plic b; uart := uart b;
     disk := disk b; host := host b |}.
Definition bus_set_clint (b : struct_bus) (x : struct_clint) : struct_bus :=
  {| ram := ram b; clint := x; plic := plic b; uart := uart b;
     disk := disk b; host := host b |}.
Definition bus_set_plic (b : struct_bus) (x : struct_plic) : struct_bus :=
  {| ram := ram b; clint := clint b; plic := x; uart := uart b;
     disk := disk b; host := host b |}.
Definition bus_set_uart (b : struct_bus) (x : struct_uart) : struct_bus :=
  {| ram := ram b; clint := clint b; plic := plic b; uart := x;
     disk := disk b; host := host b |}.
Definition bus_set_disk (b : struct_bus) (x : struct_disk) : struct_bus :=
  {| ram := ram b; clint := clint b; plic := plic b; uart := uart b;
     disk := x; host := host b |}.
Definition bus_set_host (b : struct_bus) (x : host_io) : struct_bus :=
  {| ram := ram b; clint := clint b; plic := plic b; uart := uart b;
     disk := disk b; host := x |}.

Definition bus_new (r : struct_ram) (vio : struct_disk) : struct_bus :=
  {| ram := r; clint := clint_new; plic := plic_new; uart := uart_new;
     disk := vio; host := {| stdout := []; keys := [] |} |}.

(** [RANGE_CHECK(x, minx, size)] with [x] a [uint64_t]: both differences
    are 64-bit, and the cast keeps the low 32 bits of their disjunction. *)
Definition RANGE_CHECK (x minx size : Z) : bool :=
  0 <=? int32_t (Z.lor (uint64_t (x - minx)) (uint64_t (minx + size - 1 - x))).

Definition bus_load (b : struct_bus) (addr size : Z) : struct_bus * result Z :=
  if RANGE_CHECK addr CLINT_BASE CLINT_SIZE then
    (b, clint_load (clint b) addr size)
  else if RANGE_CHECK addr PLIC_BASE PLIC_SIZE then
    (b, plic_load (plic b) addr size)
  else if RANGE_CHECK addr UART_BASE UART_SIZE then
    let '(u, r) := uart_load (uart b) addr size in (bus_set_uart b u, r)
  else if RANGE_CHECK addr DISK_BASE DISK_SIZE then
    (b, disk_load (disk b) addr size)
  else if RANGE_CHECK addr KBD_BASE KBD_SIZE then
    let '(h, r) := kbd_load (host b) addr size in (bus_set_host b h, r)
  else if RAM_BASE <=? addr then
    (b, ram_load (ram b) addr size)
  else (b, Failed LOAD_ACCESS_FAULT).

Definition bus_store (b : struct_bus) (addr size value : Z)
  : struct_bus * exception_t :=
  if RANGE_CHECK addr CLINT_BASE CLINT_SIZE then
    let '(c, e) := clint_store (clint b) addr size value in (bus_set_clint b c, e)
  else if RANGE_CHECK addr PLIC_BASE PLIC_SIZE then
    let '(p, e) := plic_store (plic b) addr size value in (bus_set_plic b p, e)
  else if RANGE_CHECK addr UART_BASE UART_SIZE then
    let '(u, h, e) := uart_store (uart b) (host b) addr size value in
    (bus_set_host (bus_set_uart b u) h, e)
  else if RANGE_CHECK addr DISK_BASE DISK_SIZE then
    let '(d, e) := disk_store (disk b) addr size value in (bus_set_disk b d, e)
  else if RAM_BASE <=? addr then
    let '(r, e) := ram_store (ram b) addr size value in (bus_set_ram b r, e)
  else (b, STORE_AMO_ACCESS_FAULT).

(** *** DMA

    [None] below: [fatal] has ended the process, or an access has left
    the disk image and the program has no defined behaviour.  The locals of
    [bus_disk_access] are [uint32_t]; each receives the low 32 bits of the
    register loaded into it.  [address_high << 32] shifts a 32-bit value by
    its width, which C leaves undefined; it is taken as the shifted value
    cut to 32 bits. *)

Definition shl_uint32 (x n : Z) : Z := uint32_t (Z.shiftl x n).

Definition load_or_fatal (b : struct_bus) (addr size : Z)
  : option (struct_bus * Z) :=
  match bus_load b addr size with
  | (b1, Ok v) => Some (b1, v)
  | (_, Failed _) => None
  end.

(** The loop of the [direction == 1] branch from index [i], [n] rounds. *)
Fixpoint dma_ram_to_disk (n : nat) (i address sector_ : Z) (b : struct_bus)
  : option struct_bus :=
  match n with
  | O => Some b
  | S n' =>
      match load_or_fatal b (uint64_t (address + i)) 8 with
      | Some (b1, data) =>
          match disk_disk_write (disk b1)
                  (uint64_t (uint32_t (sector_ * 512) + i)) data with
          | Some d => dma_ram_to_disk n' (i + 1) address sector_ (bus_set_disk b1 d)
          | None => None
          end
      | None => None
      end
  end.

(** The loop of the other branch from index [i], [n] rounds. *)
Fixpoint dma_disk_to_ram (n : nat) (i address sector_ : Z) (b : struct_bus)
  : option struct_bus :=
  match n with
  | O => Some b
  | S n' =>
      match disk_disk_read (disk b) (uint64_t (uint32_t (sector_ * 512) + i)) with
      | Some data =>
          match bus_store b (uint64_t (address + i)) 8 data with
          | (b1, OK) => dma_disk_to_ram n' (i + 1) address sector_ b1
          | (_, _) => None
          end
      | None => None
      end
  end.

Definition bus_disk_access (b : struct_bus) : option struct_bus :=
  match load_or_fatal b DISK_BUFFER_ADDR_HIGH 32 with
  | None => None
  | Some (b, address_high) =>
  match load_or_fatal b DISK_BUFFER_ADDR_LOW 32 with
  | None => None
  | Some (b, address_low) =>
  let address :=
    Z.lor (shl_uint32 (uint32_t address_high) 32) (uint32_t address_low) in
  match load_or_fatal b DISK_BUFFER_LEN_HIGH 32 with
  | None => None
  | Some (b, length_high) =>
  match load_or_fatal b DISK_BUFFER_LEN_LOW 32 with
  | None => None
  | Some (b, length_low) =>
  let length :=
    Z.lor (shl_uint32 (uint32_t length_high) 32) (uint32_t length_low) in
  match load_or_fatal b DISK_SECTOR 32 with
  | None => None
  | Some (b, sector_) =>
  match load_or_fatal b DISK_DIRECTION 32 with
  | None => None
  | Some (b, direction_) =>
  let copied :=
    if uint32_t direction_ =? 1 then
      dma_ram_to_disk (Z.to_nat length) 0 address (uint32_t sector_) b
    else
      dma_disk_to_ram (Z.to_nat length) 0 address (uint32_t sector_) b in
  match copied with
  | None => None
  | Some b =>
      match bus_store b DISK_DONE 32 0 with
      | (b1, OK) => Some b1
      | (_, _) => None
      end
  end end end end end end end.

(** ** Hart state *)

(** Machine level CSRs *)
Definition MSTATUS : Z := 0x300.
Definition MEDELEG : Z := 0x302.
Definition MIDELEG : Z := 0x303.
Definition MIE : Z := 0x304.
Definition MTVEC : Z := 0x305.
Definition MEPC : Z := 0x341.
Definition MCAUSE : Z := 0x342.
Definition MTVAL : Z := 0x343.
Definition MIP : Z := 0x344.

(** Supervisor level CSRs *)
Definition SSTATUS : Z := 0x100.
Definition SIE : Z := 0x104.
Definition STVEC : Z := 0x105.
Definition SEPC : Z := 0x141.
Definition SCAUSE : Z := 0x142.
Definition STVAL : Z := 0x143.
Definition SIP : Z := 0x144.
Definition SATP : Z := 0x180.

Definition MIP_SSIP : Z := Z.shiftl 1 1.
Definition MIP_MSIP : Z := Z.shiftl 1 3.
Definition MIP_STIP : Z := Z.shiftl 1 5.
Definition MIP_MTIP : Z := Z.shiftl 1 7.
Definition MIP_SEIP : Z := Z.shiftl 1 9.
Definition MIP_MEIP : Z := Z.shiftl 1 11.

Definition PAGE_SIZE : Z := 4096.

(** [MIN], [MAX] and [IS_ALIGNED]. *)
Definition MAX (a b : Z) : Z := if a >? b then a else b.
Definition MIN (a b : Z) : Z := if a <? b then a else b.
Definition IS_ALIGNED (x a : Z) : bool := Z.land x (uint64_t a - 1) =? 0.

Record struct_cpu := {
  regs : gmap Z Z;
  pc : Z;
  csrs : gmap Z Z;
  mode : cpu_mode_t;
  bus : struct_bus;
  enable_paging : bool;
  pagetable : Z
}.

Definition cpu_set_regs (cpu : struct_cpu) (x : gmap Z Z) : struct_cpu :=
  {| regs := x; pc := pc cpu; csrs := csrs cpu; mode := mode cpu;
     bus := bus cpu; enable_paging := enable_paging cpu;
     pagetable := pagetable cpu |}.
Definition cpu_set_pc (cpu : struct_cpu) (x : Z) : struct_cpu :=
  {| regs := regs cpu; pc := x; csrs := csrs cpu; mode := mode cpu;
     bus := bus cpu; enable_paging := enable_paging cpu;
     pagetable := pagetable cpu |}.
Definition cpu_set_csrs (cpu : struct_cpu) (x : gmap Z Z) : struct_cpu :=
  {| regs := regs cpu; pc := pc cpu; csrs := x; mode := mode cpu;
     bus := bus cpu; enable_paging := enable_paging cpu;
     pagetable := pagetable cpu |}.
Definition cpu_set_mode (cpu : struct_cpu) (x : cpu_mode_t) : struct_cpu :=
  {| regs := regs cpu; pc := pc cpu; csrs := csrs cpu; mode := x;
     bus := bus cpu; enable_paging := enable_paging cpu;
     pagetable := pagetable cpu |}.
Definition cpu_set_bus (cpu : struct_cpu) (x : struct_bus) : struct_cpu :=
  {| regs := regs cpu; pc := pc cpu; csrs := csrs cpu; mode := mode cpu;
     bus := x; enable_paging := enable_paging cpu;
     pagetable := pagetable cpu |}.
Definition cpu_set_paging (cpu : struct_cpu) (en : bool) (root : Z) : struct_cpu :=
  {| regs := regs cpu; pc := pc cpu; csrs := csrs cpu; mode := mode cpu;
     bus := bus cpu; enable_paging := en; pagetable := root |}.

(** [cpu->regs[i]] and [cpu->regs[i] = v]; the assignment converts [v] to
    the [uint64_t] of the slot. *)
Definition reg (cpu : struct_cpu) (i : Z) : Z := cell (regs cpu) i.
Definition set_reg (cpu : struct_cpu) (i v : Z) : struct_cpu :=
  cpu_set_regs cpu (<[i := uint64_t v]> (regs cpu)).

(** [cpu_new(code, code_size, disk)]: [disk_image] lists the bytes of the
    buffer [disk]; no disk image ([disk] is [NULL]) is the empty list. *)
Definition cpu_new (code : list Z) (disk_image : list Z) : struct_cpu :=
  {| regs := <[2 := uint64_t (RAM_BASE + RAM_SIZE)]> ∅;
     pc := RAM_BASE;
     csrs := ∅;
     mode := MACHINE;
     bus := bus_new (ram_new code) (disk_new (memcpy ∅ 0 disk_image));
     enable_paging := false;
     pagetable := 0 |}.

Definition cpu_load_csr (cpu : struct_cpu) (addr : Z) : Z :=
  if addr =? SIE then Z.land (cell (csrs cpu) MIE) (cell (csrs cpu) MIDELEG)
  else cell (csrs cpu) addr.

Definition cpu_store_csr (cpu : struct_cpu) (addr value : Z) : struct_cpu :=
  if addr =? SIE then
    cpu_set_csrs cpu
      (<[MIE := Z.lor (Z.land (cell (csrs cpu) MIE)
                              (uint64_t (Z.lnot (cell (csrs cpu) MIDELEG))))
                      (Z.land (uint64_t value) (cell (csrs cpu) MIDELEG))]> (csrs cpu))
  else cpu_set_csrs cpu (<[addr := uint64_t value]> (csrs cpu)).

Definition cpu_update_paging (cpu : struct_cpu) (csr_addr : Z) : struct_cpu :=
  if negb (csr_addr =? SATP) then cpu
  else
    cpu_set_paging cpu
      (8 =? Z.shiftr (cpu_load_csr cpu SATP) 60)
      (uint64_t (Z.land (cpu_load_csr cpu SATP) (uint64_t (Z.shiftl 1 44) - 1)
                 * PAGE_SIZE)).

(** *** Sv39 translation *)

(** [vpn[level]]. *)
Definition vpn (addr : Z) (level : nat) : Z :=
  match level with
  | 0%nat => Z.land (Z.shiftr addr 12) 0x1ff
  | 1%nat => Z.land (Z.shiftr addr 21) 0x1ff
  | _ => Z.land (Z.shiftr addr 30) 0x1ff
  end.

(** The [while (1)] loop of [cpu_translate], entered with [level = n - 1]
    and the table at [a]; on [break] it yields the leaf entry and its
    level.  [walk 0] is the [return e] taken when [--level] drops below
    zero. *)
Fixpoint walk (n : nat) (a addr : Z) (e : exception_t) (b : struct_bus)
  : struct_bus * result (Z * nat) :=
  match n with
  | O => (b, Failed e)
  | S level =>
      match bus_load b (uint64_t (a + vpn addr level * 8)) 64 with
      | (b1, Failed exc) => (b1, Failed exc)
      | (b1, Ok pte) =>
          let v := truthy (Z.land pte 1) in
          let r := truthy (Z.land (Z.shiftr pte 1) 1) in
          let w := truthy (Z.land (Z.shiftr pte 2) 1) in
          let x := truthy (Z.land (Z.shiftr pte 3) 1) in
          if negb v || (negb r && w) then (b1, Failed e)
          else if r || x then (b1, Ok (pte, level))
          else
            walk level
                 (uint64_t (Z.land (Z.shiftr pte 10) 0x0fffffffffff * PAGE_SIZE))
                 addr e b1
      end
  end.

Definition cpu_translate (cpu : struct_cpu) (addr : Z) (e : exception_t)
  : struct_cpu * result Z :=
  if negb (enable_paging cpu) then (cpu, Ok addr)
  else
    match walk 3 (pagetable cpu) addr e (bus cpu) with
    | (b1, Failed exc) => (cpu_set_bus cpu b1, Failed exc)
    | (b1, Ok (pte, level)) =>
        let ppn0 := Z.land (Z.shiftr pte 10) 0x1ff in
        let ppn1 := Z.land (Z.shiftr pte 19) 0x1ff in
        let ppn2 := Z.land (Z.shiftr pte 28) 0x03ffffff in
        let offset := Z.land addr 0xfff in
        let cpu1 := cpu_set_bus cpu b1 in
        match level with
        | 0%nat =>
            (cpu1, Ok (Z.lor (uint64_t (Z.shiftl (Z.land (Z.shiftr pte 10) 0x0fffffffffff) 12))
                             offset))
        | 1%nat =>
            (cpu1, Ok (Z.lor (Z.lor (Z.lor (uint64_t (Z.shiftl ppn2 30))
                                           (uint64_t (Z.shiftl ppn1 21)))
                                    (uint64_t (Z.shiftl (vpn addr 0) 12)))
                             offset))
        | 2%nat =>
            (cpu1, Ok (Z.lor (Z.lor (Z.lor (uint64_t (Z.shiftl ppn2 30))
                                           (uint64_t (Z.shiftl (vpn addr 1) 21)))
                                    (uint64_t (Z.shiftl (vpn addr 0) 12)))
                             offset))
        | _ => (cpu1, Failed e)
        end
    end.

(** *** Functions that run on the hart: a status or a value, and the hart
    as they leave it. *)

Definition M (A : Type) : Type := struct_cpu -> struct_cpu * result A.

Definition ret {A} (a : A) : M A := fun cpu => (cpu, Ok a).

(** [return e;] *)
Definition raise {A} (e : exception_t) : M A := fun cpu => (cpu, Failed e).

(** [if ((e = m) != OK) return e;] followed by [k]. *)
Definition bind {A B} (m : M A) (k : A -> M B) : M B :=
  fun cpu =>
    match m cpu with
    | (cpu1, Ok a) => k a cpu1
    | (cpu1, Failed e) => (cpu1, Failed e)
    end.

Notation "'try' x <- m ; k" := (bind m (fun x => k))
  (at level 10, x name, m at level 100, k at level 200,
   format "'[v' 'try'  x  <-  m ; '/' k ']'").

(** A statement that cannot fail. *)
Definition step (f : struct_cpu -> struct_cpu) : M unit :=
  fun cpu => (f cpu, Ok tt).

(** [cpu->regs[rd] = v;] *)
Definition write (rd v : Z) : M unit := step (fun cpu => set_reg cpu rd v).

(** Fetch an instruction from current PC from RAM. *)
Definition cpu_fetch : M Z :=
  try ppc <- (fun cpu => cpu_translate cpu (pc cpu) INSTRUCTION_PAGE_FAULT);
  fun cpu =>
    match bus_load (bus cpu) ppc 32 with
    | (b1, Ok insn) => (cpu_set_bus cpu b1, Ok insn)
    | (b1, Failed _) => (cpu_set_bus cpu b1, Failed INSTRUCTION_ACCESS_FAULT)
    end.

Definition cpu_load (addr size : Z) : M Z :=
  try pa <- (fun cpu => cpu_translate cpu addr LOAD_PAGE_FAULT);
  fun cpu =>
    let '(b1, r) := bus_load (bus cpu) pa size in (cpu_set_bus cpu b1, r).

Definition cpu_store (addr size value : Z) : M unit :=
  try pa <- (fun cpu => cpu_translate cpu addr STORE_AMO_PAGE_FAULT);
  fun cpu =>
    match bus_store (bus cpu) pa size value with
    | (b1, OK) => (cpu_set_bus cpu b1, Ok tt)
    | (b1, e) => (cpu_set_bus cpu b1, Failed e)
    end.

(** *** The executor

    [cpu_execute] is one [switch] on the opcode; each [case] is a function
    of its own here, named after the opcode, and takes the fields the
    prologue of [cpu_execute] decodes. *)

Definition uint128_t (z : Z) : Z := z mod 2 ^ 128.

(** [case 0x03]: loads. *)
Definition execute_0x03 (insn rd rs1 funct3 : Z) : M unit := fun cpu =>
  let imm := uint64_t (Z.shiftr (int32_t insn) 20) in
  let addr := uint64_t (reg cpu rs1 + imm) in
  (if funct3 =? 0x0 then (* lb *)
     try result <- cpu_load addr 8; write rd (int8_t result)
   else if funct3 =? 0x1 then (* lh *)
     try result <- cpu_load addr 16; write rd (int16_t result)
   else if funct3 =? 0x2 then (* lw *)
     try result <- cpu_load addr 32; write rd (int32_t result)
   else if funct3 =? 0x3 then (* ld *)
     try result <- cpu_load addr 64; write rd result
   else if funct3 =? 0x4 then (* lbu *)
     try result <- cpu_load addr 8; write rd result
   else if funct3 =? 0x5 then (* lhu *)
     try result <- cpu_load addr 16; write rd result
   else if funct3 =? 0x6 then (* lwu *)
     try result <- cpu_load addr 32; write rd result
   else raise ILLEGAL_INSTRUCTION) cpu.

(** [case 0x0f]: fence. *)
Definition execute_0x0f (funct3 : Z) : M unit :=
  if funct3 =? 0x0 then ret tt else raise ILLEGAL_INSTRUCTION.

(** [case 0x13]: register-immediate operations. *)
Definition execute_0x13 (insn rd rs1 funct3 funct7 : Z) : M unit := fun cpu =>
  let imm := uint64_t (Z.shiftr (int32_t (Z.land insn 0xfff00000)) 20) in
  let shamt := uint32_t (Z.land imm 0x3f) in
  let x := reg cpu rs1 in
  (if funct3 =? 0x0 then (* addi *) write rd (x + imm)
   else if funct3 =? 0x1 then (* slli *) write rd (Z.shiftl x shamt)
   else if funct3 =? 0x2 then (* slti *)
     write rd (of_bool (int64_t x <? int64_t imm))
   else if funct3 =? 0x3 then (* sltiu *) write rd (of_bool (x <? imm))
   else if funct3 =? 0x4 then (* xori *) write rd (Z.lxor x imm)
   else if funct3 =? 0x5 then
     if Z.shiftr funct7 1 =? 0x00 then (* srli *) write rd (Z.shiftr x shamt)
     else if Z.shiftr funct7 1 =? 0x10 then (* srai *)
       write rd (Z.shiftr (int64_t x) shamt)
     else raise ILLEGAL_INSTRUCTION
   else if funct3 =? 0x6 then (* ori *) write rd (Z.lor x imm)
   else if funct3 =? 0x7 then (* andi *) write rd (Z.land x imm)
   else raise ILLEGAL_INSTRUCTION) cpu.

(** [case 0x17]: auipc. *)
Definition execute_0x17 (insn rd : Z) : M unit := fun cpu =>
  let imm := uint64_t (int32_t (Z.land insn 0xfffff000)) in
  write rd (pc cpu + imm - 4) cpu.

(** [case 0x1b]: register-immediate operations on words. *)
Definition execute_0x1b (insn rd rs1 funct3 funct7 : Z) : M unit := fun cpu =>
  let imm := uint64_t (Z.shiftr (int32_t insn) 20) in
  let shamt := uint32_t (Z.land imm 0x1f) in
  let x := reg cpu rs1 in
  (if funct3 =? 0x0 then (* addiw *) write rd (int32_t (x + imm))
   else if funct3 =? 0x1 then (* slliw *)
     write rd (int32_t (uint64_t (Z.shiftl x shamt)))
   else if funct3 =? 0x5 then
     if funct7 =? 0x00 then (* srliw *)
       write rd (int32_t (Z.shiftr (uint32_t x) shamt))
     else if funct7 =? 0x20 then (* sraiw *)
       write rd (Z.shiftr (int32_t x) shamt)
     else raise ILLEGAL_INSTRUCTION
   else raise ILLEGAL_INSTRUCTION) cpu.

(** [case 0x23]: stores. *)
Definition execute_0x23 (insn rs1 rs2 funct3 : Z) : M unit := fun cpu =>
  let imm := Z.lor (uint64_t (Z.shiftr (int32_t (Z.land insn 0xfe000000)) 20))
                   (Z.land (Z.shiftr insn 7) 0x1f) in
  let addr := uint64_t (reg cpu rs1 + imm) in
  (if funct3 =? 0x0 then (* sb *) cpu_store addr 8 (reg cpu rs2)
   else if funct3 =? 0x1 then (* sh *) cpu_store addr 16 (reg cpu rs2)
   else if funct3 =? 0x2 then (* sw *) cpu_store addr 32 (reg cpu rs2)
   else if funct3 =? 0x3 then (* sd *) cpu_store addr 64 (reg cpu rs2)
   else raise ILLEGAL_INSTRUCTION) cpu.

(** The shape every AMO of [case 0x2f] has: check the alignment of
    [regs[rs1]], load [t], store [f t regs[rs2]], write [g t] to [rd].
    The registers are read where the source reads them: the address before
    the load, the operand after it. *)
Definition amo (width align rd rs1 rs2 : Z) (f : Z -> Z -> Z) (g : Z -> Z) : M unit :=
  fun cpu =>
    (if negb (IS_ALIGNED (reg cpu rs1) align) then
       raise LOAD_ADDRESS_MISALIGNED
     else
       try t <- cpu_load (reg cpu rs1) width;
       try _ <- (fun cpu1 =>
                   cpu_store (reg cpu1 rs1) width
                             (uint64_t (f t (reg cpu1 rs2))) cpu1);
       write rd (g t)) cpu.

(** [case 0x2f]: atomic memory operations. *)
Definition execute_0x2f (rd rs1 rs2 funct3 funct7 : Z) : M unit :=
  let funct5 := Z.shiftr (Z.land funct7 0x7c) 2 in
  let sel f3 f5 := (funct3 =? f3) && (funct5 =? f5) in
  if sel 0x2 0x00 then (* amoadd.w *)
    amo 32 4 rd rs1 rs2 (fun t y => t + y) int32_t
  else if sel 0x2 0x01 then (* amoswap.w *)
    amo 32 4 rd rs1 rs2 (fun t y => y) int32_t
  else if sel 0x2 0x04 then (* amoxor.w *)
    amo 32 4 rd rs1 rs2 (fun t y => Z.lxor t y) int32_t
  else if sel 0x2 0x08 then (* amoor.w *)
    amo 32 4 rd rs1 rs2 (fun t y => Z.lor t y) int32_t
  else if sel 0x2 0x0c then (* amoand.w *)
    amo 32 4 rd rs1 rs2 (fun t y => Z.land t y) int32_t
  else if sel 0x2 0x10 then (* amomin.w *)
    amo 32 4 rd rs1 rs2 (fun t y => MIN (int32_t t) (int32_t y)) int32_t
  else if sel 0x2 0x14 then (* amomax.w *)
    amo 32 4 rd rs1 rs2 (fun t y => MAX (int32_t t) (int32_t y)) int32_t
  else if sel 0x2 0x18 then (* amominu.w *)
    amo 32 4 rd rs1 rs2 (fun t y => MIN (uint32_t t) (uint32_t y)) int32_t
  else if sel 0x2 0x1c then (* amomaxu.w *)
    amo 32 4 rd rs1 rs2 (fun t y => MAX (uint32_t t) (uint32_t y)) int32_t
  else if sel 0x3 0x00 then (* amoadd.d *)
    amo 64 8 rd rs1 rs2 (fun t y => t + y) id
  else if sel 0x3 0x01 then (* amoswap.d *)
    amo 64 8 rd rs1 rs2 (fun t y => y) id
  else if sel 0x3 0x04 then (* amoxor.d *)
    amo 64 8 rd rs1 rs2 (fun t y => Z.lxor t y) id
  else if sel 0x3 0x08 then (* amoor.d *)
    amo 64 8 rd rs1 rs2 (fun t y => Z.lor t y) id
  else if sel 0x3 0x0c then (* amoand.d *)
    amo 64 8 rd rs1 rs2 (fun t y => Z.land t y) id
  else if sel 0x3 0x10 then (* amomin.d *)
    amo 64 8 rd rs1 rs2 (fun t y => MIN (int64_t t) (int64_t y)) id
  else if sel 0x3 0x14 then (* amomax.d *)
    amo 64 8 rd rs1 rs2 (fun t y => MAX (int64_t t) (int64_t y)) id
  else if sel 0x3 0x18 then (* amominu.d *)
    amo 64 8 rd rs1 rs2 (fun t y => MIN t y) id
  else if sel 0x3 0x1c then (* amomaxu.d *)
    amo 64 8 rd rs1 rs2 (fun t y => MAX t y) id
  else raise ILLEGAL_INSTRUCTION.

(** [case 0x33]: register-register operations.  The high halves of the
    products are the [__int128] branch of the source. *)
Definition execute_0x33 (rd rs1 rs2 funct3 funct7 : Z) : M unit := fun cpu =>
  let x := reg cpu rs1 in
  let y := reg cpu rs2 in
  let shamt := uint32_t (Z.land y 0x3f) in
  let sel f3 f7 := (funct3 =? f3) && (funct7 =? f7) in
  (if sel 0x0 0x00 then (* add *) write rd (x + y)
   else if sel 0x0 0x01 then (* mul *) write rd (x * y)
   else if sel 0x0 0x20 then (* sub *) write rd (x - y)
   else if sel 0x1 0x00 then (* sll *) write rd (Z.shiftl x shamt)
   else if sel 0x1 0x01 then (* mulh *)
     write rd (Z.shiftr (int64_t x * int64_t y) 64)
   else if sel 0x2 0x00 then (* slt *)
     write rd (of_bool (int64_t x <? int64_t y))
   else if sel 0x2 0x01 then (* mulhsu *)
     write rd (Z.shiftr (uint128_t (int64_t x * y)) 64)
   else if sel 0x3 0x00 then (* sltu *) write rd (of_bool (x <? y))
   else if sel 0x3 0x01 then (* mulhu *)
     write rd (Z.shiftr (uint128_t (x * y)) 64)
   else if sel 0x4 0x00 then (* xor *) write rd (Z.lxor x y)
   else if sel 0x4 0x01 then (* div *)
     let dividend := int64_t x in
     let divisor := int64_t y in
     if divisor =? 0 then write rd (-1)
     else if (dividend =? INT64_MIN) && (divisor =? -1) then write rd INT64_MIN
     else write rd (Z.quot dividend divisor)
   else if sel 0x5 0x00 then (* srl *) write rd (Z.shiftr x shamt)
   else if sel 0x5 0x01 then (* divu *)
     write rd (if y =? 0 then UINT64_MAX else x / y)
   else if sel 0x5 0x20 then (* sra *) write rd (Z.shiftr (int64_t x) shamt)
   else if sel 0x6 0x01 then (* rem *)
     if y =? 0 then write rd x
     else if (int64_t x =? INT64_MIN) && (int64_t y =? -1) then write rd 0
     else write rd (Z.rem (int64_t x) (int64_t y))
   else if sel 0x6 0x00 then (* or *) write rd (Z.lor x y)
   else if sel 0x7 0x00 then (* and *) write rd (Z.land x y)
   else if sel 0x7 0x01 then (* remu *)
     write rd (if y =? 0 then x else x mod y)
   else raise ILLEGAL_INSTRUCTION) cpu.

(** [case 0x37]: lui. *)
Definition execute_0x37 (insn rd : Z) : M unit :=
  write rd (int32_t (Z.land insn 0xfffff000)).

(** [case 0x3b]: register-register operations on words. *)
Definition execute_0x3b (rd rs1 rs2 funct3 funct7 : Z) : M unit := fun cpu =>
  let x := reg cpu rs1 in
  let y := reg cpu rs2 in
  let shamt := uint32_t (Z.land y 0x1f) in
  let sel f3 f7 := (funct3 =? f3) && (funct7 =? f7) in
  (if sel 0x0 0x00 then (* addw *) write rd (int32_t (x + y))
   else if sel 0x0 0x01 then (* mulw *)
     write rd (int32_t (int32_t x * int32_t y))
   else if sel 0x0 0x20 then (* subw *) write rd (int32_t (x - y))
   else if sel 0x1 0x00 then (* sllw *)
     write rd (int32_t (uint32_t (Z.shiftl (uint32_t x) shamt)))
   else if sel 0x4 0x01 then (* divw *)
     if y =? 0 then write rd (-1)
     else if (int32_t x =? INT32_MIN) && (int32_t y =? -1) then
       write rd INT32_MIN
     else write rd (Z.quot (int32_t x) (int32_t y))
   else if sel 0x5 0x00 then (* srlw *)
     write rd (int32_t (Z.shiftr (uint32_t x) shamt))
   else if sel 0x5 0x01 then (* divuw *)
     write rd (if y =? 0 then UINT64_MAX
               else int32_t (uint32_t x / uint32_t y))
   else if sel 0x5 0x20 then (* sraw *)
     write rd (Z.shiftr (int32_t x) (int32_t shamt))
   else if sel 0x6 0x01 then (* remw *)
     if y =? 0 then write rd x
     else if (int32_t x =? INT32_MIN) && (int32_t y =? -1) then write rd 0
     else write rd (Z.rem (int32_t x) (int32_t y))
   else if sel 0x7 0x01 then (* remuw *)
     write rd (if y =? 0 then x
               else int32_t (uint32_t x mod uint32_t y))
   else raise ILLEGAL_INSTRUCTION) cpu.

(** [cpu->pc += imm - 4;] *)
Definition jump (imm : Z) (cpu : struct_cpu) : struct_cpu :=
  cpu_set_pc cpu (uint64_t (pc cpu + uint64_t (imm - 4))).

(** [case 0x63]: branches. *)
Definition execute_0x63 (insn rs1 rs2 funct3 : Z) : M unit := fun cpu =>
  let imm :=
    Z.lor (Z.lor (Z.lor (uint64_t (Z.shiftr (int32_t (Z.land insn 0x80000000)) 19))
                        (uint64_t (Z.shiftl (Z.land insn 0x80) 4)))
                 (Z.land (Z.shiftr insn 20) 0x7e0))
          (Z.land (Z.shiftr insn 7) 0x1e) in
  let x := reg cpu rs1 in
  let y := reg cpu rs2 in
  let branch (taken : bool) : M unit :=
    if taken then step (jump imm) else ret tt in
  (if funct3 =? 0x0 then (* beq *) branch (x =? y)
   else if funct3 =? 0x1 then (* bne *) branch (negb (x =? y))
   else if funct3 =? 0x4 then (* blt *) branch (int64_t x <? int64_t y)
   else if funct3 =? 0x5 then (* bge *) branch (int64_t x >=? int64_t y)
   else if funct3 =? 0x6 then (* bltu *) branch (x <? y)
   else if funct3 =? 0x7 then (* bgeu *) branch (x >=? y)
   else raise ILLEGAL_INSTRUCTION) cpu.

(** [case 0x67]: jalr. *)
Definition execute_0x67 (insn rd rs1 : Z) : M unit := fun cpu =>
  let t := pc cpu in
  let imm := uint64_t (Z.shiftr (int32_t (Z.land insn 0xfff00000)) 20) in
  let cpu1 :=
    cpu_set_pc cpu (Z.land (uint64_t (reg cpu rs1 + imm)) (uint64_t (Z.lnot 1))) in
  write rd t cpu1.

(** [case 0x6f]: jal. *)
Definition execute_0x6f (insn rd : Z) : M unit := fun cpu =>
  let cpu1 := set_reg cpu rd (pc cpu) in
  let imm :=
    Z.lor (Z.lor (Z.lor (uint64_t (Z.shiftr (int32_t (Z.land insn 0x80000000)) 11))
                        (Z.land insn 0xff000))
                 (Z.land (Z.shiftr insn 9) 0x800))
          (Z.land (Z.shiftr insn 20) 0x7fe) in
  step (jump imm) cpu1.

(** [8 + cpu->mode], the value [ecall] returns. *)
Definition ecall_from (m : cpu_mode_t) : exception_t :=
  match m with
  | USER => ECALL_FROM_UMODE
  | SUPERVISOR => ECALL_FROM_SMODE
  | MACHINE => ECALL_FROM_MMODE
  end.

(** The three [cpu_store_csr] calls that end [sret] and [mret]: the
    enable bit [ie] takes the value of the previous-enable bit [pie], which
    is then set, and the bits of [pp] are cleared. *)
Definition xret_status (csr ie pie pp : Z) (cpu : struct_cpu) : struct_cpu :=
  let cpu1 :=
    cpu_store_csr cpu csr
      (if truthy (Z.land (Z.shiftr (cpu_load_csr cpu csr) pie) 1)
       then Z.lor (cpu_load_csr cpu csr) (Z.shiftl 1 ie)
       else Z.land (cpu_load_csr cpu csr) (uint64_t (Z.lnot (Z.shiftl 1 ie)))) in
  let cpu2 :=
    cpu_store_csr cpu1 csr (Z.lor (cpu_load_csr cpu1 csr) (Z.shiftl 1 pie)) in
  cpu_store_csr cpu2 csr (Z.land (cpu_load_csr cpu2 csr) (uint64_t (Z.lnot pp))).

Definition sret (cpu : struct_cpu) : struct_cpu :=
  let cpu1 := cpu_set_pc cpu (cpu_load_csr cpu SEPC) in
  let cpu2 :=
    cpu_set_mode cpu1
      (if truthy (Z.land (Z.shiftr (cpu_load_csr cpu1 SSTATUS) 8) 1)
       then SUPERVISOR else USER) in
  xret_status SSTATUS 1 5 (Z.shiftl 1 8) cpu2.

Definition mret (cpu : struct_cpu) : struct_cpu :=
  let cpu1 := cpu_set_pc cpu (cpu_load_csr cpu MEPC) in
  let mpp := Z.land (Z.shiftr (cpu_load_csr cpu1 MSTATUS) 11) 3 in
  let cpu2 :=
    cpu_set_mode cpu1
      (if mpp =? 2 then MACHINE else if mpp =? 1 then SUPERVISOR else USER) in
  xret_status MSTATUS 3 7 (Z.shiftl 3 11) cpu2.

(** The CSR instructions: [t] is read, [new t] stored, [t] written to
    [rd], the paging cache refreshed. *)
Definition csr_insn (addr rd : Z) (new : Z -> Z) (cpu : struct_cpu) : struct_cpu :=
  let t := cpu_load_csr cpu addr in
  let cpu1 := cpu_store_csr cpu addr (new t) in
  let cpu2 := set_reg cpu1 rd t in
  cpu_update_paging cpu2 addr.

(** [csrrwi] writes [rd] before it stores the CSR. *)
Definition csrrwi (addr rd rs1 : Z) (cpu : struct_cpu) : struct_cpu :=
  let cpu1 := set_reg cpu rd (cpu_load_csr cpu addr) in
  let cpu2 := cpu_store_csr cpu1 addr rs1 in
  cpu_update_paging cpu2 addr.

(** [case 0x73]: system instructions. *)
Definition execute_0x73 (insn rd rs1 rs2 funct3 funct7 : Z) : M unit := fun cpu =>
  let addr := uint16_t (Z.shiftr (Z.land insn 0xfff00000) 20) in
  (if funct3 =? 0x0 then
     if (rs2 =? 0x0) && (funct7 =? 0x0) then (* ecall *)
       raise (ecall_from (mode cpu))
     else if (rs2 =? 0x1) && (funct7 =? 0x0) then (* ebreak *)
       raise BREAKPOINT
     else if (rs2 =? 0x2) && (funct7 =? 0x8) then step sret
     else if (rs2 =? 0x2) && (funct7 =? 0x18) then step mret
     else if funct7 =? 0x9 then (* sfence.vma *) ret tt
     else raise ILLEGAL_INSTRUCTION
   else if funct3 =? 0x1 then (* csrrw *)
     step (csr_insn addr rd (fun t => reg cpu rs1))
   else if funct3 =? 0x2 then (* csrrs *)
     step (csr_insn addr rd (fun t => Z.lor t (reg cpu rs1)))
   else if funct3 =? 0x3 then (* csrrc *)
     step (csr_insn addr rd (fun t => Z.land t (uint64_t (Z.lnot (reg cpu rs1)))))
   else if funct3 =? 0x5 then step (csrrwi addr rd rs1)
   else if funct3 =? 0x6 then (* csrrsi *)
     step (csr_insn addr rd (fun t => Z.lor t rs1))
   else if funct3 =? 0x7 then (* csrrci *)
     step (csr_insn addr rd (fun t => Z.land t (uint64_t (Z.lnot rs1))))
   else raise ILLEGAL_INSTRUCTION) cpu.

Definition cpu_execute (cpu : struct_cpu) (insn : Z) : struct_cpu * exception_t :=
  let opcode := Z.land insn 0x7f in
  let rd := Z.land (Z.shiftr insn 7) 0x1f in
  let rs1 := Z.land (Z.shiftr insn 15) 0x1f in
  let rs2 := Z.land (Z.shiftr insn 20) 0x1f in
  let funct3 := Z.land (Z.shiftr insn 12) 0x7 in
  let funct7 := Z.land (Z.shiftr insn 25) 0x7f in
  let cpu0 := set_reg cpu 0 0 in  (* x0 register is always zero *)
  let '(cpu1, r) :=
    (if opcode =? 0x03 then execute_0x03 insn rd rs1 funct3
     else if opcode =? 0x0f then execute_0x0f funct3
     else if opcode =? 0x13 then execute_0x13 insn rd rs1 funct3 funct7
     else if opcode =? 0x17 then execute_0x17 insn rd
     else if opcode =? 0x1b then execute_0x1b insn rd rs1 funct3 funct7
     else if opcode =? 0x23 then execute_0x23 insn rs1 rs2 funct3
     else if opcode =? 0x2f then execute_0x2f rd rs1 rs2 funct3 funct7
     else if opcode =? 0x33 then execute_0x33 rd rs1 rs2 funct3 funct7
     else if opcode =? 0x37 then execute_0x37 insn rd
     else if opcode =? 0x3b then execute_0x3b rd rs1 rs2 funct3 funct7
     else if opcode =? 0x63 then execute_0x63 insn rs1 rs2 funct3
     else if opcode =? 0x67 then execute_0x67 insn rd rs1
     else if opcode =? 0x6f then execute_0x6f insn rd
     else if opcode =? 0x73 then execute_0x73 insn rd rs1 rs2 funct3 funct7
     else raise ILLEGAL_INSTRUCTION) cpu0 in
  (cpu1, status r).

(** *** Traps *)

Definition is_OK (e : exception_t) : bool :=
  match e with OK => true | _ => false end.

Definition is_NONE (i : interrupt_t) : bool :=
  match i with NONE => true | _ => false end.

Definition is_USER (m : cpu_mode_t) : bool :=
  match m with USER => true | _ => false end.

Definition is_SUPERVISOR (m : cpu_mode_t) : bool :=
  match m with SUPERVISOR => true | _ => false end.

Definition is_MACHINE (m : cpu_mode_t) : bool :=
  match m with MACHINE => true | _ => false end.

(** The [cause] that [cpu_take_trap] computes. *)
Definition trap_cause (e : exception_t) (intr : interrupt_t) : Z :=
  if negb (is_NONE intr) then
    Z.lor (uint64_t (Z.shiftl 1 63)) (uint64_t (interrupt_code intr))
  else uint64_t (exception_code e).

(** The condition of the [if] of [cpu_take_trap]: the trap is delegated to
    Supervisor mode. *)
Definition trap_delegated (cpu : struct_cpu) (e : exception_t) (intr : interrupt_t)
  : bool :=
  (mode_code (mode cpu) <=? mode_code SUPERVISOR)
  && negb (Z.land (Z.shiftr (cpu_load_csr cpu MEDELEG)
                            (uint32_t (trap_cause e intr))) 1 =? 0).

(** The assignment to [cpu->pc], the same in both branches up to the
    vector register [tvec]. *)
Definition trap_vector (tvec : Z) (is_interrupt : bool) (cause : Z)
  (cpu : struct_cpu) : struct_cpu :=
  if is_interrupt then
    let vec :=
      if truthy (Z.land (cpu_load_csr cpu tvec) 1) then uint64_t (4 * cause)
      else 0 in
    cpu_set_pc cpu
      (uint64_t (Z.land (cpu_load_csr cpu tvec) (uint64_t (Z.lnot 1)) + vec))
  else cpu_set_pc cpu (Z.land (cpu_load_csr cpu tvec) (uint64_t (Z.lnot 1))).

(** [cpu_store_csr(cpu, csr, cpu_load_csr(cpu, csr) & ~mask)] and the same
    with [| mask]. *)
Definition csr_clear (csr mask : Z) (cpu : struct_cpu) : struct_cpu :=
  cpu_store_csr cpu csr (Z.land (cpu_load_csr cpu csr) (uint64_t (Z.lnot mask))).
Definition csr_set (csr mask : Z) (cpu : struct_cpu) : struct_cpu :=
  cpu_store_csr cpu csr (Z.lor (cpu_load_csr cpu csr) mask).

Definition cpu_take_trap (cpu : struct_cpu) (e : exception_t) (intr : interrupt_t)
  : struct_cpu :=
  let exception_pc := uint64_t (pc cpu - 4) in
  let prev_mode := mode cpu in
  let is_interrupt := negb (is_NONE intr) in
  let cause := trap_cause e intr in
  if trap_delegated cpu e intr then
    let cpu := cpu_set_mode cpu SUPERVISOR in
    let cpu := trap_vector STVEC is_interrupt cause cpu in
    let cpu := cpu_store_csr cpu SEPC (Z.land exception_pc (uint64_t (Z.lnot 1))) in
    let cpu := cpu_store_csr cpu SCAUSE cause in
    let cpu := cpu_store_csr cpu STVAL 0 in
    let cpu :=
      if truthy (Z.land (Z.shiftr (cpu_load_csr cpu SSTATUS) 1) 1)
      then csr_set SSTATUS (Z.shiftl 1 5) cpu
      else csr_clear SSTATUS (Z.shiftl 1 5) cpu in
    let cpu := csr_clear SSTATUS (Z.shiftl 1 1) cpu in
    if is_USER prev_mode then csr_clear SSTATUS (Z.shiftl 1 8) cpu
    else csr_set SSTATUS (Z.shiftl 1 8) cpu
  else
    let cpu := cpu_set_mode cpu MACHINE in
    let cpu := trap_vector MTVEC is_interrupt cause cpu in
    let cpu := cpu_store_csr cpu MEPC (Z.land exception_pc (uint64_t (Z.lnot 1))) in
    let cpu := cpu_store_csr cpu MCAUSE cause in
    let cpu := cpu_store_csr cpu MTVAL 0 in
    let cpu :=
      if truthy (Z.land (Z.shiftr (cpu_load_csr cpu MSTATUS) 3) 1)
      then csr_set MSTATUS (Z.shiftl 1 7) cpu
      else csr_clear MSTATUS (Z.shiftl 1 7) cpu in
    let cpu := csr_clear MSTATUS (Z.shiftl 1 3) cpu in
    csr_clear MSTATUS (Z.shiftl 3 11) cpu.

(** *** Interrupts *)

Definition DISK_IRQ : Z := 1.
Definition UART_IRQ : Z := 10.

(** The two statements after the [if] chain of the [do { } while (0)]
    block: the claim register of the PLIC and [mip.SEIP]. *)
Definition publish_irq (irq : Z) (cpu : struct_cpu) : struct_cpu :=
  let cpu1 := cpu_set_bus cpu (bus_store (bus cpu) PLIC_SCLAIM 32 irq).1 in
  csr_set MIP MIP_SEIP cpu1.

(** The [do { } while (0)] block of [cpu_check_pending_interrupt]; [None]
    when the DMA ends the process through [fatal] or leaves the disk
    image. *)
Definition poll_devices (cpu : struct_cpu) : option struct_cpu :=
  let '(uart_irq, u1) := uart_is_interrupting (uart (bus cpu)) in
  let cpu1 := cpu_set_bus cpu (bus_set_uart (bus cpu) u1) in
  if uart_irq then Some (publish_irq UART_IRQ cpu1)
  else
    let '(disk_irq, d1) := disk_is_interrupting (disk (bus cpu1)) in
    let cpu2 := cpu_set_bus cpu1 (bus_set_disk (bus cpu1) d1) in
    if disk_irq then
      match bus_disk_access (bus cpu2) with
      | None => None
      | Some b => Some (publish_irq DISK_IRQ (cpu_set_bus cpu2 b))
      end
    else Some cpu2.

(** The rest of [cpu_check_pending_interrupt], from the declaration of
    [pending] to the end. *)
Definition select_pending (cpu : struct_cpu) : struct_cpu * interrupt_t :=
  let pending := Z.land (cpu_load_csr cpu MIE) (cpu_load_csr cpu MIP) in
  if truthy (Z.land pending MIP_MEIP) then
    (csr_clear MIP MIP_MEIP cpu, MACHINE_EXTERNAL_INTERRUPT)
  else if truthy (Z.land pending MIP_MSIP) then
    (csr_clear MIP MIP_MSIP cpu, MACHINE_SOFTWARE_INTERRUPT)
  else if truthy (Z.land pending MIP_MTIP) then
    (csr_clear MIP MIP_MTIP cpu, MACHINE_TIMER_INTERRUPT)
  else if truthy (Z.land pending MIP_SEIP) then
    (csr_clear MIP MIP_SEIP cpu, SUPERVISOR_EXTERNAL_INTERRUPT)
  else if truthy (Z.land pending MIP_SSIP) then
    (csr_clear MIP MIP_SSIP cpu, SUPERVISOR_SOFTWARE_INTERRUPT)
  else if truthy (Z.land pending MIP_STIP) then
    (csr_clear MIP MIP_STIP cpu, SUPERVISOR_TIMER_INTERRUPT)
  else (cpu, NONE).

Definition cpu_check_pending_interrupt (cpu : struct_cpu)
  : option (struct_cpu * interrupt_t) :=
  if is_MACHINE (mode cpu)
     && (Z.land (Z.shiftr (cpu_load_csr cpu MSTATUS) 3) 1 =? 0)
  then Some (cpu, NONE)
  else if is_SUPERVISOR (mode cpu)
          && (Z.land (Z.shiftr (cpu_load_csr cpu SSTATUS) 1) 1 =? 0)
  then Some (cpu, NONE)
  else
    match poll_devices cpu with
    | None => None
    | Some cpu1 => Some (select_pending cpu1)
    end.

(** ** main.c: one instruction

    [execute_instruction]; [None] when the process exits, or when the DMA
    of the interrupt check leaves the disk image. *)

(** From [cpu->pc += 4] to the end, with the instruction in [insn]. *)
Definition execute_fetched (cpu2 : struct_cpu) (insn : Z) : option struct_cpu :=
  let cpu3 := cpu_set_pc cpu2 (uint64_t (pc cpu2 + 4)) in
  let '(cpu4, e) := cpu_execute cpu3 insn in
  let executed :=
    if negb (is_OK e) then
      let cpu5 := cpu_take_trap cpu4 e NONE in
      if exception_is_fatal e then None else Some cpu5
    else Some cpu4 in
  match executed with
  | None => None
  | Some cpu5 =>
      match cpu_check_pending_interrupt cpu5 with
      | None => None
      | Some (cpu6, intr) =>
          if negb (is_NONE intr) then Some (cpu_take_trap cpu6 OK intr)
          else Some cpu6
      end
  end.

Definition execute_instruction (cpu : struct_cpu) : option struct_cpu :=
  match cpu_fetch cpu with
  | (cpu1, Ok insn) => execute_fetched cpu1 insn
  | (cpu1, Failed e) =>
      let cpu2 := cpu_take_trap cpu1 e NONE in
      if exception_is_fatal e then None else execute_fetched cpu2 0
  end.

(** ** The machine and what surrounds it

    Between two instructions the input thread of the UART may deliver a
    character, and the host may queue a key. *)

(** Modelled from the spec: the host keyboard capture, which is not under
    src/, produces the key codes that [key_take] consumes. *)
Definition key_put (k : Z) (h : host_io) : host_io :=
  {| stdout := stdout h; keys := keys h ++ [k] |}.

Inductive machine_step : struct_cpu -> struct_cpu -> Prop :=
| step_instruction cpu cpu' :
    execute_instruction cpu = Some cpu' -> machine_step cpu cpu'
| step_uart_input cpu c u :
    uart_thread_func c (uart (bus cpu)) = Some u ->
    machine_step cpu (cpu_set_bus cpu (bus_set_uart (bus cpu) u))
| step_key cpu k :
    machine_step cpu
      (cpu_set_bus cpu (bus_set_host (bus cpu) (key_put k (host (bus cpu))))).

(** The states the machine reaches from [cpu_new]. *)
Inductive reachable (code disk_image : list Z) : struct_cpu -> Prop :=
| reachable_new : reachable code disk_image (cpu_new code disk_image)
| reachable_step cpu cpu' :
    reachable code disk_image cpu -> machine_step cpu cpu' ->
    reachable code disk_image cpu'.

(** What reaches the bus: loads and stores, and the characters of the input
    thread. *)
Inductive bus_op :=
| Load (addr size : Z)
| Store (addr size value : Z)
| Input (c : Z).

(** One operation; a character that finds the receiver full waits and
    leaves the bus as it is. *)
Definition bus_do (b : struct_bus) (op : bus_op) : struct_bus :=
  match op with
  | Load addr size => (bus_load b addr size).1
  | Store addr size value => (bus_store b addr size value).1
  | Input c =>
      match uart_thread_func c (uart b) with
      | Some u => bus_set_uart b u
      | None => b
      end
  end.

Definition bus_run (b : struct_bus) (ops : list bus_op) : struct_bus :=
  foldl bus_do b ops.

End Platform.

(** A keyboard port to run the model on: keyboard.h being absent, the
    page after the block device is taken for the examples. *)
Definition example_keyboard : keyboard_h :=
  {| KBD_BASE := 0x10002000; KBD_SIZE := 0x100; KBD_GET := 0x10002000 |}.

(** *** The priority order of the specification

    The interrupt check selects the first pending interrupt in the order
    MEIP, MSIP, MTIP, SEIP, SSIP, STIP. *)
Definition interrupt_priority : list (Z * interrupt_t) :=
  [ (MIP_MEIP, MACHINE_EXTERNAL_INTERRUPT);
    (MIP_MSIP, MACHINE_SOFTWARE_INTERRUPT);
    (MIP_MTIP, MACHINE_TIMER_INTERRUPT);
    (MIP_SEIP, SUPERVISOR_EXTERNAL_INTERRUPT);
    (MIP_SSIP, SUPERVISOR_SOFTWARE_INTERRUPT);
    (MIP_STIP, SUPERVISOR_TIMER_INTERRUPT) ].

Definition first_pending (pending_ : Z) : option (Z * interrupt_t) :=
  List.find (fun p => truthy (Z.land pending_ p.1)) interrupt_priority.

(** What the selection gives for the registers [mie] and [mip]: the first
    interrupt of the priority order whose bit is set in [mie & mip], with
    that bit cleared in [mip]; [NONE], with [mip] as it was, when there is
    none. *)
Definition selected (mie mip : Z) (cpu2 : struct_cpu) (intr : interrupt_t)
  : Prop :=
  match first_pending (Z.land mie mip) with
  | Some (bit, i) =>
      intr = i /\ cpu_load_csr cpu2 MIP = Z.land mip (uint64_t (Z.lnot bit))
  | None => intr = NONE /\ cpu_load_csr cpu2 MIP = mip
  end.

(** What the interrupt check does when no gate stops it, for the bus [b]
    and the registers [mie] and [mip] it finds, [r] being what it returns.
    An interrupting UART is claimed with IRQ 10; failing that, a notified
    block device is reset, runs its DMA and is claimed with IRQ 1; either
    sets [mip.SEIP] before the selection.  With neither, the bus is left
    alone and the selection is from [mip] as found. *)
Definition polled_and_selected {kbd : keyboard_h} (b : struct_bus)
  (mie mip : Z) (r : option (struct_cpu * interrupt_t)) : Prop :=
  let seip := uint64_t (Z.lor mip MIP_SEIP) in
  (interrupting (uart b) = true ->
   exists cpu2 intr,
     r = Some (cpu2, intr)
     /\ sclaim (plic (bus cpu2)) = UART_IRQ
     /\ interrupting (uart (bus cpu2)) = false
     /\ disk (bus cpu2) = disk b
     /\ selected mie seip cpu2 intr)
  /\ (interrupting (uart b) = false ->
      notify (disk b) <> uint32_t (-1) ->
      match bus_disk_access
              (bus_set_disk b (disk_set (disk b) DISK_NOTIFY (uint32_t (-1))))
      with
      | None => r = None
      | Some b' =>
          exists cpu2 intr,
            r = Some (cpu2, intr)
            /\ sclaim (plic (bus cpu2)) = DISK_IRQ
            /\ ram (bus cpu2) = ram b' /\ disk (bus cpu2) = disk b'
            /\ selected mie seip cpu2 intr
      end)
  /\ (interrupting (uart b) = false ->
      notify (disk b) = uint32_t (-1) ->
      exists cpu2 intr,
        r = Some (cpu2, intr) /\ bus cpu2 = b /\ selected mie mip cpu2 intr).

(** *** The transmitter bit of the UART *)

(** Bit 5 of the line status register. *)
Definition lsr_tx (b : struct_bus) : bool :=
  Z.testbit (cell (uart_data (uart b)) (UART_LSR - UART_BASE)) 5.

(** The stores that leave the bit set: all but the 8-bit stores at
    [UART_LSR] whose value has bit 5 clear. *)
Definition keeps_tx (op : bus_op) : bool :=
  match op with
  | Store addr size value =>
      negb (uint64_t addr =? UART_LSR) || negb (size =? 8) || Z.testbit value 5
  | _ => true
  end.

(** *** The gate of the interrupt check

    The interrupt check is gated off when the global interrupt-enable bit
    of the current mode is clear: [mstatus.MIE] in Machine mode,
    [sstatus.SIE] in Supervisor mode. *)
Definition interrupts_gated (cpu : struct_cpu) : bool :=
  match mode cpu with
  | MACHINE => negb (Z.testbit (cpu_load_csr cpu MSTATUS) 3)
  | SUPERVISOR => negb (Z.testbit (cpu_load_csr cpu SSTATUS) 1)
  | USER => false
  end.

(** *** The paging cache

    The cached fields of the hart agree with [satp]. *)
Definition paging_inv (cpu : struct_cpu) : Prop :=
  let satp := cell (csrs cpu) SATP in
  0 <= satp < 2 ^ 64
  /\ (enable_paging cpu = true <-> Z.shiftr satp 60 = 8)
  /\ pagetable cpu = Z.land satp (2 ^ 44 - 1) * 4096.

(** Neither the cached fields nor [satp] differ between two harts. *)
Definition same_paging (c c' : struct_cpu) : Prop :=
  enable_paging c' = enable_paging c
  /\ pagetable c' = pagetable c
  /\ cell (csrs c') SATP = cell (csrs c) SATP.

(** The fields of an instruction, as [cpu_execute] decodes them. *)
Definition insn_opcode (insn : Z) : Z := Z.land insn 0x7f.
Definition insn_rd (insn : Z) : Z := Z.land (Z.shiftr insn 7) 0x1f.
Definition insn_rs1 (insn : Z) : Z := Z.land (Z.shiftr insn 15) 0x1f.
Definition insn_rs2 (insn : Z) : Z := Z.land (Z.shiftr insn 20) 0x1f.
Definition insn_funct3 (insn : Z) : Z := Z.land (Z.shiftr insn 12) 0x7.
Definition insn_funct7 (insn : Z) : Z := Z.land (Z.shiftr insn 25) 0x7f.
Definition insn_csr (insn : Z) : Z :=
  uint16_t (Z.shiftr (Z.land insn 0xfff00000) 20).

(** The instruction is one of csrrw, csrrs, csrrc, csrrwi, csrrsi and
    csrrci, and its CSR index is [csr]. *)
Definition writes_csr (insn csr : Z) : bool :=
  (insn_opcode insn =? 0x73)
  && negb (insn_funct3 insn =? 0) && negb (insn_funct3 insn =? 4)
  && (insn_csr insn =? csr).


(** The hart with [x] in register 1 and [y] in register 2. *)
Definition with_operands (cpu : struct_cpu) (x y : Z) : struct_cpu :=
  set_reg (set_reg cpu 1 x) 2 y.

(** divw, divuw, remw and remuw with rd = x3, rs1 = x1, rs2 = x2. *)
Definition DIVW_x3_x1_x2 : Z := 0x0220C1BB.
Definition DIVUW_x3_x1_x2 : Z := 0x0220D1BB.
Definition REMW_x3_x1_x2 : Z := 0x0220E1BB.
Definition REMUW_x3_x1_x2 : Z := 0x0220F1BB.

(** *** Running the machine *)

(** [n] calls of [execute_instruction], as the loop of [main_loop] makes
    them. *)
Fixpoint run_instructions {kbd : keyboard_h} (n : nat) (cpu : struct_cpu)
  : option struct_cpu :=
  match n with
  | O => Some cpu
  | S n' =>
      match execute_instruction cpu with
      | Some cpu' => run_instructions n' cpu'
      | None => None
      end
  end.

(** The bytes of a list of instructions, little-endian. *)
Definition image (insns : list Z) : list Z :=
  concat (map (fun w => [Z.land w 0xff; Z.land (Z.shiftr w 8) 0xff;
                         Z.land (Z.shiftr w 16) 0xff;
                         Z.land (Z.shiftr w 24) 0xff]) insns).

(** [addi x1, x0, 1; slli x1, x1, 63; csrrw x0, satp, x1]: Sv39 with the
    root table at 0. *)
Definition enable_sv39 : list Z := [0x00100093; 0x03f09093; 0x18009073].

(** A hart in Machine mode with [mstatus.MIE] set, the interrupts 1, 3, 5,
    7, 9 and 11 enabled and the interrupts 5, 7 and 9 pending. *)
Definition example_pending_cpu : struct_cpu :=
  cpu_store_csr
    (cpu_store_csr (cpu_store_csr (cpu_new [] []) MSTATUS 8) MIE 0xaaa)
    MIP 0x2a0.

(** A hart in User mode at [RAM_BASE + 8] with [sstatus.SIE] set and the
    environment calls from User mode delegated, bit 8 of [medeleg]. *)
Definition example_delegating_cpu : struct_cpu :=
  cpu_set_pc
    (cpu_set_mode
       (cpu_store_csr (cpu_store_csr (cpu_new [] []) MEDELEG 0x100) SSTATUS 2)
       USER)
    (RAM_BASE + 8).

(** The instruction words of sret and mret. *)
Definition SRET : Z := 0x10200073.
Definition MRET : Z := 0x30200073.

(** div, divu, rem and remu with rd = x3, rs1 = x1, rs2 = x2. *)
Definition DIV_x3_x1_x2 : Z := 0x0220C1B3.
Definition DIVU_x3_x1_x2 : Z := 0x0220D1B3.
Definition REM_x3_x1_x2 : Z := 0x0220E1B3.
Definition REMU_x3_x1_x2 : Z := 0x0220F1B3.

(** *** main.c: one frame *)

Definition CPU_HZ : Z := 33000000.
Definition FPS : Z := 60.
Definition TPF : Z := 1.
Definition TPS : Z := FPS * TPF.

(** The [for] loop of [main_loop] from the index [i], [n] rounds.  The
    [while] loop runs [cycles_left] instructions, none when that is not
    positive. *)
Fixpoint main_loop_ticks {kbd : keyboard_h} (n : nat)
  (i dt cycles_per_tick extra_cycles : Z) (cpu : struct_cpu)
  : option struct_cpu :=
  match n with
  | O => Some cpu
  | S n' =>
      let cycles_left :=
        if i =? dt - 1 then cycles_per_tick + extra_cycles
        else cycles_per_tick in
      match run_instructions (Z.to_nat cycles_left) cpu with
      | Some cpu' =>
          main_loop_ticks n' (i + 1) dt cycles_per_tick extra_cycles cpu'
      | None => None
      end
  end.

(** [main_loop], as far as the hart goes: [elapsed] is the value that
    [SDL_GetTicks() - tick_start] gives to the [int dt].  The calls that
    draw the screen and poll its events come after the loop and do not
    reach the hart. *)
Definition main_loop {kbd : keyboard_h} (elapsed : Z) (cpu : struct_cpu)
  : option struct_cpu :=
  let dt := if elapsed =? 0 then 1 else elapsed in
  let cycles_per_tick := Z.quot (Z.quot CPU_HZ TPS) dt in
  let extra_cycles := Z.quot CPU_HZ TPS - cycles_per_tick * dt in
  main_loop_ticks (Z.to_nat dt) 0 dt cycles_per_tick extra_cycles cpu.

(** The immediates of a load and of a store, as [cpu_execute] decodes
    them. *)
Definition insn_imm_load (insn : Z) : Z :=
  uint64_t (Z.shiftr (int32_t insn) 20).
Definition insn_imm_store (insn : Z) : Z :=
  Z.lor (uint64_t (Z.shiftr (int32_t (Z.land insn 0xfe000000)) 20))
        (Z.land (Z.shiftr insn 7) 0x1f).

(** sd x2, 8(x1) and ld x3, 8(x1). *)
Definition SD_x2_8_x1 : Z := 0x0020B423.
Definition LD_x3_8_x1 : Z := 0x0080B183.

(** A hart in User mode with [mstatus] and [sstatus] zero, so that MIE and
    SIE are clear, the interrupts 1, 3, 5, 7, 9 and 11 enabled, none
    pending, and a character waiting in the UART. *)
Definition example_user_cpu : struct_cpu :=
  cpu_set_mode
    (cpu_set_bus (cpu_store_csr (cpu_new [] []) MIE 0xaaa)
       (bus_do (kbd := example_keyboard) (bus (cpu_new [] [])) (Input 0x41)))
    USER.

(* ================================================================== *)
(** * Properties *)

(** ** Arrays and integers *)

Lemma cell_insert_eq (a : gmap Z Z) i v : cell (<[i := v]> a) i = v.
Proof. unfold cell. by rewrite lookup_insert_eq. Qed.

Lemma cell_insert_ne (a : gmap Z Z) i j v :
  i <> j -> cell (<[i := v]> a) j = cell a j.
Proof. intros. unfold cell. by rewrite lookup_insert_ne. Qed.

Lemma cell_empty i : cell ∅ i = 0.
Proof. reflexivity. Qed.

Lemma uint64_t_small z : 0 <= z < 2 ^ 64 -> uint64_t z = z.
Proof. intros. unfold uint64_t. by rewrite Z.mod_small. Qed.

Lemma uint64_t_range z : 0 <= uint64_t z < 2 ^ 64.
Proof. unfold uint64_t. apply Z.mod_pos_bound. lia. Qed.

Lemma uint32_t_range z : 0 <= uint32_t z < 2 ^ 32.
Proof. unfold uint32_t. apply Z.mod_pos_bound. lia. Qed.

Lemma testbit_byte_field v sh i :
  0 <= sh -> sh + 8 <= 64 -> 0 <= i ->
  Z.testbit (uint64_t (Z.shiftl (Z.land (Z.shiftr v sh) 0xff) sh)) i
  = (sh <=? i) && (i <? sh + 8) && Z.testbit v i.
Proof.
  intros Hsh Hhi Hi. unfold uint64_t.
  rewrite Z.testbit_mod_pow2 by lia.
  destruct (Z.leb_spec sh i) as [Hle|Hlt].
  - rewrite Z.shiftl_spec by lia. rewrite Z.land_spec, Z.shiftr_spec by lia.
    change 255 with (Z.ones 8). rewrite Z.testbit_ones_nonneg by lia.
    replace (i - sh + sh) with i by lia.
    destruct (Z.ltb_spec i 64), (Z.ltb_spec (i - sh) 8), (Z.ltb_spec i (sh + 8));
      try lia; simpl; rewrite ?andb_true_r, ?andb_false_r; reflexivity.
  - rewrite Z.shiftl_spec_low by lia. by rewrite andb_false_r.
Qed.

(** Comparisons of a bit index with constants, one region at a time. *)
Ltac decide_bounds :=
  repeat match goal with
         | |- context [?a <=? ?b] => destruct (Z.leb_spec a b); try lia
         | |- context [?a <? ?b] => destruct (Z.ltb_spec a b); try lia
         end.

(** The bytes of a value, put back in little-endian order. *)
Ltac le_bytes :=
  apply Z.bits_inj'; intros ?i ?Hi;
  rewrite ?Z.lor_spec, ?testbit_byte_field, ?Z.testbit_0_l, ?Z.testbit_mod_pow2
    by lia;
  match goal with
  | |- context [Z.testbit ?v ?i] =>
      destruct (Z.testbit v i);
      rewrite ?andb_true_r, ?andb_false_r, ?orb_false_r;
      [ decide_bounds; reflexivity | reflexivity ]
  end.

Ltac ram_cells :=
  repeat (rewrite cell_insert_eq || rewrite cell_insert_ne by lia).

(** ** RAM: what a store leaves is what a load finds *)

Section Ram.

Variables (ram : struct_ram) (a v : Z).
Hypothesis Hbase : RAM_BASE <= a.

Ltac ram_roundtrip :=
  unfold ram_load, ram_store; simpl;
  rewrite (uint64_t_small (a - RAM_BASE)) by (unfold RAM_SIZE in *; lia);
  rewrite !(uint64_t_small (a - RAM_BASE + _)) by (unfold RAM_SIZE in *; lia);
  ram_cells; f_equal; le_bytes.

Lemma ram_store_load_8 :
  a - RAM_BASE + 1 <= RAM_SIZE ->
  ram_load (ram_store ram a 8 v).1 a 8 = Ok (v mod 2 ^ 8).
Proof. intros. ram_roundtrip. Qed.

Lemma ram_store_load_16 :
  a - RAM_BASE + 2 <= RAM_SIZE ->
  ram_load (ram_store ram a 16 v).1 a 16 = Ok (v mod 2 ^ 16).
Proof. intros. ram_roundtrip. Qed.

Lemma ram_store_load_32 :
  a - RAM_BASE + 4 <= RAM_SIZE ->
  ram_load (ram_store ram a 32 v).1 a 32 = Ok (v mod 2 ^ 32).
Proof. intros. ram_roundtrip. Qed.

Lemma ram_store_load_64 :
  a - RAM_BASE + 8 <= RAM_SIZE ->
  ram_load (ram_store ram a 64 v).1 a 64 = Ok (v mod 2 ^ 64).
Proof. intros. ram_roundtrip. Qed.

End Ram.

Lemma ram_bad_size ram a s v :
  s <> 8 -> s <> 16 -> s <> 32 -> s <> 64 ->
  ram_load ram a s = Failed LOAD_ACCESS_FAULT
  /\ ram_store ram a s v = (ram, STORE_AMO_ACCESS_FAULT).
Proof.
  intros. unfold ram_load, ram_store.
  by rewrite !(proj2 (Z.eqb_neq s _)) by done.
Qed.

(** C8.  A store to RAM followed by a load of the same size at the same
    address, both within the 8 MiB of RAM, succeeds and yields the stored
    value cut to that size, for the sizes 8, 16, 32 and 64; the bytes lie in
    little-endian order, so that 0x0102030405060708 stored as 64 bits at
    [RAM_BASE] leaves 0x08 .. 0x01 at the offsets 0 .. 7; with any other size
    the load fails with [LOAD_ACCESS_FAULT], the store fails with
    [STORE_AMO_ACCESS_FAULT], and the store leaves the memory as it was. *)
Theorem ram_store_load_roundtrip (ram : struct_ram) (a s v : Z) :
  RAM_BASE <= a ->
  a - RAM_BASE + s / 8 <= RAM_SIZE ->
  (s = 8 \/ s = 16 \/ s = 32 \/ s = 64 ->
     (ram_store ram a s v).2 = OK
     /\ ram_load (ram_store ram a s v).1 a s = Ok (v mod 2 ^ s))
  /\ map (cell (ram_data (ram_store ram RAM_BASE 64 0x0102030405060708).1))
         [0; 1; 2; 3; 4; 5; 6; 7]
     = [0x08; 0x07; 0x06; 0x05; 0x04; 0x03; 0x02; 0x01]
  /\ (s <> 8 -> s <> 16 -> s <> 32 -> s <> 64 ->
      ram_load ram a s = Failed LOAD_ACCESS_FAULT
      /\ ram_store ram a s v = (ram, STORE_AMO_ACCESS_FAULT)).
Proof.
  intros Hbase Hbound. split; [|split].
  - intros [-> | [-> | [-> | ->]]]; (split; [reflexivity|]).
    + by apply ram_store_load_8.
    + by apply ram_store_load_16.
    + by apply ram_store_load_32.
    + by apply ram_store_load_64.
  - unfold ram_store. simpl.
    repeat match goal with
           | |- context [uint64_t ?x] =>
               let y := eval vm_compute in (uint64_t x) in
               change (uint64_t x) with y
           end.
    ram_cells. reflexivity.
  - intros. by apply ram_bad_size.
Qed.

Lemma ram_store_load_roundtrip_witness :
  (ram_store (ram_new [0x13]) (RAM_BASE + 4) 32 0x1122334455).2 = OK
  /\ ram_load (ram_store (ram_new [0x13]) (RAM_BASE + 4) 32 0x1122334455).1
              (RAM_BASE + 4) 32
     = Ok (0x1122334455 mod 2 ^ 32).
Proof.
  apply (ram_store_load_roundtrip (ram_new [0x13]) (RAM_BASE + 4) 32 0x1122334455).
  - unfold RAM_BASE. lia.
  - unfold RAM_BASE, RAM_SIZE. vm_compute. discriminate.
  - right. right. left. reflexivity.
Defined.

(** ** The range check of the bus *)

Lemma int32_t_nonneg z : 0 <= int32_t z <-> z mod 2 ^ 32 < 2 ^ 31.
Proof.
  unfold int32_t, signed. cbv zeta. change (32 - 1) with 31.
  pose proof (Z.mod_pos_bound z (2 ^ 32) ltac:(lia)).
  destruct (Z.ltb_spec (z mod 2 ^ 32) (2 ^ 31)); lia.
Qed.

Lemma lor_lt_pow2 a b n :
  0 <= a -> 0 <= b -> 0 <= n ->
  Z.lor a b < 2 ^ n <-> a < 2 ^ n /\ b < 2 ^ n.
Proof.
  intros Ha Hb Hn.
  assert (Hlow : forall c, 0 <= c -> (c < 2 ^ n <-> c = 0 \/ (0 < c /\ Z.log2 c < n))).
  { intros c Hc. destruct (Z.eq_dec c 0) as [->|Hne].
    - split; [auto|]. intros _. apply Z.pow_pos_nonneg; lia.
    - rewrite (Z.log2_lt_pow2 c n) by lia. lia. }
  pose proof (Z.lor_nonneg a b) as Hnn.
  assert (Hl : 0 <= Z.lor a b) by (apply Hnn; lia).
  rewrite (Hlow _ Hl), (Hlow _ Ha), (Hlow _ Hb).
  rewrite Z.log2_lor by lia.
  assert (Z.lor a b = 0 <-> a = 0 /\ b = 0) by apply Z.lor_eq_0_iff.
  pose proof (Z.log2_nonneg a). pose proof (Z.log2_nonneg b).
  destruct (Z.eq_dec a 0) as [->|?], (Z.eq_dec b 0) as [->|?];
    rewrite ?Z.lor_0_l, ?Z.lor_0_r in *; simpl Z.log2 in *; try lia.
Qed.

Lemma lor_mod_pow2 a b n :
  0 <= n -> Z.lor a b mod 2 ^ n = Z.lor (a mod 2 ^ n) (b mod 2 ^ n).
Proof.
  intros. rewrite <- !Z.land_ones by lia. apply Z.land_lor_distr_l.
Qed.

Lemma uint64_t_mod32 z : uint64_t z mod 2 ^ 32 = z mod 2 ^ 32.
Proof.
  unfold uint64_t. apply Z.mod_mod_divide. exists (2 ^ 32). reflexivity.
Qed.

(** What [RANGE_CHECK] decides: whether the low 32 bits of [x] lie in the
    range, for a range that ends below 2^31. *)
Lemma RANGE_CHECK_spec x minx size :
  0 <= minx -> 0 < size -> minx + size <= 2 ^ 31 ->
  RANGE_CHECK x minx size = true
  <-> minx <= x mod 2 ^ 32 < minx + size.
Proof.
  intros Hmin Hsize Hmax. unfold RANGE_CHECK.
  rewrite Z.leb_le, int32_t_nonneg, lor_mod_pow2, !uint64_t_mod32 by lia.
  pose proof (Z.mod_pos_bound (x - minx) (2 ^ 32) ltac:(lia)).
  pose proof (Z.mod_pos_bound (minx + size - 1 - x) (2 ^ 32) ltac:(lia)).
  rewrite lor_lt_pow2 by lia.
  pose proof (Z.mod_pos_bound x (2 ^ 32) ltac:(lia)) as Hx.
  rewrite <- (Zminus_mod_idemp_l x minx), <- (Zminus_mod_idemp_r _ x).
  set (x' := x mod 2 ^ 32) in *. clearbody x'.
  destruct (Z.lt_ge_cases x' minx) as [Hlt|Hge].
  - replace ((x' - minx) mod 2 ^ 32) with (x' - minx + 2 ^ 32)
      by (apply Z.mod_unique with (-1); lia).
    lia.
  - rewrite (Z.mod_small (x' - minx)) by lia.
    destruct (Z.lt_ge_cases x' (minx + size)) as [Hin|Hout].
    + rewrite (Z.mod_small (minx + size - 1 - x')) by lia. lia.
    + replace ((minx + size - 1 - x') mod 2 ^ 32)
        with (minx + size - 1 - x' + 2 ^ 32)
        by (apply Z.mod_unique with (-1); lia).
      lia.
Qed.

Lemma RANGE_CHECK_below_4GiB x minx size :
  0 <= x < 2 ^ 32 -> 0 <= minx -> 0 < size -> minx + size <= 2 ^ 31 ->
  RANGE_CHECK x minx size = (minx <=? x) && (x <? minx + size).
Proof.
  intros Hx Hmin Hsize Hmax.
  pose proof (RANGE_CHECK_spec x minx size Hmin Hsize Hmax) as H.
  rewrite (Z.mod_small x) in H by lia.
  destruct (RANGE_CHECK x minx size), (Z.leb_spec minx x), (Z.ltb_spec x (minx + size));
    simpl; try reflexivity; try lia;
    try (destruct H as [H _]; specialize (H eq_refl); lia);
    try (destruct H as [_ H]; discriminate H; lia).
Qed.

Section BusDispatch.
Context {kbd : keyboard_h}.

(** C3.  The dispatch of the bus takes the range of a device modulo 2^32:
    the address 0x102000000 lies above [RAM_BASE] and in the range of no
    device, yet its 64-bit load is answered by the CLINT with zero, whatever
    the RAM holds, and its 64-bit store is accepted by the CLINT and changes
    nothing, the RAM included. *)
Theorem bus_dispatch_wraps_at_4GiB (b : struct_bus) (v : Z) :
  RAM_BASE <= 0x102000000
  /\ ~ (CLINT_BASE <= 0x102000000 < CLINT_BASE + CLINT_SIZE)
  /\ ~ (PLIC_BASE <= 0x102000000 < PLIC_BASE + PLIC_SIZE)
  /\ ~ (UART_BASE <= 0x102000000 < UART_BASE + UART_SIZE)
  /\ ~ (DISK_BASE <= 0x102000000 < DISK_BASE + DISK_SIZE)
  /\ RANGE_CHECK 0x102000000 CLINT_BASE CLINT_SIZE = true
  /\ bus_load b 0x102000000 64 = (b, Ok 0)
  /\ bus_store b 0x102000000 64 v = (b, OK).
Proof.
  split; [by vm_compute|].
  do 4 (split; [vm_compute; intuition discriminate|]).
  split; [reflexivity|]. unfold bus_load, bus_store.
  change (RANGE_CHECK 4328521728 CLINT_BASE CLINT_SIZE) with true.
  cbv iota. split; [reflexivity|]. by destruct b.
Qed.

(** C7.  A 32-bit load at [KBD_GET] takes the oldest key off the queue and
    returns zero, whatever the key was: the key code is overwritten by the
    zero of the [default] branch. *)
Theorem kbd_load_drops_key (h : host_io) :
  kbd_load h KBD_GET 32 = ((key_take h).2, Ok 0)
  /\ (forall k ks out,
        h = {| stdout := out; keys := k :: ks |} ->
        kbd_load h KBD_GET 32 = ({| stdout := out; keys := ks |}, Ok 0)).
Proof.
  assert (Hload : kbd_load h KBD_GET 32 = ((key_take h).2, Ok 0)).
  { unfold kbd_load. simpl. rewrite Z.eqb_refl. by destruct (key_take h). }
  split; [exact Hload|]. intros k ks out ->. exact Hload.
Qed.

End BusDispatch.

(** ** The line status register of the UART *)

Lemma testbit5_uint8_land v m :
  Z.testbit m 5 = true -> Z.testbit (uint8_t (Z.land v m)) 5 = Z.testbit v 5.
Proof.
  intros Hm. unfold uint8_t. rewrite Z.testbit_mod_pow2 by lia.
  rewrite Z.land_spec, Hm. simpl. by rewrite andb_true_r.
Qed.

Lemma testbit5_uint8_lor v m :
  Z.testbit v 5 = true -> Z.testbit (uint8_t (Z.lor v m)) 5 = true.
Proof.
  intros Hv. unfold uint8_t. rewrite Z.testbit_mod_pow2 by lia.
  by rewrite Z.lor_spec, Hv.
Qed.

Lemma uart_key_lsr addr :
  uint64_t (addr - UART_BASE) = UART_LSR - UART_BASE -> uint64_t addr = UART_LSR.
Proof.
  unfold uint64_t, UART_LSR, UART_BASE. intros H.
  replace addr with ((addr - 268435456) + 268435456) at 1 by lia.
  rewrite <- Zplus_mod_idemp_l, H. reflexivity.
Qed.

Section UartLsr.
Context {kbd : keyboard_h}.

Lemma uart_load_keeps_tx u addr size :
  Z.testbit (cell (uart_data u) (UART_LSR - UART_BASE)) 5 = true ->
  Z.testbit (cell (uart_data (uart_load u addr size).1) (UART_LSR - UART_BASE)) 5
  = true.
Proof.
  intros H. unfold uart_load.
  destruct (negb (size =? 8)); [exact H|].
  destruct (addr =? UART_RHR); [|exact H].
  unfold uart_set_data. cbn [fst uart_data].
  rewrite cell_insert_eq, testbit5_uint8_land; [exact H|reflexivity].
Qed.

Lemma bus_load_keeps_tx b addr size :
  lsr_tx b = true -> lsr_tx (bus_load b addr size).1 = true.
Proof.
  intros H. unfold bus_load.
  repeat match goal with
         | |- context [if ?c then _ else _] => destruct c
         end; try exact H.
  - pose proof (uart_load_keeps_tx (uart b) addr size H) as Hu.
    destruct (uart_load (uart b) addr size). exact Hu.
  - destruct (kbd_load (host b) addr size). exact H.
Qed.

Lemma bus_store_keeps_tx b addr size value :
  keeps_tx (Store addr size value) = true ->
  lsr_tx b = true -> lsr_tx (bus_store b addr size value).1 = true.
Proof.
  intros Hop H. unfold bus_store.
  destruct (RANGE_CHECK addr CLINT_BASE CLINT_SIZE).
  { by destruct (clint_store (clint b) addr size value). }
  destruct (RANGE_CHECK addr PLIC_BASE PLIC_SIZE).
  { by destruct (plic_store (plic b) addr size value). }
  destruct (RANGE_CHECK addr UART_BASE UART_SIZE).
  { unfold uart_store, lsr_tx, keeps_tx in *.
    destruct (size =? 8) eqn:Hsize; cbn [negb orb] in *; [|exact H].
    destruct (addr =? UART_THR);
      cbn [fst snd uart bus_set_host bus_set_uart uart_data uart_set_data];
      [exact H|].
    destruct (Z.eq_dec (uint64_t (addr - UART_BASE)) (UART_LSR - UART_BASE))
      as [Heq|Hne].
    - rewrite Heq, cell_insert_eq.
      apply uart_key_lsr in Heq. rewrite Heq, Z.eqb_refl in Hop.
      cbn [negb orb] in Hop.
      change 255 with (Z.ones 8). rewrite Z.land_spec, Hop. reflexivity.
    - by rewrite cell_insert_ne. }
  destruct (RANGE_CHECK addr DISK_BASE DISK_SIZE).
  { by destruct (disk_store (disk b) addr size value). }
  destruct (RAM_BASE <=? addr); [|exact H].
  by destruct (ram_store (ram b) addr size value).
Qed.

Lemma bus_do_keeps_tx b op :
  keeps_tx op = true -> lsr_tx b = true -> lsr_tx (bus_do b op) = true.
Proof.
  intros Hop H. destruct op as [addr size|addr size value|c]; simpl.
  - by apply bus_load_keeps_tx.
  - by apply bus_store_keeps_tx.
  - unfold uart_thread_func.
    destruct (_ =? 1); [exact H|]. unfold lsr_tx in *.
    cbn [uart bus_set_uart uart_data].
    rewrite cell_insert_eq. apply testbit5_uint8_lor.
    by rewrite cell_insert_ne.
Qed.

Lemma bus_run_keeps_tx ops : forall b,
  forallb keeps_tx ops = true -> lsr_tx b = true -> lsr_tx (bus_run b ops) = true.
Proof.
  induction ops as [|op ops IH]; intros b Hops H; [exact H|].
  simpl in Hops. apply andb_true_iff in Hops as [Hop Hops].
  unfold bus_run. simpl. apply IH; [exact Hops|]. by apply bus_do_keeps_tx.
Qed.

Lemma bus_load_lsr b :
  bus_load b UART_LSR 8
  = (b, Ok (cell (uart_data (uart b)) (UART_LSR - UART_BASE))).
Proof.
  unfold bus_load.
  change (RANGE_CHECK UART_LSR CLINT_BASE CLINT_SIZE) with false.
  change (RANGE_CHECK UART_LSR PLIC_BASE PLIC_SIZE) with false.
  change (RANGE_CHECK UART_LSR UART_BASE UART_SIZE) with true.
  cbv iota. unfold uart_load. simpl. by destruct b.
Qed.

(** C9, as the code has it.  Bit 5 of the line status register is set when
    the UART is created, and an 8-bit load of [UART_BASE + 5] returns a
    value with bit 5 set after every sequence of bus loads, characters of
    the input thread and bus stores, provided no 8-bit store at
    [UART_BASE + 5] carries a value with bit 5 clear: such a store replaces
    the register by its value. *)
Theorem uart_lsr_tx_kept (r : struct_ram) (vio : struct_disk) (ops : list bus_op) :
  forallb keeps_tx ops = true ->
  lsr_tx (bus_new r vio) = true
  /\ exists v,
       (bus_load (bus_run (bus_new r vio) ops) (UART_BASE + 5) 8).2 = Ok v
       /\ Z.testbit v 5 = true.
Proof.
  intros Hops. split; [reflexivity|].
  change (UART_BASE + 5) with UART_LSR. rewrite bus_load_lsr. simpl.
  eexists. split; [reflexivity|].
  by apply (bus_run_keeps_tx ops (bus_new r vio) Hops).
Qed.

End UartLsr.

Lemma uart_lsr_tx_kept_witness :
  exists v,
    (bus_load (kbd := example_keyboard)
       (bus_run (kbd := example_keyboard) (bus_new (ram_new []) (disk_new ∅))
          [Store UART_LSR 8 0x60; Input 0x41; Load UART_RHR 8;
           Store UART_LCR 8 0; Store UART_LSR 32 0])
       (UART_BASE + 5) 8).2 = Ok v
    /\ Z.testbit v 5 = true.
Proof.
  apply (uart_lsr_tx_kept (kbd := example_keyboard)). reflexivity.
Defined.

(** C9 as stated fails: an 8-bit store of zero at [UART_BASE + 5] clears
    the register, and the load that follows returns zero. *)
Lemma uart_lsr_tx_cleared :
  (bus_load (kbd := example_keyboard)
     (bus_run (kbd := example_keyboard) (bus_new (ram_new []) (disk_new ∅))
        [Store (UART_BASE + 5) 8 0])
     (UART_BASE + 5) 8).2 = Ok 0
  /\ Z.testbit 0 5 = false.
Proof. split; reflexivity. Qed.

(** ** The CSR file *)

Lemma cpu_set_bus_same cpu : cpu_set_bus cpu (bus cpu) = cpu.
Proof. by destruct cpu. Qed.

Lemma uint64_t_land_mask x m :
  uint64_t (Z.land x (uint64_t m)) = Z.land x (uint64_t m).
Proof.
  apply Z.bits_inj'. intros i Hi. unfold uint64_t.
  rewrite Z.testbit_mod_pow2, !Z.land_spec, Z.testbit_mod_pow2 by lia.
  destruct (i <? 64), (Z.testbit x i), (Z.testbit m i); reflexivity.
Qed.

Lemma bit_of_testbit x n :
  0 <= n -> Z.land (Z.shiftr x n) 1 = Z.b2z (Z.testbit x n).
Proof.
  intros. change 1 with (Z.ones 1). rewrite Z.land_ones by lia.
  rewrite Z.shiftr_div_pow2 by lia. change (2 ^ 1) with 2.
  symmetry. by apply Z.testbit_spec'.
Qed.

Lemma bit_of_eq_0 x n :
  0 <= n -> (Z.land (Z.shiftr x n) 1 =? 0) = negb (Z.testbit x n).
Proof. intros. rewrite bit_of_testbit by done. by destruct (Z.testbit x n). Qed.

Lemma truthy_bit_of x n :
  0 <= n -> truthy (Z.land (Z.shiftr x n) 1) = Z.testbit x n.
Proof. intros. unfold truthy. rewrite bit_of_eq_0 by done. apply negb_involutive. Qed.

Section Csr.
Context {kbd : keyboard_h}.

Lemma load_store_csr_eq cpu addr v :
  addr <> SIE -> cpu_load_csr (cpu_store_csr cpu addr v) addr = uint64_t v.
Proof.
  intros H. unfold cpu_load_csr, cpu_store_csr.
  rewrite (proj2 (Z.eqb_neq _ _) H). simpl. apply cell_insert_eq.
Qed.

Lemma load_store_csr_ne cpu addr addr' v :
  addr <> SIE -> addr' <> SIE -> addr <> addr' ->
  cpu_load_csr (cpu_store_csr cpu addr v) addr' = cpu_load_csr cpu addr'.
Proof.
  intros H H' Hne. unfold cpu_load_csr, cpu_store_csr.
  rewrite (proj2 (Z.eqb_neq _ _) H), (proj2 (Z.eqb_neq _ _) H'). simpl.
  by apply cell_insert_ne.
Qed.

Lemma load_csr_clear cpu addr m :
  addr <> SIE ->
  cpu_load_csr (csr_clear addr m cpu) addr
  = uint64_t (Z.land (cpu_load_csr cpu addr) (uint64_t (Z.lnot m))).
Proof. intros. unfold csr_clear. by apply load_store_csr_eq. Qed.

Lemma load_csr_set cpu addr m :
  addr <> SIE ->
  cpu_load_csr (csr_set addr m cpu) addr
  = uint64_t (Z.lor (cpu_load_csr cpu addr) m).
Proof. intros. unfold csr_set. by apply load_store_csr_eq. Qed.

Lemma mode_store_csr cpu addr v : mode (cpu_store_csr cpu addr v) = mode cpu.
Proof. unfold cpu_store_csr. by destruct (addr =? SIE). Qed.

Lemma pc_store_csr cpu addr v : pc (cpu_store_csr cpu addr v) = pc cpu.
Proof. unfold cpu_store_csr. by destruct (addr =? SIE). Qed.

Lemma regs_store_csr cpu addr v : regs (cpu_store_csr cpu addr v) = regs cpu.
Proof. unfold cpu_store_csr. by destruct (addr =? SIE). Qed.

Lemma bus_store_csr cpu addr v : bus (cpu_store_csr cpu addr v) = bus cpu.
Proof. unfold cpu_store_csr. by destruct (addr =? SIE). Qed.

End Csr.

(** ** Trap entry *)

Lemma cleared_field_is_0 x :
  Z.land (Z.shiftr (uint64_t (Z.land x (uint64_t (Z.lnot (Z.shiftl 3 11))))) 11) 3
  = 0.
Proof.
  apply Z.bits_inj'. intros i Hi. rewrite Z.testbit_0_l, Z.land_spec.
  change 3 with (Z.ones 2). rewrite Z.testbit_ones_nonneg by lia.
  destruct (Z.ltb_spec i 2); [|apply andb_false_r].
  rewrite andb_true_r, Z.shiftr_spec by lia. unfold uint64_t at 1.
  rewrite Z.testbit_mod_pow2, Z.land_spec by lia.
  assert (i = 0 \/ i = 1) as [-> | ->] by lia;
    rewrite (andb_comm (Z.testbit x _)); reflexivity.
Qed.

Lemma set_bit8_is_1 x :
  Z.testbit (uint64_t (Z.lor x (Z.shiftl 1 8))) 8 = true.
Proof.
  unfold uint64_t. rewrite Z.testbit_mod_pow2, Z.lor_spec by lia.
  rewrite orb_comm. reflexivity.
Qed.

Lemma cleared_bit8_is_0 x :
  Z.testbit (uint64_t (Z.land x (uint64_t (Z.lnot (Z.shiftl 1 8))))) 8 = false.
Proof.
  unfold uint64_t at 1. rewrite Z.testbit_mod_pow2, Z.land_spec by lia.
  rewrite (andb_comm (Z.testbit x _)). reflexivity.
Qed.

Section Trap.
Context {kbd : keyboard_h}.

Lemma SSTATUS_not_SIE : SSTATUS <> SIE. Proof. done. Qed.
Lemma MSTATUS_not_SIE : MSTATUS <> SIE. Proof. done. Qed.
Lemma MIP_not_SIE : MIP <> SIE. Proof. done. Qed.

(** C2.  A trap that is not delegated enters Machine mode and leaves the
    field MPP of [mstatus] zero, whatever the mode the hart was in; a trap
    from Machine mode is never delegated, so that an [ecall] from Machine
    mode leaves MPP = 0 and not 3.  A delegated trap enters Supervisor mode
    and leaves in SPP 0 when the hart was in User mode and 1 otherwise. *)
Theorem take_trap_previous_privilege (cpu : struct_cpu) (e : exception_t)
  (intr : interrupt_t) :
  (if trap_delegated cpu e intr then
     mode (cpu_take_trap cpu e intr) = SUPERVISOR
     /\ Z.land (Z.shiftr (cpu_load_csr (cpu_take_trap cpu e intr) SSTATUS) 8) 1
        = (if is_USER (mode cpu) then 0 else 1)
   else
     mode (cpu_take_trap cpu e intr) = MACHINE
     /\ Z.land (Z.shiftr (cpu_load_csr (cpu_take_trap cpu e intr) MSTATUS) 11) 3
        = 0)
  /\ trap_delegated (cpu_set_mode cpu MACHINE) e intr = false
  /\ Z.land (Z.shiftr (cpu_load_csr
               (cpu_take_trap (cpu_set_mode cpu MACHINE) ECALL_FROM_MMODE NONE)
               MSTATUS) 11) 3 = 0.
Proof.
  assert (Hm : forall c e' i', trap_delegated c e' i' = false ->
            mode (cpu_take_trap c e' i') = MACHINE
            /\ Z.land (Z.shiftr (cpu_load_csr (cpu_take_trap c e' i') MSTATUS) 11) 3
               = 0).
  { intros c e' i' Hd. unfold cpu_take_trap. rewrite Hd. split.
    - unfold csr_clear. rewrite !mode_store_csr.
      destruct (truthy _); unfold csr_set, csr_clear;
        rewrite !mode_store_csr; unfold trap_vector;
        destruct (negb (is_NONE i')); reflexivity.
    - rewrite load_csr_clear by done. apply cleared_field_is_0. }
  split; [|split].
  - destruct (trap_delegated cpu e intr) eqn:Hd; [|by apply Hm].
    unfold cpu_take_trap. rewrite Hd. split.
    + destruct (is_USER (mode cpu)); unfold csr_set, csr_clear;
        rewrite !mode_store_csr;
        destruct (truthy _); unfold csr_set, csr_clear;
        rewrite !mode_store_csr; unfold trap_vector;
        destruct (negb (is_NONE intr)); reflexivity.
    + rewrite bit_of_testbit by lia.
      destruct (is_USER (mode cpu)).
      * rewrite load_csr_clear by done. by rewrite cleared_bit8_is_0.
      * rewrite load_csr_set by done. by rewrite set_bit8_is_1.
  - reflexivity.
  - apply Hm. reflexivity.
Qed.

End Trap.

(** ** The interrupt check *)

Section Interrupts.
Context {kbd : keyboard_h}.

Lemma check_pending_gate cpu :
  cpu_check_pending_interrupt cpu
  = if interrupts_gated cpu then Some (cpu, NONE)
    else option_map select_pending (poll_devices cpu).
Proof.
  unfold cpu_check_pending_interrupt, interrupts_gated.
  rewrite !bit_of_eq_0 by lia.
  destruct (mode cpu); cbn [is_MACHINE is_SUPERVISOR andb];
    try destruct (negb _); try reflexivity;
    by destruct (poll_devices cpu).
Qed.

Lemma select_pending_first cpu :
  select_pending cpu
  = match first_pending (Z.land (cpu_load_csr cpu MIE) (cpu_load_csr cpu MIP)) with
    | Some (bit, intr) =>
        (cpu_store_csr cpu MIP
           (Z.land (cpu_load_csr cpu MIP) (uint64_t (Z.lnot bit))), intr)
    | None => (cpu, NONE)
    end.
Proof.
  unfold select_pending, first_pending, interrupt_priority. cbn [List.find fst].
  repeat (destruct (truthy _); [reflexivity|]). reflexivity.
Qed.

Lemma first_pending_Some p bit intr :
  first_pending p = Some (bit, intr) ->
  truthy (Z.land p bit) = true
  /\ exists k, 0 <= k < 64 /\ bit = Z.shiftl 1 k
               /\ interrupt_code intr = k
               /\ In (bit, intr) interrupt_priority.
Proof.
  unfold first_pending. intros H.
  pose proof (List.find_some _ _ H) as [Hin Ht]. split; [exact Ht|].
  unfold interrupt_priority in Hin. cbn [In] in Hin.
  destruct Hin as [Hp|[Hp|[Hp|[Hp|[Hp|[Hp|[]]]]]]]; inversion Hp; subst;
    [exists 11|exists 3|exists 7|exists 9|exists 1|exists 5];
    (split; [lia|]); (split; [reflexivity|]); (split; [reflexivity|]);
    cbn [In interrupt_priority]; tauto.
Qed.

Lemma cleared_bit_spec m k n :
  0 <= k < 64 -> 0 <= n < 64 ->
  Z.testbit (uint64_t (Z.land m (uint64_t (Z.lnot (Z.shiftl 1 k))))) n
  = Z.testbit m n && negb (n =? k).
Proof.
  intros Hk Hn. unfold uint64_t.
  rewrite !Z.testbit_mod_pow2, Z.land_spec, Z.testbit_mod_pow2 by lia.
  rewrite Z.lnot_spec, Z.shiftl_1_l, Z.pow2_bits_eqb by lia.
  rewrite (Z.eqb_sym k n).
  destruct (Z.ltb_spec n 64); [|lia]. reflexivity.
Qed.

(** C4.  When the interrupt check is not gated off and the polling of the
    devices leaves the hart in [cpu1], the check returns the first interrupt
    of the order MEIP, MSIP, MTIP, SEIP, SSIP, STIP whose bit is set in
    [mie & mip], and stores [mip] with that bit, and no other, cleared; when
    none of the six bits is set in [mie & mip] it returns [NONE] and leaves
    the hart, [mip] included, as the polling left it. *)
Theorem check_pending_priority (cpu cpu1 : struct_cpu) :
  interrupts_gated cpu = false ->
  poll_devices cpu = Some cpu1 ->
  let mie := cpu_load_csr cpu1 MIE in
  let mip := cpu_load_csr cpu1 MIP in
  match first_pending (Z.land mie mip) with
  | Some (bit, intr) =>
      exists cpu2,
        cpu_check_pending_interrupt cpu = Some (cpu2, intr)
        /\ cpu2 = cpu_store_csr cpu1 MIP (Z.land mip (uint64_t (Z.lnot bit)))
        /\ bit = Z.shiftl 1 (interrupt_code intr)
        /\ (forall n, 0 <= n < 64 ->
              Z.testbit (cpu_load_csr cpu2 MIP) n
              = Z.testbit mip n && negb (n =? interrupt_code intr))
  | None => cpu_check_pending_interrupt cpu = Some (cpu1, NONE)
  end.
Proof.
  intros Hgate Hpoll mie mip.
  rewrite check_pending_gate, Hgate, Hpoll. cbn [option_map].
  rewrite select_pending_first. fold mie mip.
  destruct (first_pending (Z.land mie mip)) as [[bit intr]|] eqn:Hf;
    [|reflexivity].
  apply first_pending_Some in Hf as [_ (k & Hk & -> & Hcode & _)].
  eexists. split; [reflexivity|]. split; [reflexivity|].
  rewrite Hcode. split; [reflexivity|]. intros n Hn.
  rewrite load_store_csr_eq by done. by apply cleared_bit_spec.
Qed.

Lemma publish_irq_facts irq c :
  cpu_load_csr (publish_irq irq c) MIE = cpu_load_csr c MIE
  /\ cpu_load_csr (publish_irq irq c) MIP
     = uint64_t (Z.lor (cpu_load_csr c MIP) MIP_SEIP)
  /\ bus (publish_irq irq c) = (bus_store (bus c) PLIC_SCLAIM 32 irq).1.
Proof.
  unfold publish_irq. cbv zeta. split; [|split].
  - unfold csr_set. by rewrite load_store_csr_ne.
  - by rewrite load_csr_set.
  - unfold csr_set. by rewrite bus_store_csr.
Qed.

Lemma sclaim_stored b irq :
  sclaim (plic (bus_store b PLIC_SCLAIM 32 irq).1) = irq
  /\ uart (bus_store b PLIC_SCLAIM 32 irq).1 = uart b
  /\ disk (bus_store b PLIC_SCLAIM 32 irq).1 = disk b.
Proof. done. Qed.

Lemma uart_flag_clear b :
  interrupting (uart b) = false ->
  bus_set_uart b {| uart_data := uart_data (uart b); interrupting := false |} = b.
Proof. destruct b as [? ? ? [? ?] ? ?]. cbn. by intros ->. Qed.

Lemma bus_set_disk_same b : bus_set_disk b (disk b) = b.
Proof. by destruct b. Qed.

(** The hart that the selection returns, for the hart [cpu1] that the
    polling left. *)
Lemma select_pending_selected cpu1 :
  selected (cpu_load_csr cpu1 MIE) (cpu_load_csr cpu1 MIP)
           (select_pending cpu1).1 (select_pending cpu1).2
  /\ bus (select_pending cpu1).1 = bus cpu1.
Proof.
  rewrite select_pending_first. unfold selected.
  destruct (first_pending _) as [[bit i]|]; cbn [fst snd]; [|done].
  rewrite load_store_csr_eq, uint64_t_land_mask, bus_store_csr by done. done.
Qed.

Lemma user_check_polled cpu :
  mode cpu = USER ->
  polled_and_selected (bus cpu) (cpu_load_csr cpu MIE) (cpu_load_csr cpu MIP)
                      (cpu_check_pending_interrupt cpu).
Proof.
  intros Hmode. rewrite check_pending_gate. unfold interrupts_gated.
  rewrite Hmode. unfold polled_and_selected. cbv zeta.
  unfold poll_devices, uart_is_interrupting. split; [|split].
  - intros Hu. rewrite Hu. cbn [option_map].
    match goal with
    | |- context [select_pending ?c] =>
        pose proof (select_pending_selected c) as [Hsel Hbus];
        destruct (publish_irq_facts UART_IRQ
                    (cpu_set_bus cpu
                       (bus_set_uart (bus cpu)
                          {| uart_data := uart_data (uart (bus cpu));
                             interrupting := false |})))
          as (Hmie & Hmip & Hpub)
    end.
    rewrite Hmie, Hmip in Hsel. rewrite Hpub in Hbus.
    destruct (select_pending _) as [cpu2 intr]. cbn [fst snd] in Hsel, Hbus.
    exists cpu2, intr. split; [reflexivity|].
    rewrite Hbus. repeat split; try reflexivity. exact Hsel.
  - intros Hu Hn. rewrite Hu, (uart_flag_clear _ Hu), cpu_set_bus_same.
    unfold disk_is_interrupting.
    replace (notify (disk (bus cpu)) =? uint32_t (-1)) with false
      by (symmetry; by apply Z.eqb_neq).
    cbn [negb bus cpu_set_bus].
    destruct (bus_disk_access _) as [b'|]; [|reflexivity].
    cbn [option_map].
    match goal with
    | |- context [select_pending ?c] =>
        pose proof (select_pending_selected c) as [Hsel Hbus];
        destruct (publish_irq_facts DISK_IRQ
                    (cpu_set_bus (cpu_set_bus cpu
                       (bus_set_disk (bus cpu)
                          (disk_set (disk (bus cpu)) DISK_NOTIFY (uint32_t (-1)))))
                       b'))
          as (Hmie & Hmip & Hpub)
    end.
    rewrite Hmie, Hmip in Hsel. rewrite Hpub in Hbus.
    destruct (select_pending _) as [cpu2 intr]. cbn [fst snd] in Hsel, Hbus.
    exists cpu2, intr. split; [reflexivity|].
    rewrite Hbus. repeat split; try reflexivity. exact Hsel.
  - intros Hu Hn. rewrite Hu, (uart_flag_clear _ Hu), cpu_set_bus_same.
    unfold disk_is_interrupting. rewrite Hn, Z.eqb_refl.
    cbn [negb option_map]. rewrite bus_set_disk_same, cpu_set_bus_same.
    pose proof (select_pending_selected cpu) as [Hsel Hbus].
    destruct (select_pending _) as [cpu2 intr]. cbn [fst snd] in Hsel, Hbus.
    exists cpu2, intr. split; [reflexivity|].
    split; [exact Hbus|exact Hsel].
Qed.

(** C10.  In User mode no gate stops the interrupt check.  Whatever
    [mstatus] and [sstatus] hold, MIE and SIE clear included, it polls the
    UART and then the block device, publishes the interrupt of the device
    it finds in the claim register of the PLIC and in [mip.SEIP], and
    selects from [mie & mip] in the priority order: what it returns is
    fixed by the bus, [mie] and [mip] alone. *)
Theorem check_pending_user_mode (cpu : struct_cpu) (v w : Z) :
  mode cpu = USER ->
  let mie := cpu_load_csr cpu MIE in
  let mip := cpu_load_csr cpu MIP in
  polled_and_selected (bus cpu) mie mip (cpu_check_pending_interrupt cpu)
  /\ polled_and_selected (bus cpu) mie mip
       (cpu_check_pending_interrupt
          (cpu_store_csr (cpu_store_csr cpu MSTATUS v) SSTATUS w)).
Proof.
  intros Hmode. cbv zeta. split; [by apply user_check_polled|].
  set (c := cpu_store_csr (cpu_store_csr cpu MSTATUS v) SSTATUS w).
  assert (Hc : mode c = USER) by (unfold c; by rewrite !mode_store_csr).
  pose proof (user_check_polled c Hc) as H.
  replace (bus c) with (bus cpu) in H
    by (unfold c; by rewrite !bus_store_csr).
  replace (cpu_load_csr c MIE) with (cpu_load_csr cpu MIE) in H
    by (unfold c; by rewrite !load_store_csr_ne).
  replace (cpu_load_csr c MIP) with (cpu_load_csr cpu MIP) in H
    by (unfold c; by rewrite !load_store_csr_ne).
  exact H.
Qed.

End Interrupts.

(** ** What an instruction may change

    A relation between the hart before and after that is kept by every
    update of the bus, of the program counter and of the mode, by the write
    to a register [rd] and by the CSR stores at the indices in [P], is kept
    by every instruction whose destination is [rd] and whose CSR index, if
    it has one, is in [P]. *)

Section Frame.
Context {kbd : keyboard_h}.

Variable R : struct_cpu -> struct_cpu -> Prop.
Variable rd : Z.
Variable P : Z -> Prop.

Hypothesis R_refl : forall c, R c c.
Hypothesis R_trans : forall c1 c2 c3, R c1 c2 -> R c2 c3 -> R c1 c3.
Hypothesis R_bus : forall c b, R c (cpu_set_bus c b).
Hypothesis R_pc : forall c x, R c (cpu_set_pc c x).
Hypothesis R_mode : forall c m, R c (cpu_set_mode c m).
Hypothesis R_reg : forall c v, R c (set_reg c rd v).
Hypothesis R_csr : forall c addr v, P addr -> R c (cpu_store_csr c addr v).
Hypothesis R_paging : forall c addr, P addr -> R c (cpu_update_paging c addr).
Hypothesis P_SSTATUS : P SSTATUS.
Hypothesis P_MSTATUS : P MSTATUS.

Lemma keeps_ret {A} (a : A) c : R c (ret a c).1.
Proof. apply R_refl. Qed.

Lemma keeps_raise {A} e c : R c (raise (A := A) e c).1.
Proof. apply R_refl. Qed.

Lemma keeps_step f c : (forall c', R c' (f c')) -> R c (step f c).1.
Proof. intros H. apply H. Qed.

Lemma keeps_write v c : R c (write rd v c).1.
Proof. apply R_reg. Qed.

Lemma keeps_bind {A B} (m : M A) (k : A -> M B) c :
  (forall c', R c' (m c').1) -> (forall a c', R c' (k a c').1) ->
  R c (bind m k c).1.
Proof.
  intros Hm Hk. unfold bind. specialize (Hm c).
  destruct (m c) as [c1 [a|e]]; [|exact Hm].
  eapply R_trans; [exact Hm|]. apply Hk.
Qed.

Lemma keeps_translate c addr e : R c (cpu_translate c addr e).1.
Proof.
  unfold cpu_translate. destruct (negb (enable_paging c)); [apply R_refl|].
  destruct (walk _ _ _ _ _) as [b1 [[pte level]|exc]]; [|apply R_bus].
  destruct level as [|[|[|level]]]; apply R_bus.
Qed.

Lemma keeps_fetch c : R c (cpu_fetch c).1.
Proof.
  unfold cpu_fetch. apply keeps_bind.
  - intros c'. apply keeps_translate.
  - intros ppc c'. destruct (bus_load (bus c') ppc 32) as [b1 [insn|e]];
      apply R_bus.
Qed.

Lemma keeps_load addr size c : R c (cpu_load addr size c).1.
Proof.
  unfold cpu_load. apply keeps_bind.
  - intros c'. apply keeps_translate.
  - intros pa c'. destruct (bus_load (bus c') pa size). apply R_bus.
Qed.

Lemma keeps_store addr size value c :
  R c (cpu_store addr size value c).1.
Proof.
  unfold cpu_store. apply keeps_bind.
  - intros c'. apply keeps_translate.
  - intros pa c'. destruct (bus_store (bus c') pa size value) as [b1 []];
      apply R_bus.
Qed.

(** The [if] chains of the executor, one leaf at a time. *)
Ltac frame_leaf :=
  first
    [ apply keeps_write
    | apply keeps_ret
    | apply keeps_raise
    | apply R_refl
    | apply keeps_store
    | apply keeps_load
    | apply keeps_bind;
      [ intros ?; first [ apply keeps_load | apply keeps_store ]
      | intros ? ?; frame_leaf ] ].

Ltac frame_ifs :=
  repeat match goal with
         | |- R _ ((if ?b then _ else _) _).1 => destruct b
         end.

Lemma keeps_0x03 insn rs1 funct3 c : R c (execute_0x03 insn rd rs1 funct3 c).1.
Proof. unfold execute_0x03. cbv zeta. frame_ifs; frame_leaf. Qed.

Lemma keeps_0x0f funct3 c : R c (execute_0x0f funct3 c).1.
Proof. unfold execute_0x0f. frame_ifs; frame_leaf. Qed.

Lemma keeps_0x13 insn rs1 funct3 funct7 c :
  R c (execute_0x13 insn rd rs1 funct3 funct7 c).1.
Proof. unfold execute_0x13. cbv zeta. frame_ifs; frame_leaf. Qed.

Lemma keeps_0x17 insn c : R c (execute_0x17 insn rd c).1.
Proof. unfold execute_0x17. cbv zeta. frame_leaf. Qed.

Lemma keeps_0x1b insn rs1 funct3 funct7 c :
  R c (execute_0x1b insn rd rs1 funct3 funct7 c).1.
Proof. unfold execute_0x1b. cbv zeta. frame_ifs; frame_leaf. Qed.

Lemma keeps_0x23 insn rs1 rs2 funct3 c :
  R c (execute_0x23 insn rs1 rs2 funct3 c).1.
Proof. unfold execute_0x23. cbv zeta. frame_ifs; frame_leaf. Qed.

Lemma keeps_amo width align rs1 rs2 f g c :
  R c (amo width align rd rs1 rs2 f g c).1.
Proof. unfold amo. frame_ifs; frame_leaf. Qed.

Lemma keeps_0x2f rs1 rs2 funct3 funct7 c :
  R c (execute_0x2f rd rs1 rs2 funct3 funct7 c).1.
Proof.
  unfold execute_0x2f. cbv zeta.
  repeat match goal with
         | |- R _ ((if ?b then _ else _) _).1 => destruct b; [apply keeps_amo|]
         end.
  apply keeps_raise.
Qed.

Lemma keeps_0x33 rs1 rs2 funct3 funct7 c :
  R c (execute_0x33 rd rs1 rs2 funct3 funct7 c).1.
Proof. unfold execute_0x33. cbv zeta. frame_ifs; frame_leaf. Qed.

Lemma keeps_0x37 insn c : R c (execute_0x37 insn rd c).1.
Proof. unfold execute_0x37. frame_leaf. Qed.

Lemma keeps_0x3b rs1 rs2 funct3 funct7 c :
  R c (execute_0x3b rd rs1 rs2 funct3 funct7 c).1.
Proof. unfold execute_0x3b. cbv zeta. frame_ifs; frame_leaf. Qed.

Lemma keeps_jump imm c : R c (jump imm c).
Proof. apply R_pc. Qed.

Lemma keeps_0x63 insn rs1 rs2 funct3 c :
  R c (execute_0x63 insn rs1 rs2 funct3 c).1.
Proof.
  unfold execute_0x63. cbv zeta.
  frame_ifs; first [apply keeps_raise | apply R_refl | apply R_pc].
Qed.

Lemma keeps_0x67 insn rs1 c : R c (execute_0x67 insn rd rs1 c).1.
Proof.
  unfold execute_0x67. cbv zeta.
  eapply R_trans; [apply R_pc|]. apply keeps_write.
Qed.

Lemma keeps_0x6f insn c : R c (execute_0x6f insn rd c).1.
Proof.
  unfold execute_0x6f. cbv zeta.
  eapply R_trans; [apply R_reg|]. apply R_pc.
Qed.

Lemma keeps_xret_status csr ie pie pp c :
  P csr -> R c (xret_status csr ie pie pp c).
Proof.
  intros Hp. unfold xret_status. cbv zeta.
  eapply R_trans; [|by apply R_csr].
  eapply R_trans; [|by apply R_csr]. by apply R_csr.
Qed.

Lemma keeps_sret c : R c (sret c).
Proof.
  unfold sret. cbv zeta.
  eapply R_trans; [apply R_pc|].
  eapply R_trans; [apply R_mode|]. by apply keeps_xret_status.
Qed.

Lemma keeps_mret c : R c (mret c).
Proof.
  unfold mret. cbv zeta.
  eapply R_trans; [apply R_pc|].
  eapply R_trans; [apply R_mode|]. by apply keeps_xret_status.
Qed.

Lemma keeps_csr_insn addr new c : P addr -> R c (csr_insn addr rd new c).
Proof.
  intros Hp. unfold csr_insn. cbv zeta.
  eapply R_trans; [by apply R_csr|].
  eapply R_trans; [apply R_reg|]. by apply R_paging.
Qed.

Lemma keeps_csrrwi addr rs1 c : P addr -> R c (csrrwi addr rd rs1 c).
Proof.
  intros Hp. unfold csrrwi. cbv zeta.
  eapply R_trans; [apply R_reg|].
  eapply R_trans; [by apply R_csr|]. by apply R_paging.
Qed.

Lemma keeps_0x73 insn rs1 rs2 funct3 funct7 c :
  (funct3 <> 0 -> funct3 <> 4 ->
   P (uint16_t (Z.shiftr (Z.land insn 0xfff00000) 20))) ->
  R c (execute_0x73 insn rd rs1 rs2 funct3 funct7 c).1.
Proof.
  intros Hp. unfold execute_0x73. cbv zeta.
  destruct (Z.eqb_spec funct3 0) as [->|Hne].
  { frame_ifs;
      first [apply keeps_raise | apply R_refl | apply keeps_sret | apply keeps_mret]. }
  destruct (Z.eqb_spec funct3 4) as [->|Hne4].
  { cbn [Z.eqb Pos.eqb]. apply keeps_raise. }
  specialize (Hp Hne Hne4).
  frame_ifs;
    first [ apply keeps_raise
          | apply keeps_step; intros ?; by apply keeps_csr_insn
          | apply keeps_step; intros ?; by apply keeps_csrrwi ].
Qed.

(** The hart after an instruction is related to the hart as the
    instruction found it, register 0 cleared. *)
Lemma keeps_execute c insn :
  rd = Z.land (Z.shiftr insn 7) 0x1f ->
  (Z.land insn 0x7f = 0x73 ->
   Z.land (Z.shiftr insn 12) 0x7 <> 0 -> Z.land (Z.shiftr insn 12) 0x7 <> 4 ->
   P (uint16_t (Z.shiftr (Z.land insn 0xfff00000) 20))) ->
  R (set_reg c 0 0) (cpu_execute c insn).1.
Proof.
  intros Hrd Hp. unfold cpu_execute. cbv zeta. rewrite <- Hrd.
  set (c0 := set_reg c 0 0).
  match goal with
  | |- R _ (let '(c1, r) := ?m in (c1, status r)).1 =>
      assert (R c0 m.1) as H; [|destruct m; exact H]
  end.
  destruct (Z.eqb_spec (Z.land insn 0x7f) 0x73) as [Hop|Hop].
  - rewrite Hop. cbn [Z.eqb Pos.eqb]. apply keeps_0x73. by apply Hp.
  - repeat match goal with
           | |- R _ ((if ?b then _ else _) _).1 => destruct b eqn:?
           end;
      first [ apply keeps_0x03 | apply keeps_0x0f | apply keeps_0x13
            | apply keeps_0x17 | apply keeps_0x1b | apply keeps_0x23
            | apply keeps_0x2f | apply keeps_0x33 | apply keeps_0x37
            | apply keeps_0x3b | apply keeps_0x63 | apply keeps_0x67
            | apply keeps_0x6f | apply keeps_raise
            | (exfalso; apply Hop; by apply Z.eqb_eq) ].
Qed.

Lemma keeps_trap_vector tvec is_interrupt cause c :
  R c (trap_vector tvec is_interrupt cause c).
Proof. unfold trap_vector. destruct is_interrupt; apply R_pc. Qed.

Lemma keeps_csr_clear csr mask c : P csr -> R c (csr_clear csr mask c).
Proof. intros. unfold csr_clear. by apply R_csr. Qed.

Lemma keeps_csr_set csr mask c : P csr -> R c (csr_set csr mask c).
Proof. intros. unfold csr_set. by apply R_csr. Qed.

Lemma keeps_take_trap c e intr :
  P SEPC -> P SCAUSE -> P STVAL -> P MEPC -> P MCAUSE -> P MTVAL ->
  R c (cpu_take_trap c e intr).
Proof.
  intros. unfold cpu_take_trap. cbv zeta.
  repeat match goal with
         | |- R _ (if ?b then _ else _) => destruct b
         | |- R _ (csr_clear _ _ _) =>
             eapply R_trans; [|by apply keeps_csr_clear]
         | |- R _ (csr_set _ _ _) =>
             eapply R_trans; [|by apply keeps_csr_set]
         | |- R _ (cpu_store_csr _ _ _) =>
             eapply R_trans; [|by apply R_csr]
         | |- R _ (trap_vector _ _ _ _) =>
             eapply R_trans; [|by apply keeps_trap_vector]
         end; apply R_mode.
Qed.

Lemma keeps_publish_irq irq c : P MIP -> R c (publish_irq irq c).
Proof.
  intros. unfold publish_irq. cbv zeta.
  eapply R_trans; [apply R_bus|]. by apply keeps_csr_set.
Qed.

Lemma keeps_poll_devices c c' : P MIP -> poll_devices c = Some c' -> R c c'.
Proof.
  intros Hp. unfold poll_devices.
  destruct (uart_is_interrupting _) as [ui u1].
  destruct ui.
  { intros [= <-]. eapply R_trans; [apply R_bus|]. by apply keeps_publish_irq. }
  destruct (disk_is_interrupting _) as [di d1].
  destruct di.
  - destruct (bus_disk_access _) as [b|]; [|discriminate].
    intros [= <-].
    eapply R_trans; [apply R_bus|]. eapply R_trans; [apply R_bus|].
    eapply R_trans; [apply R_bus|]. by apply keeps_publish_irq.
  - intros [= <-]. eapply R_trans; apply R_bus.
Qed.

Lemma keeps_select_pending c : P MIP -> R c (select_pending c).1.
Proof.
  intros. unfold select_pending. cbv zeta.
  repeat (destruct (truthy _); [by apply keeps_csr_clear|]). apply R_refl.
Qed.

Lemma keeps_check_pending c c' intr :
  P MIP -> cpu_check_pending_interrupt c = Some (c', intr) -> R c c'.
Proof.
  intros Hp. unfold cpu_check_pending_interrupt.
  destruct (_ && _); [intros [= <- _]; apply R_refl|].
  destruct (_ && _); [intros [= <- _]; apply R_refl|].
  destruct (poll_devices c) as [c1|] eqn:Hpoll; [|discriminate].
  intros [= Hsel]. apply (keeps_poll_devices _ _ Hp) in Hpoll.
  eapply R_trans; [exact Hpoll|].
  pose proof (keeps_select_pending c1 Hp) as Hs.
  destruct (select_pending c1) as [c2 i2]. by inversion Hsel; subst.
Qed.

End Frame.

(** ** Register 0 *)

Section RegisterZero.
Context {kbd : keyboard_h}.


Lemma reg_set_reg_eq c i v : reg (set_reg c i v) i = uint64_t v.
Proof. unfold reg, set_reg. cbn [regs cpu_set_regs]. apply cell_insert_eq. Qed.

Lemma reg_set_reg_ne c i j v : i <> j -> reg (set_reg c i v) j = reg c j.
Proof.
  intros. unfold reg, set_reg. cbn [regs cpu_set_regs]. by apply cell_insert_ne.
Qed.







(** *** An instruction that returns an exception has written no register *)





















(** *** An instruction that writes no destination register *)



End RegisterZero.



(** ** Division of words *)

Section WordDivision.
Context {kbd : keyboard_h}.

Lemma with_operands_x cpu x y : reg (set_reg (with_operands cpu x y) 0 0) 1 = uint64_t x.
Proof.
  unfold with_operands. rewrite !reg_set_reg_ne by done. apply reg_set_reg_eq.
Qed.

Lemma with_operands_y cpu x y : reg (set_reg (with_operands cpu x y) 0 0) 2 = uint64_t y.
Proof.
  unfold with_operands. rewrite reg_set_reg_ne by done. apply reg_set_reg_eq.
Qed.

Lemma execute_0x3b_x3_x1_x2 cpu x y insn :
  insn_opcode insn = 0x3b -> insn_rd insn = 3 -> insn_rs1 insn = 1 ->
  insn_rs2 insn = 2 ->
  cpu_execute (with_operands cpu x y) insn
  = let '(c, r) :=
      execute_0x3b 3 1 2 (insn_funct3 insn) (insn_funct7 insn)
                   (set_reg (with_operands cpu x y) 0 0) in
    (c, status r).
Proof.
  unfold insn_opcode, insn_rd, insn_rs1, insn_rs2, insn_funct3, insn_funct7.
  intros Hop Hrd Hrs1 Hrs2. unfold cpu_execute. cbv zeta.
  rewrite Hop, Hrd, Hrs1, Hrs2. reflexivity.
Qed.

Lemma uint64_t_idem z : uint64_t (uint64_t z) = uint64_t z.
Proof. unfold uint64_t. apply Z.mod_mod. lia. Qed.

Lemma reg_written rd v c :
  reg (let '(c1, r) := write rd v c in (c1, status r)).1 rd = uint64_t v.
Proof. unfold write, step. cbn [fst]. apply reg_set_reg_eq. Qed.

(** The case of [execute_0x3b] that an instruction with the given funct3
    and funct7 selects, on the operands [x] and [y]. *)
Ltac run_0x3b insn f3 f7 :=
  rewrite execute_0x3b_x3_x1_x2 by reflexivity;
  unfold execute_0x3b; cbv zeta;
  rewrite with_operands_x, with_operands_y;
  change (insn_funct3 insn) with f3;
  change (insn_funct7 insn) with f7;
  change (uint64_t 0) with 0;
  change (uint64_t 0x80000000) with 0x80000000;
  change (uint64_t 0xFFFFFFFF) with 0xFFFFFFFF;
  change ((int32_t 0x80000000 =? INT32_MIN) && (int32_t 0xFFFFFFFF =? -1))
    with true;
  cbn [Z.eqb Pos.eqb andb];
  rewrite reg_written.

(** C6.  With a zero divisor [divw] yields the sign extension of -1 and
    [divuw] that of 0xFFFFFFFF; [remw] and [remuw] copy the 64 bits of the
    dividend to rd, which is not the sign extension of its low 32 bits: for
    the dividend 0x100000005 they yield 0x100000005 and not 5.  For the
    dividend [INT32_MIN] and the divisor -1, [divw] yields the sign
    extension of [INT32_MIN] and [remw] yields 0. *)
Theorem word_division_by_zero (cpu : struct_cpu) (x : Z) :
  reg (cpu_execute (with_operands cpu x 0) DIVW_x3_x1_x2).1 3 = uint64_t (-1)
  /\ reg (cpu_execute (with_operands cpu x 0) DIVUW_x3_x1_x2).1 3
     = uint64_t (int32_t 0xFFFFFFFF)
  /\ reg (cpu_execute (with_operands cpu x 0) REMW_x3_x1_x2).1 3 = uint64_t x
  /\ reg (cpu_execute (with_operands cpu x 0) REMUW_x3_x1_x2).1 3 = uint64_t x
  /\ uint64_t 0x100000005 <> uint64_t (int32_t 0x100000005)
  /\ reg (cpu_execute (with_operands cpu 0x80000000 0xFFFFFFFF) DIVW_x3_x1_x2).1 3
     = uint64_t INT32_MIN
  /\ reg (cpu_execute (with_operands cpu 0x80000000 0xFFFFFFFF) REMW_x3_x1_x2).1 3
     = 0.
Proof.
  split; [|split; [|split; [|split; [|split; [|split]]]]].
  - run_0x3b DIVW_x3_x1_x2 4 1. reflexivity.
  - run_0x3b DIVUW_x3_x1_x2 5 1. reflexivity.
  - run_0x3b REMW_x3_x1_x2 6 1. apply uint64_t_idem.
  - run_0x3b REMUW_x3_x1_x2 7 1. apply uint64_t_idem.
  - vm_compute. discriminate.
  - run_0x3b DIVW_x3_x1_x2 4 1. reflexivity.
  - run_0x3b REMW_x3_x1_x2 6 1. reflexivity.
Qed.

End WordDivision.

(** ** The paging cache *)

Section Paging.
Context {kbd : keyboard_h}.

Lemma same_paging_refl c : same_paging c c.
Proof. by repeat split. Qed.

Lemma same_paging_trans c1 c2 c3 :
  same_paging c1 c2 -> same_paging c2 c3 -> same_paging c1 c3.
Proof. intros (?&?&?) (?&?&?). repeat split; congruence. Qed.

Lemma same_paging_store_csr c addr v :
  addr <> SATP -> same_paging c (cpu_store_csr c addr v).
Proof.
  intros Hne. unfold cpu_store_csr.
  destruct (addr =? SIE); repeat split; cbn [csrs cpu_set_csrs];
    by rewrite cell_insert_ne.
Qed.

Lemma same_paging_update c addr :
  addr <> SATP -> same_paging c (cpu_update_paging c addr).
Proof.
  intros Hne. unfold cpu_update_paging.
  rewrite (proj2 (Z.eqb_neq _ _) Hne). apply same_paging_refl.
Qed.

Lemma paging_inv_same c c' : paging_inv c -> same_paging c c' -> paging_inv c'.
Proof.
  unfold paging_inv, same_paging. cbv zeta.
  intros (Hr & He & Hp) (-> & -> & ->). done.
Qed.

(** The side conditions of the frame lemmas, for [same_paging]. *)
Ltac same_paging_frame :=
  first [ exact same_paging_refl
        | exact same_paging_trans
        | exact same_paging_store_csr
        | exact same_paging_update
        | done
        | (intros; by repeat split) ].

Lemma same_paging_fetch c : same_paging c (cpu_fetch c).1.
Proof. apply keeps_fetch with (R := same_paging); same_paging_frame. Qed.

Lemma same_paging_take_trap c e intr : same_paging c (cpu_take_trap c e intr).
Proof.
  apply keeps_take_trap with (R := same_paging) (P := fun a => a <> SATP);
    same_paging_frame.
Qed.

Lemma same_paging_check_pending c c' intr :
  cpu_check_pending_interrupt c = Some (c', intr) -> same_paging c c'.
Proof.
  apply keeps_check_pending with (R := same_paging) (P := fun a => a <> SATP);
    same_paging_frame.
Qed.

Lemma same_paging_execute c insn :
  writes_csr insn SATP = false -> same_paging c (cpu_execute c insn).1.
Proof.
  intros Hw.
  apply same_paging_trans with (set_reg c 0 0); [by repeat split|].
  apply keeps_execute
    with (R := same_paging) (rd := insn_rd insn) (P := fun a => a <> SATP);
    try same_paging_frame.
  intros Hop H0 H4 Hcsr. unfold writes_csr in Hw.
  unfold insn_opcode, insn_funct3, insn_csr in Hw.
  rewrite Hop, Hcsr in Hw.
  rewrite (proj2 (Z.eqb_neq _ _) H0), (proj2 (Z.eqb_neq _ _) H4) in Hw.
  discriminate.
Qed.

Lemma land_low44_bound z : 0 <= Z.land z (2 ^ 44 - 1) * 4096 < 2 ^ 64.
Proof.
  change (2 ^ 44 - 1) with (Z.ones 44). rewrite Z.land_ones by lia.
  pose proof (Z.mod_pos_bound z (2 ^ 44) ltac:(lia)). lia.
Qed.

Lemma paging_inv_refresh c :
  0 <= cell (csrs c) SATP < 2 ^ 64 -> paging_inv (cpu_update_paging c SATP).
Proof.
  intros Hr. unfold cpu_update_paging, paging_inv, cpu_load_csr.
  change (negb (SATP =? SATP)) with false. change (SATP =? SIE) with false.
  cbv iota zeta. cbn [csrs enable_paging pagetable cpu_set_paging].
  split; [exact Hr|]. split.
  - rewrite Z.eqb_eq. split; congruence.
  - change (uint64_t (Z.shiftl 1 44) - 1) with (2 ^ 44 - 1).
    change PAGE_SIZE with 4096. apply uint64_t_small, land_low44_bound.
Qed.

Lemma satp_after_store c v rd t :
  cell (csrs (set_reg (cpu_store_csr c SATP v) rd t)) SATP = uint64_t v.
Proof.
  unfold set_reg, cpu_store_csr. change (SATP =? SIE) with false. cbv iota.
  cbn [csrs cpu_set_regs cpu_set_csrs]. apply cell_insert_eq.
Qed.

Lemma csrs_set_reg c i v : csrs (set_reg c i v) = csrs c.
Proof. reflexivity. Qed.

Lemma paging_inv_csr_insn c rd new : paging_inv (csr_insn SATP rd new c).
Proof.
  unfold csr_insn. cbv zeta. apply paging_inv_refresh.
  rewrite satp_after_store. apply uint64_t_range.
Qed.

Lemma paging_inv_csrrwi c rd rs1 : paging_inv (csrrwi SATP rd rs1 c).
Proof.
  unfold csrrwi. cbv zeta. apply paging_inv_refresh.
  unfold cpu_store_csr. change (SATP =? SIE) with false. cbv iota.
  cbn [csrs cpu_set_csrs]. rewrite cell_insert_eq. apply uint64_t_range.
Qed.

Lemma funct3_range insn : 0 <= insn_funct3 insn < 8.
Proof.
  unfold insn_funct3. change 7 with (Z.ones 3). rewrite Z.land_ones by lia.
  apply Z.mod_pos_bound. lia.
Qed.

(** What [cpu_execute] does with a CSR instruction. *)
Lemma execute_csr c insn :
  insn_opcode insn = 0x73 -> insn_funct3 insn <> 0 -> insn_funct3 insn <> 4 ->
  let c0 := set_reg c 0 0 in
  let addr := insn_csr insn in
  let rd := insn_rd insn in
  let rs1 := insn_rs1 insn in
  let f3 := insn_funct3 insn in
  cpu_execute c insn
  = (if f3 =? 1 then csr_insn addr rd (fun t => reg c0 rs1) c0
     else if f3 =? 2 then csr_insn addr rd (fun t => Z.lor t (reg c0 rs1)) c0
     else if f3 =? 3 then
       csr_insn addr rd (fun t => Z.land t (uint64_t (Z.lnot (reg c0 rs1)))) c0
     else if f3 =? 5 then csrrwi addr rd rs1 c0
     else if f3 =? 6 then csr_insn addr rd (fun t => Z.lor t rs1) c0
     else csr_insn addr rd (fun t => Z.land t (uint64_t (Z.lnot rs1))) c0,
     OK).
Proof.
  intros Hop H0 H4. cbv zeta. pose proof (funct3_range insn) as Hr.
  unfold cpu_execute. cbv zeta.
  fold (insn_opcode insn) (insn_funct3 insn) (insn_rd insn) (insn_rs1 insn)
       (insn_rs2 insn) (insn_funct7 insn).
  rewrite Hop. cbn [Z.eqb Pos.eqb]. unfold execute_0x73. cbv zeta.
  fold (insn_csr insn).
  assert (insn_funct3 insn = 1 \/ insn_funct3 insn = 2 \/ insn_funct3 insn = 3
          \/ insn_funct3 insn = 5 \/ insn_funct3 insn = 6
          \/ insn_funct3 insn = 7) as Hcases by lia.
  destruct Hcases as [-> | [-> | [-> | [-> | [-> | ->]]]]];
    cbn [Z.eqb Pos.eqb]; reflexivity.
Qed.

Lemma paging_inv_execute_satp c insn :
  writes_csr insn SATP = true -> paging_inv (cpu_execute c insn).1.
Proof.
  unfold writes_csr. rewrite !andb_true_iff, !negb_true_iff, !Z.eqb_eq, !Z.eqb_neq.
  intros [[[Hop H0] H4] Hcsr].
  rewrite (execute_csr c insn Hop H0 H4). cbv zeta. rewrite Hcsr. cbn [fst].
  destruct (_ =? 1); [apply paging_inv_csr_insn|].
  destruct (_ =? 2); [apply paging_inv_csr_insn|].
  destruct (_ =? 3); [apply paging_inv_csr_insn|].
  destruct (_ =? 5); [apply paging_inv_csrrwi|].
  destruct (_ =? 6); apply paging_inv_csr_insn.
Qed.

Lemma paging_inv_execute c insn :
  paging_inv c -> paging_inv (cpu_execute c insn).1.
Proof.
  intros Hinv. destruct (writes_csr insn SATP) eqn:Hw.
  - by apply paging_inv_execute_satp.
  - eapply paging_inv_same; [exact Hinv|]. by apply same_paging_execute.
Qed.

Lemma paging_inv_execute_fetched c insn c' :
  execute_fetched c insn = Some c' -> paging_inv c -> paging_inv c'.
Proof.
  unfold execute_fetched. cbv zeta. intros Hstep Hinv.
  pose proof (paging_inv_execute (cpu_set_pc c (uint64_t (pc c + 4))) insn Hinv)
    as He.
  destruct (cpu_execute _ insn) as [c4 e]. cbn [fst] in He.
  assert (Hex : forall c5,
            (if negb (is_OK e)
             then if exception_is_fatal e then None
                  else Some (cpu_take_trap c4 e NONE)
             else Some c4) = Some c5 -> paging_inv c5).
  { intros c5. destruct (negb (is_OK e)); [|by intros [= <-]].
    destruct (exception_is_fatal e); [discriminate|]. intros [= <-].
    eapply paging_inv_same; [exact He|]. apply same_paging_take_trap. }
  destruct (if negb (is_OK e) then _ else _) as [c5|]; [|discriminate].
  specialize (Hex c5 eq_refl).
  destruct (cpu_check_pending_interrupt c5) as [[c6 intr]|] eqn:Hc;
    [|discriminate].
  apply same_paging_check_pending in Hc. revert Hstep.
  destruct (negb (is_NONE intr)); intros [= <-].
  - eapply paging_inv_same; [by eapply paging_inv_same|].
    apply same_paging_take_trap.
  - by eapply paging_inv_same.
Qed.

Lemma paging_inv_execute_instruction c c' :
  execute_instruction c = Some c' -> paging_inv c -> paging_inv c'.
Proof.
  unfold execute_instruction. intros Hstep Hinv.
  pose proof (same_paging_fetch c) as Hf.
  destruct (cpu_fetch c) as [c1 [insn|e]]; cbn [fst] in Hf.
  - eapply paging_inv_execute_fetched; [exact Hstep|]. by eapply paging_inv_same.
  - cbv zeta in Hstep. destruct (exception_is_fatal e); [discriminate|].
    eapply paging_inv_execute_fetched; [exact Hstep|].
    eapply paging_inv_same; [by eapply paging_inv_same|].
    apply same_paging_take_trap.
Qed.

Lemma paging_inv_reachable code disk_image c :
  reachable code disk_image c -> paging_inv c.
Proof.
  induction 1 as [|c c' _ IH Hstep].
  - unfold paging_inv, cpu_new. cbn [csrs enable_paging pagetable].
    rewrite cell_empty. cbv zeta. repeat split; try lia; discriminate.
  - destruct Hstep as [c c' Hex|c ch u _|c k].
    + by eapply paging_inv_execute_instruction.
    + exact IH.
    + exact IH.
Qed.

End Paging.

(** ** The paging cache in the states the machine reaches *)

Section PagingClaim.
Context {kbd : keyboard_h}.

Lemma satp_csr_insn c rd new :
  cell (csrs (csr_insn SATP rd new c)) SATP = uint64_t (new (cpu_load_csr c SATP)).
Proof.
  unfold csr_insn. cbv zeta. unfold cpu_update_paging.
  change (negb (SATP =? SATP)) with false. cbv iota.
  cbn [csrs cpu_set_paging]. apply satp_after_store.
Qed.

Lemma reachable_run code disk_image n : forall c c',
  reachable code disk_image c -> run_instructions n c = Some c' ->
  reachable code disk_image c'.
Proof.
  induction n as [|n IH]; intros c c' Hr; cbn [run_instructions].
  - by intros [= <-].
  - destruct (execute_instruction c) as [c1|] eqn:Hstep; [|discriminate].
    apply IH. eapply reachable_step; [exact Hr|]. by apply step_instruction.
Qed.

(** C5.  In every state the machine reaches, [enable_paging] holds exactly
    when the bits 63..60 of [satp] are 8, and [pagetable] is the low 44 bits
    of [satp] times 4096.  Each of csrrw, csrrs, csrrc, csrrwi, csrrsi and
    csrrci whose CSR index is [satp] leaves the cached fields in agreement
    with the [satp] it wrote; every other instruction, the fetch, the trap
    entry and the interrupt check leave the two fields and [satp] as they
    were.  After a csrrw on [satp] from a register holding [v], paging is
    enabled with the root [(v & (2^44 - 1)) * 4096] when [v >> 60] is 8, and
    disabled when [v >> 60] is 0. *)
Theorem paging_cache_follows_satp (code disk_image : list Z) (cpu : struct_cpu) :
  reachable code disk_image cpu ->
  let satp := cell (csrs cpu) SATP in
  0 <= satp < 2 ^ 64
  /\ (enable_paging cpu = true <-> Z.shiftr satp 60 = 8)
  /\ pagetable cpu = Z.land satp (2 ^ 44 - 1) * 4096
  /\ (forall insn, writes_csr insn SATP = true ->
        paging_inv (cpu_execute cpu insn).1)
  /\ (forall insn, writes_csr insn SATP = false ->
        same_paging cpu (cpu_execute cpu insn).1)
  /\ same_paging cpu (cpu_fetch cpu).1
  /\ (forall e intr, same_paging cpu (cpu_take_trap cpu e intr))
  /\ (forall cpu' intr,
        cpu_check_pending_interrupt cpu = Some (cpu', intr) ->
        same_paging cpu cpu')
  /\ (forall insn,
        insn_opcode insn = 0x73 -> insn_funct3 insn = 1 ->
        insn_csr insn = SATP ->
        let v := uint64_t (reg (set_reg cpu 0 0) (insn_rs1 insn)) in
        let cpu' := (cpu_execute cpu insn).1 in
        (Z.shiftr v 60 = 8 ->
           enable_paging cpu' = true
           /\ pagetable cpu' = Z.land v (2 ^ 44 - 1) * 4096)
        /\ (Z.shiftr v 60 = 0 -> enable_paging cpu' = false)).
Proof.
  intros Hreach. pose proof (paging_inv_reachable _ _ _ Hreach) as Hinv.
  cbv zeta. destruct Hinv as (Hr & He & Hp).
  repeat (split; [first [exact Hr | exact He | exact Hp]|]).
  split; [intros insn Hw; by apply paging_inv_execute_satp|].
  split; [intros insn Hw; by apply same_paging_execute|].
  split; [apply same_paging_fetch|].
  split; [intros; apply same_paging_take_trap|].
  split; [intros cpu' intr; apply same_paging_check_pending|].
  intros insn Hop H3 Hcsr.
  assert (Hw : paging_inv (cpu_execute cpu insn).1).
  { apply paging_inv_execute_satp. unfold writes_csr.
    by rewrite Hop, H3, Hcsr. }
  assert (Hsatp : cell (csrs (cpu_execute cpu insn).1) SATP
                  = uint64_t (reg (set_reg cpu 0 0) (insn_rs1 insn))).
  { rewrite (execute_csr cpu insn Hop) by (rewrite H3; done).
    cbv zeta. rewrite H3, Hcsr. cbn [Z.eqb Pos.eqb fst].
    apply satp_csr_insn. }
  destruct Hw as (_ & Hen & Hpt). cbv zeta in Hen, Hpt.
  rewrite Hsatp in Hen, Hpt. split.
  - intros H8. split; [by apply Hen|exact Hpt].
  - intros H0. destruct (enable_paging (cpu_execute cpu insn).1); [|reflexivity].
    destruct Hen as [Hen _]. specialize (Hen eq_refl). congruence.
Qed.

End PagingClaim.

Lemma paging_cache_follows_satp_witness :
  exists cpu,
    run_instructions (kbd := example_keyboard) 3 (cpu_new (image enable_sv39) [])
    = Some cpu
    /\ cell (csrs cpu) SATP = 2 ^ 63
    /\ (enable_paging cpu = true <-> Z.shiftr (cell (csrs cpu) SATP) 60 = 8)
    /\ pagetable cpu = Z.land (cell (csrs cpu) SATP) (2 ^ 44 - 1) * 4096.
Proof.
  destruct (run_instructions (kbd := example_keyboard) 3
              (cpu_new (image enable_sv39) [])) as [cpu|] eqn:Hrun;
    [|vm_compute in Hrun; discriminate].
  exists cpu. split; [reflexivity|].
  split; [vm_compute in Hrun; by injection Hrun as <-|].
  pose proof (paging_cache_follows_satp (kbd := example_keyboard)
                (image enable_sv39) [] cpu
                (reachable_run _ _ 3 _ _ (reachable_new _ _) Hrun)) as H.
  cbv zeta in H. destruct H as (_ & He & Hp & _). split; [exact He|exact Hp].
Defined.
Lemma check_pending_priority_witness :
  exists cpu2,
    cpu_check_pending_interrupt (kbd := example_keyboard) example_pending_cpu
    = Some (cpu2, MACHINE_TIMER_INTERRUPT)
    /\ cpu_load_csr cpu2 MIP = 0x220.
Proof.
  destruct (poll_devices (kbd := example_keyboard) example_pending_cpu)
    as [cpu1|] eqn:Hpoll; [|vm_compute in Hpoll; discriminate].
  pose proof (check_pending_priority (kbd := example_keyboard)
                example_pending_cpu cpu1 ltac:(vm_compute; reflexivity) Hpoll) as H.
  cbv zeta in H.
  assert (Hf : first_pending (Z.land (cpu_load_csr cpu1 MIE) (cpu_load_csr cpu1 MIP))
               = Some (MIP_MTIP, MACHINE_TIMER_INTERRUPT)).
  { vm_compute in Hpoll. injection Hpoll as <-. vm_compute. reflexivity. }
  rewrite Hf in H. destruct H as (cpu2 & H1 & H2 & _ & Hbits).
  exists cpu2. split; [exact H1|]. rewrite H2.
  vm_compute in Hpoll. injection Hpoll as <-. vm_compute. reflexivity.
Defined.

Lemma check_pending_user_mode_witness :
  cpu_load_csr example_user_cpu MSTATUS = 0
  /\ cpu_load_csr example_user_cpu SSTATUS = 0
  /\ exists cpu2,
       cpu_check_pending_interrupt (kbd := example_keyboard) example_user_cpu
       = Some (cpu2, SUPERVISOR_EXTERNAL_INTERRUPT)
       /\ sclaim (plic (bus cpu2)) = UART_IRQ
       /\ cpu_load_csr cpu2 MIP = 0.
Proof.
  split; [reflexivity|]. split; [reflexivity|].
  destruct (check_pending_user_mode (kbd := example_keyboard)
              example_user_cpu 0 0 eq_refl) as [[Huart _] _].
  destruct (Huart eq_refl) as (cpu2 & intr & Hr & Hclaim & _ & _ & Hsel).
  vm_compute in Hsel. destruct Hsel as [-> Hmip].
  exists cpu2. split; [exact Hr|]. split; [exact Hclaim|exact Hmip].
Defined.

(* ================================================================== *)
(** * Further properties of the devices and of the bus *)

(** Below 4 GiB the four range checks of the bus are the comparisons. *)
Lemma bus_ranges addr :
  0 <= addr < 2 ^ 32 ->
  RANGE_CHECK addr CLINT_BASE CLINT_SIZE
  = (CLINT_BASE <=? addr) && (addr <? CLINT_BASE + CLINT_SIZE)
  /\ RANGE_CHECK addr PLIC_BASE PLIC_SIZE
     = (PLIC_BASE <=? addr) && (addr <? PLIC_BASE + PLIC_SIZE)
  /\ RANGE_CHECK addr UART_BASE UART_SIZE
     = (UART_BASE <=? addr) && (addr <? UART_BASE + UART_SIZE)
  /\ RANGE_CHECK addr DISK_BASE DISK_SIZE
     = (DISK_BASE <=? addr) && (addr <? DISK_BASE + DISK_SIZE).
Proof.
  intros. repeat split; apply RANGE_CHECK_below_4GiB; try done;
    vm_compute; congruence.
Qed.

(** The range checks of the bus at an address, decided from the bounds in
    the context. *)
Ltac dispatch addr H :=
  destruct (bus_ranges addr H) as (-> & -> & -> & ->);
  unfold CLINT_BASE, CLINT_SIZE, PLIC_BASE, PLIC_SIZE, UART_BASE, UART_SIZE,
         DISK_BASE, DISK_SIZE, RAM_BASE, RAM_SIZE in *;
  repeat match goal with
         | |- context [?a <=? ?b] =>
             destruct (Z.leb_spec a b); try (exfalso; lia)
         | |- context [?a <? ?b] =>
             destruct (Z.ltb_spec a b); try (exfalso; lia)
         end;
  cbn [andb].

Section BusBelow4GiB.
Context {kbd : keyboard_h}.

Lemma bus_store_ram b addr size value :
  RAM_BASE <= addr < 2 ^ 32 ->
  bus_store b addr size value
  = (bus_set_ram b (ram_store (ram b) addr size value).1,
     (ram_store (ram b) addr size value).2).
Proof.
  intros Ha. unfold bus_store.
  assert (H : 0 <= addr < 2 ^ 32) by (unfold RAM_BASE in Ha; lia).
  dispatch addr H; by destruct (ram_store (ram b) addr size value).
Qed.

Lemma bus_load_ram b addr size :
  RAM_BASE <= addr < 2 ^ 32 ->
  RANGE_CHECK addr KBD_BASE KBD_SIZE = false ->
  bus_load b addr size = (b, ram_load (ram b) addr size).
Proof.
  intros Ha Hk. unfold bus_load. rewrite Hk.
  assert (H : 0 <= addr < 2 ^ 32) by (unfold RAM_BASE in Ha; lia).
  dispatch addr H; reflexivity.
Qed.

(** X2.  Through the bus, a store to RAM followed by a load of the same
    size at the same address yields the stored value cut to that size, for
    an access within the 8 MiB of RAM and outside the keyboard port; the
    store changes the RAM only. *)
Theorem bus_ram_roundtrip (b : struct_bus) (addr s v : Z) :
  RAM_BASE <= addr ->
  addr - RAM_BASE + s / 8 <= RAM_SIZE ->
  s = 8 \/ s = 16 \/ s = 32 \/ s = 64 ->
  RANGE_CHECK addr KBD_BASE KBD_SIZE = false ->
  let b' := (bus_store b addr s v).1 in
  (bus_store b addr s v).2 = OK
  /\ bus_load b' addr s = (b', Ok (v mod 2 ^ s))
  /\ clint b' = clint b /\ plic b' = plic b /\ uart b' = uart b
  /\ disk b' = disk b /\ host b' = host b.
Proof.
  intros Hbase Hbound Hs Hk. cbv zeta.
  assert (Ha : RAM_BASE <= addr < 2 ^ 32).
  { unfold RAM_BASE, RAM_SIZE in *.
    destruct Hs as [-> | [-> | [-> | ->]]];
      [ change (8 / 8) with 1 in Hbound | change (16 / 8) with 2 in Hbound
      | change (32 / 8) with 4 in Hbound | change (64 / 8) with 8 in Hbound ];
      lia. }
  rewrite bus_store_ram by done. cbn [fst snd].
  rewrite bus_load_ram by done. cbn [ram bus_set_ram].
  destruct Hs as [-> | [-> | [-> | ->]]].
  - rewrite ram_store_load_8 by done. done.
  - rewrite ram_store_load_16 by done. done.
  - rewrite ram_store_load_32 by done. done.
  - rewrite ram_store_load_64 by done. done.
Qed.

(** X3.  An address below [RAM_BASE] that lies in the range of no device
    is refused: the load fails with [LOAD_ACCESS_FAULT], the store with
    [STORE_AMO_ACCESS_FAULT], and neither changes the bus. *)
Theorem bus_unmapped (b : struct_bus) (addr size value : Z) :
  0 <= addr < RAM_BASE ->
  ~ (CLINT_BASE <= addr < CLINT_BASE + CLINT_SIZE) ->
  ~ (PLIC_BASE <= addr < PLIC_BASE + PLIC_SIZE) ->
  ~ (UART_BASE <= addr < UART_BASE + UART_SIZE) ->
  ~ (DISK_BASE <= addr < DISK_BASE + DISK_SIZE) ->
  bus_store b addr size value = (b, STORE_AMO_ACCESS_FAULT)
  /\ (RANGE_CHECK addr KBD_BASE KBD_SIZE = false ->
      bus_load b addr size = (b, Failed LOAD_ACCESS_FAULT)).
Proof.
  intros Ha Hc Hp Hu Hd.
  assert (H : 0 <= addr < 2 ^ 32) by (unfold RAM_BASE in Ha; lia).
  split.
  - unfold bus_store. dispatch addr H; reflexivity.
  - intros Hk. unfold bus_load. rewrite Hk. dispatch addr H; reflexivity.
Qed.

(** X4.  Each device accepts one access size: 64 bits for the CLINT, 32
    for the PLIC and the block device, 8 for the UART.  An access of any
    other size to the range of the device fails with the access fault of
    its direction and leaves the bus as it was. *)
Theorem bus_device_size (b : struct_bus) (addr size value : Z) :
  (CLINT_BASE <= addr < CLINT_BASE + CLINT_SIZE /\ size <> 64)
  \/ (PLIC_BASE <= addr < PLIC_BASE + PLIC_SIZE /\ size <> 32)
  \/ (UART_BASE <= addr < UART_BASE + UART_SIZE /\ size <> 8)
  \/ (DISK_BASE <= addr < DISK_BASE + DISK_SIZE /\ size <> 32) ->
  bus_load b addr size = (b, Failed LOAD_ACCESS_FAULT)
  /\ bus_store b addr size value = (b, STORE_AMO_ACCESS_FAULT).
Proof.
  intros Hdev.
  assert (H : 0 <= addr < 2 ^ 32).
  { unfold CLINT_BASE, CLINT_SIZE, PLIC_BASE, PLIC_SIZE, UART_BASE, UART_SIZE,
           DISK_BASE, DISK_SIZE in Hdev. lia. }
  unfold bus_load, bus_store.
  destruct Hdev as [[Ha Hs] | [[Ha Hs] | [[Ha Hs] | [Ha Hs]]]];
    apply Z.eqb_neq in Hs; dispatch addr H;
    unfold clint_load, clint_store, plic_load, plic_store, uart_load,
           uart_store, disk_load, disk_store;
    rewrite Hs; cbn [negb]; by destruct b.
Qed.

End BusBelow4GiB.

(** X1.  [RANGE_CHECK] compares 32 bits: for a range that ends below
    2^31 it holds exactly when the low 32 bits of the address lie in the
    range, so that it gives the same answer for two addresses that differ by
    a multiple of 4 GiB. *)
Theorem range_check_low_32_bits (x minx size k : Z) :
  0 <= minx -> 0 < size -> minx + size <= 2 ^ 31 ->
  (RANGE_CHECK x minx size = true
   <-> minx <= x mod 2 ^ 32 < minx + size)
  /\ RANGE_CHECK (x + k * 2 ^ 32) minx size = RANGE_CHECK x minx size.
Proof.
  intros Hmin Hsize Hmax. split; [by apply RANGE_CHECK_spec|].
  pose proof (RANGE_CHECK_spec x minx size Hmin Hsize Hmax) as Hx.
  pose proof (RANGE_CHECK_spec (x + k * 2 ^ 32) minx size Hmin Hsize Hmax) as Hk.
  rewrite Z.mod_add in Hk by lia.
  destruct (RANGE_CHECK x minx size), (RANGE_CHECK (x + k * 2 ^ 32) minx size);
    try reflexivity.
  - apply (proj2 Hk), (proj1 Hx). reflexivity.
  - symmetry. apply (proj2 Hx), (proj1 Hk). reflexivity.
Qed.

Lemma range_check_low_32_bits_witness :
  RANGE_CHECK (UART_BASE + 5 + 1 * 2 ^ 32) UART_BASE UART_SIZE
  = RANGE_CHECK (UART_BASE + 5) UART_BASE UART_SIZE.
Proof.
  exact (proj2 (range_check_low_32_bits (UART_BASE + 5) UART_BASE UART_SIZE 1
                  ltac:(unfold UART_BASE; lia) ltac:(unfold UART_SIZE; lia)
                  ltac:(unfold UART_BASE, UART_SIZE; lia))).
Defined.

Lemma bus_ram_roundtrip_witness :
  (bus_store (bus_new (ram_new []) (disk_new ∅))
     (RAM_BASE + 0x1000) 16 0xABCDE).2 = OK.
Proof.
  exact (proj1 (bus_ram_roundtrip (kbd := example_keyboard)
                  (bus_new (ram_new []) (disk_new ∅)) (RAM_BASE + 0x1000) 16
                  0xABCDE ltac:(done) ltac:(done)
                  (or_intror (or_introl eq_refl)) eq_refl)).
Defined.

Lemma bus_unmapped_witness :
  bus_store (bus_new (ram_new []) (disk_new ∅)) 0x1000 32 7
  = (bus_new (ram_new []) (disk_new ∅), STORE_AMO_ACCESS_FAULT).
Proof.
  apply (bus_unmapped (kbd := example_keyboard)); vm_compute;
    intuition discriminate.
Defined.

Lemma bus_device_size_witness :
  bus_load (kbd := example_keyboard) (bus_new (ram_new []) (disk_new ∅))
    CLINT_MTIME 32
  = (bus_new (ram_new []) (disk_new ∅), Failed LOAD_ACCESS_FAULT).
Proof.
  pose proof (bus_device_size (kbd := example_keyboard)
                (bus_new (ram_new []) (disk_new ∅)) CLINT_MTIME 32 0) as H.
  assert (Hc : CLINT_BASE <= CLINT_MTIME < CLINT_BASE + CLINT_SIZE)
    by (unfold CLINT_MTIME, CLINT_BASE, CLINT_SIZE; lia).
  assert (Hs : 32 <> 64) by lia.
  destruct (H (or_introl (conj Hc Hs))) as [Hl _].
  exact Hl.
Defined.

(** ** The registers of the CLINT, of the PLIC and of the block device *)

Section Registers.
Context {kbd : keyboard_h}.

(** X5.  The two registers of the CLINT (64-bit) and the four of the PLIC
    (32-bit accesses) hold what was stored in them, all 64 bits of the
    value in both devices; every other address of the two devices reads as
    zero and drops what is stored to it. *)
Theorem clint_plic_registers (b : struct_bus) (v : Z) :
  (forall r, In r [CLINT_MTIMECMP; CLINT_MTIME] ->
     (bus_store b r 64 v).2 = OK
     /\ (bus_load (bus_store b r 64 v).1 r 64).2 = Ok v)
  /\ (forall r, In r [PLIC_PENDING; PLIC_SENABLE; PLIC_SPRIORITY; PLIC_SCLAIM] ->
        (bus_store b r 32 v).2 = OK
        /\ (bus_load (bus_store b r 32 v).1 r 32).2 = Ok v)
  /\ (forall addr,
        CLINT_BASE <= addr < CLINT_BASE + CLINT_SIZE ->
        addr <> CLINT_MTIMECMP -> addr <> CLINT_MTIME ->
        bus_store b addr 64 v = (b, OK) /\ bus_load b addr 64 = (b, Ok 0))
  /\ (forall addr,
        PLIC_BASE <= addr < PLIC_BASE + PLIC_SIZE ->
        addr <> PLIC_PENDING -> addr <> PLIC_SENABLE ->
        addr <> PLIC_SPRIORITY -> addr <> PLIC_SCLAIM ->
        bus_store b addr 32 v = (b, OK) /\ bus_load b addr 32 = (b, Ok 0)).
Proof.
  split; [|split; [|split]].
  - intros r Hr. cbn [In] in Hr.
    destruct Hr as [<- | [<- | []]]; split; reflexivity.
  - intros r Hr. cbn [In] in Hr.
    destruct Hr as [<- | [<- | [<- | [<- | []]]]]; split; reflexivity.
  - intros addr Ha H1 H2.
    assert (H : 0 <= addr < 2 ^ 32)
      by (unfold CLINT_BASE, CLINT_SIZE in Ha; lia).
    apply Z.eqb_neq in H1, H2. unfold bus_store, bus_load.
    split; dispatch addr H; unfold clint_store, clint_load;
      fold CLINT_BASE in *; fold CLINT_MTIMECMP CLINT_MTIME in *;
      rewrite H1, H2; cbn [negb Z.eqb Pos.eqb]; by destruct b.
  - intros addr Ha H1 H2 H3 H4.
    assert (H : 0 <= addr < 2 ^ 32)
      by (unfold PLIC_BASE, PLIC_SIZE in Ha; lia).
    apply Z.eqb_neq in H1, H2, H3, H4. unfold bus_store, bus_load.
    split; dispatch addr H; unfold plic_store, plic_load;
      fold PLIC_BASE in *;
      fold PLIC_PENDING PLIC_SENABLE PLIC_SPRIORITY PLIC_SCLAIM in *;
      rewrite H1, H2, H3, H4; cbn [negb Z.eqb Pos.eqb]; by destruct b.
Qed.

End Registers.

Section BlockDevice.
Context {kbd : keyboard_h}.

(** X6.  The block device answers 32-bit loads of its magic and version
    registers with 0x666F7864 and 1 and drops what is stored to them; each
    of the seven other registers that semu.h declares holds the low 32 bits
    of the value last stored to it. *)
Theorem disk_registers (b : struct_bus) (v : Z) :
  bus_load b DISK_MAGIC 32 = (b, Ok 0x666F7864)
  /\ bus_load b DISK_VERSION 32 = (b, Ok 0x01)
  /\ bus_store b DISK_MAGIC 32 v = (b, OK)
  /\ bus_store b DISK_VERSION 32 v = (b, OK)
  /\ (forall r,
        In r [DISK_NOTIFY; DISK_DIRECTION; DISK_BUFFER_ADDR_HIGH;
              DISK_BUFFER_ADDR_LOW; DISK_BUFFER_LEN_HIGH; DISK_BUFFER_LEN_LOW;
              DISK_SECTOR] ->
        (bus_store b r 32 v).2 = OK
        /\ (bus_load (bus_store b r 32 v).1 r 32).2 = Ok (uint32_t v)).
Proof.
  split; [reflexivity|]. split; [reflexivity|].
  split; [by destruct b|]. split; [by destruct b|].
  intros r Hr. cbn [In] in Hr.
  destruct Hr as [<- | [<- | [<- | [<- | [<- | [<- | [<- | []]]]]]]];
    split; reflexivity.
Qed.

End BlockDevice.

Lemma disk_store_notify vio v :
  disk_store vio DISK_NOTIFY 32 v = (disk_set vio DISK_NOTIFY (uint32_t v), OK).
Proof. reflexivity. Qed.

Lemma notify_disk_set vio x : notify (disk_set vio DISK_NOTIFY x) = x.
Proof. reflexivity. Qed.

(** X7.  A store to the notify register makes the block device interrupt
    exactly once, unless the low 32 bits of the stored value are all ones:
    [disk_is_interrupting] answers true and resets the register, and answers
    false from then on; a new device does not interrupt.  The check leaves
    the other registers and the disk image as they were. *)
Theorem disk_notify_once (vio : struct_disk) (image_ : gmap Z Z) (v : Z) :
  let vio1 := (disk_store vio DISK_NOTIFY 32 v).1 in
  let vio2 := (disk_is_interrupting vio1).2 in
  (disk_is_interrupting vio1).1 = negb (uint32_t v =? 2 ^ 32 - 1)
  /\ (disk_is_interrupting vio2).1 = false
  /\ (disk_is_interrupting (disk_new image_)).1 = false
  /\ notify vio2 = 2 ^ 32 - 1
  /\ (buffer_address_high vio2, buffer_address_low vio2,
      buffer_length_high vio2, buffer_length_low vio2,
      sector vio2, direction vio2, disk_done vio2, disk_data vio2)
     = (buffer_address_high vio, buffer_address_low vio,
        buffer_length_high vio, buffer_length_low vio,
        sector vio, direction vio, disk_done vio, disk_data vio).
Proof.
  cbv zeta. rewrite disk_store_notify. cbn [fst].
  unfold disk_is_interrupting. rewrite !notify_disk_set.
  change (uint32_t (-1)) with (2 ^ 32 - 1).
  destruct (uint32_t v =? 2 ^ 32 - 1) eqn:Hv; cbn [negb fst snd];
    rewrite ?notify_disk_set, ?Hv;
    change (2 ^ 32 - 1 =? 2 ^ 32 - 1) with true; cbn [negb fst snd];
    repeat split; try reflexivity.
  by apply Z.eqb_eq.
Qed.

(** ** The UART *)

Lemma uart_rx_set lsr : Z.land (uint8_t (Z.lor lsr UART_LSR_RX)) UART_LSR_RX = 1.
Proof.
  unfold uint8_t, UART_LSR_RX. apply Z.bits_inj'. intros i Hi.
  rewrite Z.land_spec, Z.testbit_mod_pow2, Z.lor_spec by lia.
  destruct (Z.eq_dec i 0) as [-> | Hne].
  - rewrite orb_comm. reflexivity.
  - replace (Z.testbit 1 i) with false; [by rewrite andb_false_r|].
    symmetry. change 1 with (2 ^ 0). rewrite Z.pow2_bits_eqb by lia.
    apply Z.eqb_neq. lia.
Qed.

Lemma uart_rx_cleared lsr :
  Z.land (uint8_t (Z.land lsr (Z.lnot UART_LSR_RX))) UART_LSR_RX = 0.
Proof.
  unfold uint8_t, UART_LSR_RX. apply Z.bits_inj'. intros i Hi.
  rewrite Z.land_spec, Z.testbit_mod_pow2, Z.land_spec, Z.testbit_0_l by lia.
  destruct (Z.eq_dec i 0) as [-> | Hne].
  - rewrite (andb_comm (Z.testbit lsr 0)). reflexivity.
  - replace (Z.testbit 1 i) with false; [by rewrite andb_false_r|].
    symmetry. change 1 with (2 ^ 0). rewrite Z.pow2_bits_eqb by lia.
    apply Z.eqb_neq. lia.
Qed.

(** X8.  When the input thread has delivered a character, the UART
    interrupts, and the thread waits with the next character until the
    guest has read the receive register: that 8-bit load returns the
    character, and after it the thread can deliver again.
    [uart_is_interrupting] reports the interrupt once. *)
Theorem uart_receive_handshake (u u1 : struct_uart) (c c' : Z) :
  uart_thread_func c u = Some u1 ->
  interrupting u1 = true
  /\ uart_thread_func c' u1 = None
  /\ (uart_load u1 UART_RHR 8).2 = Ok (uint8_t c)
  /\ is_Some (uart_thread_func c' (uart_load u1 UART_RHR 8).1)
  /\ (uart_is_interrupting u1).1 = true
  /\ (uart_is_interrupting (uart_is_interrupting u1).2).1 = false.
Proof.
  unfold uart_thread_func at 1. cbv zeta.
  destruct (_ =? 1); [discriminate|]. intros [= <-].
  split; [reflexivity|]. split.
  { unfold uart_thread_func. cbn [uart_data].
    by rewrite cell_insert_eq, uart_rx_set. }
  split.
  { unfold uart_load. cbn [negb Z.eqb Pos.eqb UART_RHR UART_BASE].
    change (8 =? 8) with true. cbn [negb].
    change (268435456 =? 268435456) with true. cbv iota. cbn [snd].
    unfold uart_set_data. cbn [uart_data].
    change (uint64_t (268435456 - 268435456)) with 0.
    rewrite cell_insert_ne by done. rewrite cell_insert_ne by done.
    by rewrite cell_insert_eq. }
  split.
  { unfold uart_load. change (negb (8 =? 8)) with false.
    change (UART_RHR =? UART_RHR) with true. cbv iota. cbn [fst].
    unfold uart_thread_func, uart_set_data. cbn [uart_data].
    rewrite cell_insert_eq, uart_rx_cleared. done. }
  split; reflexivity.
Qed.

Section Transmit.
Context {kbd : keyboard_h}.

Lemma bus_store_thr b c :
  bus_store b UART_THR 8 c
  = (bus_set_host b (putchar (Z.land c 0xff) (host b)), OK).
Proof. by destruct b. Qed.

(** X9.  The bytes stored to the transmit register of the UART reach
    standard output in the order of the stores, each cut to 8 bits, and the
    stores change nothing else. *)
Theorem uart_transmit (cs : list Z) (b : struct_bus) :
  bus_run b (map (fun c => Store UART_THR 8 c) cs)
  = bus_set_host b
      {| stdout := stdout (host b) ++ map (fun c => Z.land c 0xff) cs;
         keys := keys (host b) |}.
Proof.
  revert b. induction cs as [|c cs IH]; intros b.
  - cbn [map bus_run foldl]. rewrite app_nil_r. by destruct b as [? ? ? ? ? []].
  - cbn [map]. unfold bus_run in *. cbn [foldl bus_do].
    rewrite bus_store_thr. cbn [fst]. rewrite IH.
    unfold bus_set_host, putchar. cbn [stdout keys host ram clint plic uart disk].
    by rewrite <- app_assoc.
Qed.

End Transmit.

(** * Further properties of the hart *)

(** ** The supervisor view of the interrupt-enable register *)

Lemma sie_write_read mie m v :
  Z.land (Z.lor (Z.land mie (uint64_t (Z.lnot m))) (Z.land v m)) m = Z.land v m.
Proof.
  apply Z.bits_inj'. intros i Hi. unfold uint64_t.
  rewrite !Z.land_spec, Z.lor_spec, !Z.land_spec, Z.testbit_mod_pow2 by lia.
  rewrite Z.lnot_spec by lia.
  destruct (Z.testbit mie i), (Z.testbit m i), (Z.testbit v i), (i <? 64);
    reflexivity.
Qed.

Lemma sie_write_keeps mie m v :
  Z.land (Z.lor (Z.land mie (uint64_t (Z.lnot m))) (Z.land v m))
         (uint64_t (Z.lnot m))
  = Z.land mie (uint64_t (Z.lnot m)).
Proof.
  apply Z.bits_inj'. intros i Hi. unfold uint64_t.
  rewrite !Z.land_spec, Z.lor_spec, !Z.land_spec, Z.testbit_mod_pow2 by lia.
  rewrite Z.lnot_spec by lia.
  destruct (Z.testbit mie i), (Z.testbit m i), (Z.testbit v i), (i <? 64);
    reflexivity.
Qed.

(** X10.  [sie] is a view of [mie] through [mideleg]: a read of [sie]
    yields [mie & mideleg]; a write of [v] to [sie] makes the next read of
    [sie] yield [v & mideleg], leaves the bits of [mie] outside [mideleg]
    as they were, and changes no slot of the CSR file but that of [mie]. *)
Theorem sie_is_masked_mie (cpu : struct_cpu) (v : Z) :
  let mideleg := cpu_load_csr cpu MIDELEG in
  let cpu' := cpu_store_csr cpu SIE v in
  cpu_load_csr cpu SIE = Z.land (cpu_load_csr cpu MIE) mideleg
  /\ cpu_load_csr cpu' SIE = Z.land (uint64_t v) mideleg
  /\ Z.land (cpu_load_csr cpu' MIE) (uint64_t (Z.lnot mideleg))
     = Z.land (cpu_load_csr cpu MIE) (uint64_t (Z.lnot mideleg))
  /\ (forall a, a <> MIE -> cell (csrs cpu') a = cell (csrs cpu) a).
Proof.
  cbv zeta. unfold cpu_load_csr, cpu_store_csr.
  change (SIE =? SIE) with true. change (MIDELEG =? SIE) with false.
  change (MIE =? SIE) with false. cbv iota. cbn [csrs cpu_set_csrs].
  rewrite cell_insert_eq, (cell_insert_ne _ MIE MIDELEG) by done.
  split; [reflexivity|]. split; [apply sie_write_read|].
  split; [apply sie_write_keeps|].
  intros a Ha. by rewrite cell_insert_ne.
Qed.

(** X11.  Every CSR other than [sie] holds the 64 bits of the value last
    stored to it, and a store to it changes no other CSR, [sie] excepted
    when the store is to [mie] or [mideleg]. *)
Theorem csr_store_load (cpu : struct_cpu) (a v : Z) :
  a <> SIE ->
  cpu_load_csr (cpu_store_csr cpu a v) a = uint64_t v
  /\ (forall a', a' <> a -> a' <> SIE ->
        cpu_load_csr (cpu_store_csr cpu a v) a' = cpu_load_csr cpu a')
  /\ (a <> MIE -> a <> MIDELEG ->
      cpu_load_csr (cpu_store_csr cpu a v) SIE = cpu_load_csr cpu SIE).
Proof.
  intros Ha. split; [by apply load_store_csr_eq|]. split.
  - intros a' Hne Hs. by apply load_store_csr_ne.
  - intros Hm Hd. unfold cpu_load_csr, cpu_store_csr.
    rewrite (proj2 (Z.eqb_neq _ _) Ha). change (SIE =? SIE) with true.
    cbv iota. cbn [csrs cpu_set_csrs]. by rewrite !cell_insert_ne.
Qed.

Lemma csr_store_load_witness :
  cpu_load_csr (cpu_store_csr (cpu_new [] []) MTVEC (2 ^ 64 + 0x80000100)) MTVEC
  = uint64_t (2 ^ 64 + 0x80000100).
Proof.
  exact (proj1 (csr_store_load (cpu_new [] []) MTVEC (2 ^ 64 + 0x80000100)
                  ltac:(discriminate))).
Defined.

(** ** Address translation *)

Lemma truthy_land_1 x : truthy (Z.land x 1) = Z.testbit x 0.
Proof. rewrite <- (Z.shiftr_0_r x) at 1. by apply truthy_bit_of. Qed.

Lemma low12_shifted x k :
  12 <= k -> Z.land (uint64_t (Z.shiftl x k)) 0xfff = 0.
Proof.
  intros Hk. apply Z.bits_inj'. intros i Hi. unfold uint64_t.
  rewrite Z.land_spec, Z.testbit_mod_pow2, Z.testbit_0_l by lia.
  change 4095 with (Z.ones 12). rewrite Z.testbit_ones_nonneg by lia.
  destruct (Z.ltb_spec i 12); [|by rewrite andb_false_r].
  rewrite Z.shiftl_spec_low by lia. by rewrite andb_false_r.
Qed.

Lemma low12_offset a x :
  Z.land a 0xfff = 0 -> Z.land (Z.lor a (Z.land x 0xfff)) 0xfff = Z.land x 0xfff.
Proof.
  intros Ha. rewrite Z.land_lor_distr_l, Ha, Z.lor_0_l.
  rewrite <- Z.land_assoc. by rewrite Z.land_diag.
Qed.

Lemma low12_lor a b :
  Z.land a 0xfff = 0 -> Z.land b 0xfff = 0 -> Z.land (Z.lor a b) 0xfff = 0.
Proof. intros Ha Hb. by rewrite Z.land_lor_distr_l, Ha, Hb. Qed.

Section Translation.
Context {kbd : keyboard_h}.

(** A 64-bit load changes no device: the two devices whose loads have an
    effect refuse the size. *)
Lemma bus_load_64_pure b addr : (bus_load b addr 64).1 = b.
Proof.
  unfold bus_load.
  repeat match goal with
         | |- context [if ?c then _ else _] => destruct c
         end; try reflexivity.
  - unfold uart_load. change (negb (64 =? 8)) with true. by destruct b.
  - unfold kbd_load. change (negb (64 =? 32)) with true. by destruct b.
Qed.

Lemma walk_pure n : forall a addr e b, (walk n a addr e b).1 = b.
Proof.
  induction n as [|level IH]; intros a addr e b; cbn [walk]; [reflexivity|].
  pose proof (bus_load_64_pure b (uint64_t (a + vpn addr level * 8))) as Hb.
  destruct (bus_load b _ 64) as [b1 [pte|exc]]; cbn [fst] in Hb; subst b1;
    [|reflexivity].
  destruct (negb _ || _); [reflexivity|].
  destruct (_ || _); [reflexivity|]. apply IH.
Qed.

(** X12.  Address translation changes nothing in the machine; it is the
    identity while paging is disabled; and a successful translation keeps
    the 12 bits of the page offset. *)
Theorem cpu_translate_pure (cpu : struct_cpu) (addr : Z) (e : exception_t) :
  (cpu_translate cpu addr e).1 = cpu
  /\ (enable_paging cpu = false -> (cpu_translate cpu addr e).2 = Ok addr)
  /\ (forall pa, (cpu_translate cpu addr e).2 = Ok pa ->
        Z.land pa 0xfff = Z.land addr 0xfff).
Proof.
  unfold cpu_translate.
  destruct (enable_paging cpu) eqn:Hen; cbn [negb].
  2: { split; [reflexivity|]. split; [reflexivity|]. by intros pa [= <-]. }
  pose proof (walk_pure 3 (pagetable cpu) addr e (bus cpu)) as Hw.
  destruct (walk 3 _ _ _ _) as [b1 [[pte level]|exc]]; cbn [fst] in Hw;
    subst b1; rewrite cpu_set_bus_same.
  2: { split; [reflexivity|]. split; [discriminate|]. discriminate. }
  destruct level as [|[|[|level]]]; cbn [fst snd];
    (split; [reflexivity|]); (split; [discriminate|]);
    intros pa [= <-];
    repeat first [ apply low12_offset | apply low12_lor | apply low12_shifted ];
    lia.
Qed.

(** X13.  With paging enabled, the loads of the table walk are the only
    way a translation reaches the bus.  When the load of the root entry
    fails, the translation fails with the status of the bus; when the root
    entry is not valid, or is writable without being readable, it fails with
    the page fault the caller supplied; when the root entry is a leaf, the
    address is that of a 1 GiB page: PPN[2] of the entry above the low 30
    bits of the virtual address. *)
Theorem cpu_translate_root (cpu : struct_cpu) (addr : Z) (e : exception_t) :
  enable_paging cpu = true ->
  let entry := uint64_t (pagetable cpu + vpn addr 2 * 8) in
  match (bus_load (bus cpu) entry 64).2 with
  | Failed exc => (cpu_translate cpu addr e).2 = Failed exc
  | Ok pte =>
      let v := Z.testbit pte 0 in
      let r := Z.testbit pte 1 in
      let w := Z.testbit pte 2 in
      let x := Z.testbit pte 3 in
      (negb v || (negb r && w) = true ->
         (cpu_translate cpu addr e).2 = Failed e)
      /\ (v = true -> r || x = true -> negb r && w = false ->
          (cpu_translate cpu addr e).2
          = Ok (Z.lor (Z.lor (Z.lor
                  (uint64_t (Z.shiftl (Z.land (Z.shiftr pte 28) 0x03ffffff) 30))
                  (uint64_t (Z.shiftl (Z.land (Z.shiftr addr 21) 0x1ff) 21)))
                  (uint64_t (Z.shiftl (Z.land (Z.shiftr addr 12) 0x1ff) 12)))
                  (Z.land addr 0xfff)))
  end.
Proof.
  intros Hen. cbv zeta. unfold cpu_translate. rewrite Hen. cbn [negb walk].
  destruct (bus_load (bus cpu) _ 64) as [b1 [pte|exc]]; cbn [snd];
    [|reflexivity].
  rewrite truthy_land_1, !truthy_bit_of by lia. split.
  - intros ->. reflexivity.
  - intros Hv Hrx Hrw. rewrite Hv, Hrx, Hrw. reflexivity.
Qed.

End Translation.

Lemma cpu_translate_root_witness :
  (cpu_translate (kbd := example_keyboard)
     (cpu_set_paging (cpu_new [] []) true RAM_BASE) 0x1234 LOAD_PAGE_FAULT).2
  = Failed LOAD_PAGE_FAULT.
Proof.
  pose proof (cpu_translate_root (kbd := example_keyboard)
                (cpu_set_paging (cpu_new [] []) true RAM_BASE) 0x1234
                LOAD_PAGE_FAULT eq_refl) as H.
  cbv zeta in H.
  change (bus_load _ _ 64).2 with (Ok (A := Z) 0) in H. cbv iota in H.
  destruct H as [H _]. apply H. reflexivity.
Defined.

(** ** Trap entry and return *)

Lemma testbit_shiftl_1 k i :
  0 <= k -> 0 <= i -> Z.testbit (Z.shiftl 1 k) i = (i =? k).
Proof.
  intros. rewrite Z.shiftl_1_l, Z.pow2_bits_eqb by lia. apply Z.eqb_sym.
Qed.

Lemma trap_cause_range e intr : uint64_t (trap_cause e intr) = trap_cause e intr.
Proof. by destruct e, intr. Qed.

Section TrapEntry.
Context {kbd : keyboard_h}.

Lemma load_csr_set_mode c m a : cpu_load_csr (cpu_set_mode c m) a = cpu_load_csr c a.
Proof. reflexivity. Qed.

Lemma load_csr_set_pc c x a : cpu_load_csr (cpu_set_pc c x) a = cpu_load_csr c a.
Proof. reflexivity. Qed.

Lemma load_csr_trap_vector tvec i cause c a :
  cpu_load_csr (trap_vector tvec i cause c) a = cpu_load_csr c a.
Proof. unfold trap_vector. by destruct i. Qed.

Lemma testbit_load_csr_clear c a m i :
  a <> SIE -> 0 <= i < 64 ->
  Z.testbit (cpu_load_csr (csr_clear a m c) a) i
  = Z.testbit (cpu_load_csr c a) i && negb (Z.testbit m i).
Proof.
  intros Ha Hi. rewrite load_csr_clear by done. unfold uint64_t.
  rewrite Z.testbit_mod_pow2, Z.land_spec, Z.testbit_mod_pow2 by lia.
  rewrite Z.lnot_spec by lia.
  destruct (Z.ltb_spec i 64); [reflexivity|lia].
Qed.

Lemma testbit_load_csr_set c a m i :
  a <> SIE -> 0 <= i < 64 ->
  Z.testbit (cpu_load_csr (csr_set a m c) a) i
  = Z.testbit (cpu_load_csr c a) i || Z.testbit m i.
Proof.
  intros Ha Hi. rewrite load_csr_set by done. unfold uint64_t.
  rewrite Z.testbit_mod_pow2, Z.lor_spec by lia.
  destruct (Z.ltb_spec i 64); [reflexivity|lia].
Qed.

Lemma load_csr_clear_ne c a a' m :
  a <> SIE -> a' <> SIE -> a <> a' ->
  cpu_load_csr (csr_clear a m c) a' = cpu_load_csr c a'.
Proof. intros. unfold csr_clear. by apply load_store_csr_ne. Qed.

Lemma load_csr_set_ne c a a' m :
  a <> SIE -> a' <> SIE -> a <> a' ->
  cpu_load_csr (csr_set a m c) a' = cpu_load_csr c a'.
Proof. intros. unfold csr_set. by apply load_store_csr_ne. Qed.

(** Reads of a CSR through the stores of the trap entry. *)
Ltac trap_reads :=
  repeat first
    [ rewrite load_csr_clear_ne by done
    | rewrite load_csr_set_ne by done
    | rewrite load_store_csr_eq by done
    | rewrite load_store_csr_ne by done
    | rewrite load_csr_trap_vector
    | rewrite load_csr_set_mode
    | rewrite load_csr_set_pc ].

Lemma pc_csr_clear c a m : pc (csr_clear a m c) = pc c.
Proof. apply pc_store_csr. Qed.
Lemma pc_csr_set c a m : pc (csr_set a m c) = pc c.
Proof. apply pc_store_csr. Qed.
Lemma regs_csr_clear c a m : regs (csr_clear a m c) = regs c.
Proof. apply regs_store_csr. Qed.
Lemma regs_csr_set c a m : regs (csr_set a m c) = regs c.
Proof. apply regs_store_csr. Qed.
Lemma bus_csr_clear c a m : bus (csr_clear a m c) = bus c.
Proof. apply bus_store_csr. Qed.
Lemma bus_csr_set c a m : bus (csr_set a m c) = bus c.
Proof. apply bus_store_csr. Qed.
Lemma mode_csr_clear c a m : mode (csr_clear a m c) = mode c.
Proof. apply mode_store_csr. Qed.
Lemma mode_csr_set c a m : mode (csr_set a m c) = mode c.
Proof. apply mode_store_csr. Qed.

Lemma regs_trap_vector tvec i cause c : regs (trap_vector tvec i cause c) = regs c.
Proof. unfold trap_vector. by destruct i. Qed.
Lemma bus_trap_vector tvec i cause c : bus (trap_vector tvec i cause c) = bus c.
Proof. unfold trap_vector. by destruct i. Qed.
Lemma mode_trap_vector tvec i cause c : mode (trap_vector tvec i cause c) = mode c.
Proof. unfold trap_vector. by destruct i. Qed.

(** The fields of the hart through the stores of the trap entry. *)
Ltac trap_fields :=
  repeat first
    [ rewrite pc_csr_clear | rewrite pc_csr_set | rewrite pc_store_csr
    | rewrite regs_csr_clear | rewrite regs_csr_set | rewrite regs_store_csr
    | rewrite bus_csr_clear | rewrite bus_csr_set | rewrite bus_store_csr
    | rewrite mode_csr_clear | rewrite mode_csr_set | rewrite mode_store_csr
    | rewrite regs_trap_vector | rewrite bus_trap_vector
    | rewrite mode_trap_vector ].

Ltac bits_done :=
  cbn [Z.eqb Pos.eqb negb orb andb];
  rewrite ?orb_false_r, ?orb_true_r, ?andb_true_r, ?andb_false_r;
  try reflexivity.

Lemma shiftl_3_11_bits i :
  0 <= i -> Z.testbit (Z.shiftl 3 11) i = (i =? 11) || (i =? 12).
Proof.
  intros Hi. destruct (Z.ltb_spec i 11).
  - rewrite Z.shiftl_spec_low by lia.
    symmetry. apply orb_false_iff. split; apply Z.eqb_neq; lia.
  - rewrite Z.shiftl_spec by lia. change 3 with (Z.ones 2).
    rewrite Z.testbit_ones_nonneg by lia.
    destruct (Z.ltb_spec (i - 11) 2), (Z.eqb_spec i 11), (Z.eqb_spec i 12);
      cbn [orb]; try reflexivity; lia.
Qed.

(** [mstatus] after a trap taken in Machine mode, bit by bit. *)
Lemma trap_machine_mstatus cpu e intr i :
  trap_delegated cpu e intr = false -> 0 <= i < 64 ->
  Z.testbit (cpu_load_csr (cpu_take_trap cpu e intr) MSTATUS) i
  = if i =? 3 then false
    else if i =? 7 then Z.testbit (cpu_load_csr cpu MSTATUS) 3
    else if (i =? 11) || (i =? 12) then false
    else Z.testbit (cpu_load_csr cpu MSTATUS) i.
Proof.
  intros Hd Hi. unfold cpu_take_trap. rewrite Hd. cbv zeta.
  rewrite truthy_bit_of by lia. trap_reads.
  rewrite testbit_load_csr_clear, testbit_load_csr_clear by (done || lia).
  rewrite testbit_shiftl_1, shiftl_3_11_bits by lia.
  destruct (Z.testbit (cpu_load_csr cpu MSTATUS) 3) eqn:Hmie;
    [rewrite testbit_load_csr_set by (done || lia)
    |rewrite testbit_load_csr_clear by (done || lia)];
    trap_reads; rewrite testbit_shiftl_1 by lia;
    (destruct (Z.eqb_spec i 3) as [-> | H3]; [bits_done|]);
    (destruct (Z.eqb_spec i 7) as [-> | H7]; [bits_done|]);
    destruct ((i =? 11) || (i =? 12)); bits_done.
Qed.

(** [sstatus] after a delegated trap, bit by bit. *)
Lemma trap_supervisor_sstatus cpu e intr i :
  trap_delegated cpu e intr = true -> 0 <= i < 64 ->
  Z.testbit (cpu_load_csr (cpu_take_trap cpu e intr) SSTATUS) i
  = if i =? 1 then false
    else if i =? 5 then Z.testbit (cpu_load_csr cpu SSTATUS) 1
    else if i =? 8 then negb (is_USER (mode cpu))
    else Z.testbit (cpu_load_csr cpu SSTATUS) i.
Proof.
  intros Hd Hi. unfold cpu_take_trap. rewrite Hd. cbv zeta.
  rewrite truthy_bit_of by lia. trap_reads.
  destruct (is_USER (mode cpu));
    [rewrite testbit_load_csr_clear by (done || lia)
    |rewrite testbit_load_csr_set by (done || lia)];
    rewrite testbit_load_csr_clear by (done || lia);
    rewrite !testbit_shiftl_1 by lia;
    (destruct (Z.testbit (cpu_load_csr cpu SSTATUS) 1) eqn:Hsie;
     [rewrite testbit_load_csr_set by (done || lia)
     |rewrite testbit_load_csr_clear by (done || lia)]);
    trap_reads; rewrite testbit_shiftl_1 by lia;
    (destruct (Z.eqb_spec i 1) as [-> | H1]; [bits_done|]);
    (destruct (Z.eqb_spec i 5) as [-> | H5]; [bits_done|]);
    (destruct (Z.eqb_spec i 8) as [-> | H8]; bits_done).
Qed.

Lemma trap_machine_mepc cpu e intr :
  trap_delegated cpu e intr = false ->
  cpu_load_csr (cpu_take_trap cpu e intr) MEPC
  = Z.land (uint64_t (pc cpu - 4)) (uint64_t (Z.lnot 1)).
Proof.
  intros Hd. unfold cpu_take_trap. rewrite Hd. cbv zeta.
  destruct (truthy _); trap_reads; apply uint64_t_land_mask.
Qed.

Lemma trap_supervisor_sepc cpu e intr :
  trap_delegated cpu e intr = true ->
  cpu_load_csr (cpu_take_trap cpu e intr) SEPC
  = Z.land (uint64_t (pc cpu - 4)) (uint64_t (Z.lnot 1)).
Proof.
  intros Hd. unfold cpu_take_trap. rewrite Hd. cbv zeta.
  destruct (is_USER (mode cpu)), (truthy _); trap_reads;
    apply uint64_t_land_mask.
Qed.

Lemma mode_take_trap cpu e intr :
  mode (cpu_take_trap cpu e intr)
  = if trap_delegated cpu e intr then SUPERVISOR else MACHINE.
Proof.
  unfold cpu_take_trap. cbv zeta.
  destruct (trap_delegated cpu e intr), (is_USER (mode cpu));
    repeat match goal with
           | |- context [if truthy ?x then _ else _] => destruct (truthy x)
           end;
    trap_fields; reflexivity.
Qed.

Lemma trap_machine_mcause cpu e intr :
  trap_delegated cpu e intr = false ->
  cpu_load_csr (cpu_take_trap cpu e intr) MCAUSE = trap_cause e intr.
Proof.
  intros Hd. unfold cpu_take_trap. rewrite Hd. cbv zeta.
  destruct (truthy _); trap_reads; apply trap_cause_range.
Qed.

Lemma trap_machine_exception_pc cpu e :
  trap_delegated cpu e NONE = false ->
  pc (cpu_take_trap cpu e NONE)
  = Z.land (cpu_load_csr cpu MTVEC) (uint64_t (Z.lnot 1)).
Proof.
  intros Hd. unfold cpu_take_trap. rewrite Hd. cbv zeta.
  destruct (truthy _); trap_fields; reflexivity.
Qed.

Lemma trap_machine_mtvec cpu e intr :
  trap_delegated cpu e intr = false ->
  cpu_load_csr (cpu_take_trap cpu e intr) MTVEC = cpu_load_csr cpu MTVEC.
Proof.
  intros Hd. unfold cpu_take_trap. rewrite Hd. cbv zeta.
  destruct (truthy _); trap_reads; reflexivity.
Qed.

(** X14.  A trap that is not delegated enters Machine mode at the vector
    of [mtvec]: at its base for an exception and, for an interrupt, at the
    base plus four times the cause when bit 0 of [mtvec] is set.  [mepc]
    receives the address of the trapping instruction, [pc - 4] with bit 0
    cleared, [mcause] the cause, [mtval] zero; in [mstatus] MIE is cleared
    and MPIE receives the old MIE.  Registers and bus are left alone. *)
Theorem take_trap_machine (cpu : struct_cpu) (e : exception_t) (intr : interrupt_t) :
  trap_delegated cpu e intr = false ->
  let cpu' := cpu_take_trap cpu e intr in
  let base := Z.land (cpu_load_csr cpu MTVEC) (uint64_t (Z.lnot 1)) in
  mode cpu' = MACHINE
  /\ pc cpu'
     = (if is_NONE intr then base
        else uint64_t (base + (if Z.testbit (cpu_load_csr cpu MTVEC) 0
                               then uint64_t (4 * trap_cause e intr) else 0)))
  /\ cpu_load_csr cpu' MEPC = Z.land (uint64_t (pc cpu - 4)) (uint64_t (Z.lnot 1))
  /\ cpu_load_csr cpu' MCAUSE = trap_cause e intr
  /\ cpu_load_csr cpu' MTVAL = 0
  /\ Z.testbit (cpu_load_csr cpu' MSTATUS) 3 = false
  /\ Z.testbit (cpu_load_csr cpu' MSTATUS) 7 = Z.testbit (cpu_load_csr cpu MSTATUS) 3
  /\ regs cpu' = regs cpu
  /\ bus cpu' = bus cpu.
Proof.
  intros Hd. cbv zeta. unfold cpu_take_trap. rewrite Hd. cbv zeta.
  rewrite truthy_bit_of by lia. trap_reads.
  set (mie := Z.testbit (cpu_load_csr cpu MSTATUS) 3).
  split.
  { trap_fields. destruct mie; trap_fields; reflexivity. }
  split.
  { trap_fields. destruct mie; trap_fields; unfold trap_vector;
      destruct (is_NONE intr); cbn [negb pc cpu_set_pc];
      rewrite ?load_csr_set_mode, ?truthy_land_1; reflexivity. }
  split.
  { destruct mie; trap_reads; apply uint64_t_land_mask. }
  split.
  { destruct mie; trap_reads; apply trap_cause_range. }
  split.
  { destruct mie; trap_reads; reflexivity. }
  split.
  { rewrite testbit_load_csr_clear, testbit_load_csr_clear by (done || lia).
    rewrite !testbit_shiftl_1 by lia. cbn [Z.eqb Pos.eqb negb].
    by rewrite andb_false_r. }
  split.
  { rewrite testbit_load_csr_clear, testbit_load_csr_clear by (done || lia).
    rewrite testbit_shiftl_1 by lia.
    change (Z.testbit (Z.shiftl 3 11) 7) with false.
    cbn [Z.eqb Pos.eqb negb]. rewrite !andb_true_r.
    destruct mie eqn:Hmie.
    - rewrite testbit_load_csr_set by (done || lia). trap_reads.
      rewrite testbit_shiftl_1 by lia. apply orb_true_r.
    - rewrite testbit_load_csr_clear by (done || lia). trap_reads.
      rewrite testbit_shiftl_1 by lia. apply andb_false_r. }
  split.
  { trap_fields. destruct mie; trap_fields; reflexivity. }
  { trap_fields. destruct mie; trap_fields; reflexivity. }
Qed.

Lemma xret_status_eq csr ie pie pp c :
  0 <= pie ->
  xret_status csr ie pie pp c
  = csr_clear csr pp
      (csr_set csr (Z.shiftl 1 pie)
         (if Z.testbit (cpu_load_csr c csr) pie
          then csr_set csr (Z.shiftl 1 ie) c
          else csr_clear csr (Z.shiftl 1 ie) c)).
Proof.
  intros. unfold xret_status, csr_clear, csr_set. cbv zeta.
  rewrite truthy_bit_of by done.
  by destruct (Z.testbit (cpu_load_csr c csr) pie).
Qed.

(** The status register after the three stores of [sret] and [mret]. *)
Lemma xret_status_bits csr ie pie pp c i :
  csr <> SIE -> 0 <= ie < 64 -> 0 <= pie < 64 -> 0 <= i < 64 ->
  Z.testbit (cpu_load_csr (xret_status csr ie pie pp c) csr) i
  = ((if i =? ie then Z.testbit (cpu_load_csr c csr) pie
      else Z.testbit (cpu_load_csr c csr) i)
     || (i =? pie))
    && negb (Z.testbit pp i).
Proof.
  intros Hcsr Hie Hpie Hi. rewrite xret_status_eq by lia.
  rewrite testbit_load_csr_clear, testbit_load_csr_set by done.
  rewrite testbit_shiftl_1 by lia. f_equal. f_equal.
  destruct (Z.testbit (cpu_load_csr c csr) pie) eqn:Hp.
  - rewrite testbit_load_csr_set, testbit_shiftl_1 by (done || lia).
    destruct (i =? ie); [apply orb_true_r|apply orb_false_r].
  - rewrite testbit_load_csr_clear, testbit_shiftl_1 by (done || lia).
    destruct (i =? ie); [apply andb_false_r|apply andb_true_r].
Qed.

Lemma mode_xret_status csr ie pie pp c : mode (xret_status csr ie pie pp c) = mode c.
Proof. unfold xret_status. cbv zeta. by rewrite !mode_store_csr. Qed.

Lemma pc_xret_status csr ie pie pp c : pc (xret_status csr ie pie pp c) = pc c.
Proof. unfold xret_status. cbv zeta. by rewrite !pc_store_csr. Qed.

Lemma sret_pc cpu : pc (sret cpu) = cpu_load_csr cpu SEPC.
Proof. unfold sret. cbv zeta. by rewrite pc_xret_status. Qed.

Lemma sret_mode cpu :
  mode (sret cpu)
  = if Z.testbit (cpu_load_csr cpu SSTATUS) 8 then SUPERVISOR else USER.
Proof.
  unfold sret. cbv zeta. rewrite mode_xret_status. cbn [mode cpu_set_mode].
  by rewrite load_csr_set_pc, truthy_bit_of by lia.
Qed.

Lemma sret_sstatus cpu i :
  0 <= i < 64 ->
  Z.testbit (cpu_load_csr (sret cpu) SSTATUS) i
  = if i =? 1 then Z.testbit (cpu_load_csr cpu SSTATUS) 5
    else if i =? 5 then true
    else if i =? 8 then false
    else Z.testbit (cpu_load_csr cpu SSTATUS) i.
Proof.
  intros Hi. unfold sret. cbv zeta.
  rewrite xret_status_bits by (done || lia).
  rewrite load_csr_set_mode, load_csr_set_pc, testbit_shiftl_1 by lia.
  destruct (Z.eqb_spec i 1) as [-> | H1]; [bits_done|].
  destruct (Z.eqb_spec i 5) as [-> | H5]; [bits_done|].
  destruct (Z.eqb_spec i 8) as [-> | H8]; bits_done.
Qed.

Lemma mret_pc cpu : pc (mret cpu) = cpu_load_csr cpu MEPC.
Proof. unfold mret. cbv zeta. by rewrite pc_xret_status. Qed.

Lemma mret_mode cpu :
  mode (mret cpu)
  = let mpp := Z.land (Z.shiftr (cpu_load_csr cpu MSTATUS) 11) 3 in
    if mpp =? 2 then MACHINE else if mpp =? 1 then SUPERVISOR else USER.
Proof.
  unfold mret. cbv zeta. rewrite mode_xret_status. cbn [mode cpu_set_mode].
  by rewrite load_csr_set_pc.
Qed.

Lemma mret_mstatus cpu i :
  0 <= i < 64 ->
  Z.testbit (cpu_load_csr (mret cpu) MSTATUS) i
  = if i =? 3 then Z.testbit (cpu_load_csr cpu MSTATUS) 7
    else if i =? 7 then true
    else if (i =? 11) || (i =? 12) then false
    else Z.testbit (cpu_load_csr cpu MSTATUS) i.
Proof.
  intros Hi. unfold mret. cbv zeta.
  rewrite xret_status_bits by (done || lia).
  rewrite load_csr_set_mode, load_csr_set_pc, shiftl_3_11_bits by lia.
  destruct (Z.eqb_spec i 3) as [-> | H3]; [bits_done|].
  destruct (Z.eqb_spec i 7) as [-> | H7]; [bits_done|].
  destruct ((i =? 11) || (i =? 12)); bits_done.
Qed.

(** The previous-privilege field of [mstatus] as a number. *)
Lemma mpp_of_bits x :
  Z.testbit x 11 = false -> Z.testbit x 12 = false ->
  Z.land (Z.shiftr x 11) 3 = 0.
Proof.
  intros H11 H12. apply Z.bits_inj'. intros n Hn.
  rewrite Z.land_spec, Z.shiftr_spec, Z.bits_0 by lia.
  change 3 with (Z.ones 2). rewrite Z.testbit_ones_nonneg by lia.
  destruct (Z.ltb_spec n 2); [|apply andb_false_r].
  assert (n = 0 \/ n = 1) as [-> | ->] by lia;
    [change (0 + 11) with 11; rewrite H11
    |change (1 + 11) with 12; rewrite H12]; reflexivity.
Qed.

Lemma cpu_execute_0x73 cpu insn :
  insn_opcode insn = 0x73 ->
  cpu_execute cpu insn
  = let '(c, r) :=
      execute_0x73 insn (insn_rd insn) (insn_rs1 insn) (insn_rs2 insn)
                   (insn_funct3 insn) (insn_funct7 insn) (set_reg cpu 0 0) in
    (c, status r).
Proof.
  unfold insn_opcode, insn_rd, insn_rs1, insn_rs2, insn_funct3, insn_funct7.
  intros Hop. unfold cpu_execute. cbv zeta. rewrite Hop. reflexivity.
Qed.

Lemma bus_xret_status csr ie pie pp c : bus (xret_status csr ie pie pp c) = bus c.
Proof. unfold xret_status. cbv zeta. by rewrite !bus_store_csr. Qed.

Lemma regs_xret_status csr ie pie pp c : regs (xret_status csr ie pie pp c) = regs c.
Proof. unfold xret_status. cbv zeta. by rewrite !regs_store_csr. Qed.

(** The return instructions overwrite the mode without reading it. *)
Lemma sret_any_mode c md : sret (cpu_set_mode c md) = sret c.
Proof. reflexivity. Qed.

Lemma mret_any_mode c md : mret (cpu_set_mode c md) = mret c.
Proof. reflexivity. Qed.

(** X15.  The instruction words that [cpu_execute] decodes as [sret]
    (opcode 0x73, funct3 0, rs2 2, funct7 0x8) and as [mret] (funct7 0x18)
    complete without an exception in every mode, and their result does not
    depend on the mode the hart is in.  They return to [sepc] and [mepc].
    In the status register the enable bit (SIE, MIE) takes the value of the
    previous-enable bit (SPIE, MPIE), which is set, the previous-privilege
    field (SPP, MPP) is cleared, and the other bits stay.  [sret] enters
    Supervisor mode when SPP was 1 and User mode otherwise; [mret] enters
    Machine mode when MPP was 2, Supervisor mode when it was 1, and User
    mode when it was 0 or 3.  The bus is unchanged, and so are the
    registers but for register 0, which is cleared. *)
Theorem xret_effect (cpu : struct_cpu) (insn : Z) :
  insn_opcode insn = 0x73 -> insn_funct3 insn = 0 -> insn_rs2 insn = 2 ->
  let sstatus := cpu_load_csr cpu SSTATUS in
  let mstatus := cpu_load_csr cpu MSTATUS in
  let mpp := Z.land (Z.shiftr mstatus 11) 3 in
  let cpu' := (cpu_execute cpu insn).1 in
  (insn_funct7 insn = 0x8 ->
   (cpu_execute cpu insn).2 = OK
   /\ (forall md, cpu_execute (cpu_set_mode cpu md) insn = cpu_execute cpu insn)
   /\ pc cpu' = cpu_load_csr cpu SEPC
   /\ mode cpu' = (if Z.testbit sstatus 8 then SUPERVISOR else USER)
   /\ (forall i, 0 <= i < 64 ->
         Z.testbit (cpu_load_csr cpu' SSTATUS) i
         = if i =? 1 then Z.testbit sstatus 5
           else if i =? 5 then true
           else if i =? 8 then false
           else Z.testbit sstatus i)
   /\ bus cpu' = bus cpu /\ regs cpu' = regs (set_reg cpu 0 0))
  /\ (insn_funct7 insn = 0x18 ->
      (cpu_execute cpu insn).2 = OK
      /\ (forall md, cpu_execute (cpu_set_mode cpu md) insn = cpu_execute cpu insn)
      /\ pc cpu' = cpu_load_csr cpu MEPC
      /\ mode cpu'
         = (if mpp =? 2 then MACHINE else if mpp =? 1 then SUPERVISOR else USER)
      /\ (forall i, 0 <= i < 64 ->
            Z.testbit (cpu_load_csr cpu' MSTATUS) i
            = if i =? 3 then Z.testbit mstatus 7
              else if i =? 7 then true
              else if (i =? 11) || (i =? 12) then false
              else Z.testbit mstatus i)
      /\ bus cpu' = bus cpu /\ regs cpu' = regs (set_reg cpu 0 0)).
Proof.
  intros Hop Hf3 Hrs2. cbv zeta.
  assert (Hdec : forall c,
            cpu_execute c insn
            = if insn_funct7 insn =? 0x8 then (sret (set_reg c 0 0), OK)
              else if insn_funct7 insn =? 0x18 then (mret (set_reg c 0 0), OK)
              else cpu_execute c insn).
  { intros c. rewrite cpu_execute_0x73 by done.
    unfold execute_0x73. cbv zeta. rewrite Hf3, Hrs2.
    cbn [Z.eqb Pos.eqb andb]. unfold step.
    destruct (insn_funct7 insn =? 0x8); [reflexivity|].
    destruct (insn_funct7 insn =? 0x18); reflexivity. }
  split; intros Hf7.
  - assert (Hs : forall c, cpu_execute c insn = (sret (set_reg c 0 0), OK))
      by (intros c; rewrite Hdec, Hf7; reflexivity).
    rewrite Hs. cbn [fst snd].
    split; [reflexivity|].
    split. { intros md. rewrite Hs.
             change (set_reg (cpu_set_mode cpu md) 0 0)
               with (cpu_set_mode (set_reg cpu 0 0) md).
             by rewrite sret_any_mode. }
    split; [exact (sret_pc (set_reg cpu 0 0))|].
    split; [exact (sret_mode (set_reg cpu 0 0))|].
    split; [exact (sret_sstatus (set_reg cpu 0 0))|].
    split.
    + unfold sret. cbv zeta. by rewrite bus_xret_status.
    + unfold sret. cbv zeta. by rewrite regs_xret_status.
  - assert (Hm : forall c, cpu_execute c insn = (mret (set_reg c 0 0), OK))
      by (intros c; rewrite Hdec, Hf7; reflexivity).
    rewrite Hm. cbn [fst snd].
    split; [reflexivity|].
    split. { intros md. rewrite Hm.
             change (set_reg (cpu_set_mode cpu md) 0 0)
               with (cpu_set_mode (set_reg cpu 0 0) md).
             by rewrite mret_any_mode. }
    split; [exact (mret_pc (set_reg cpu 0 0))|].
    split; [exact (mret_mode (set_reg cpu 0 0))|].
    split; [exact (mret_mstatus (set_reg cpu 0 0))|].
    split.
    + unfold mret. cbv zeta. by rewrite bus_xret_status.
    + unfold mret. cbv zeta. by rewrite regs_xret_status.
Qed.

(** X16.  A trap that is delegated enters Supervisor mode with [sepc]
    the address of the trapping instruction, [scause] the cause and
    [stval] zero, and with SIE cleared; the [sret] that follows returns to
    that address in the mode the hart was in, with SIE as it was before the
    trap. *)
Theorem delegated_trap_sret (cpu : struct_cpu) (e : exception_t) (intr : interrupt_t) :
  trap_delegated cpu e intr = true ->
  let cpu' := cpu_take_trap cpu e intr in
  mode cpu' = SUPERVISOR
  /\ cpu_load_csr cpu' SEPC = Z.land (uint64_t (pc cpu - 4)) (uint64_t (Z.lnot 1))
  /\ cpu_load_csr cpu' SCAUSE = trap_cause e intr
  /\ cpu_load_csr cpu' STVAL = 0
  /\ Z.testbit (cpu_load_csr cpu' SSTATUS) 1 = false
  /\ mode (sret cpu') = mode cpu
  /\ pc (sret cpu') = Z.land (uint64_t (pc cpu - 4)) (uint64_t (Z.lnot 1))
  /\ Z.testbit (cpu_load_csr (sret cpu') SSTATUS) 1
     = Z.testbit (cpu_load_csr cpu SSTATUS) 1.
Proof.
  intros Hd. cbv zeta.
  assert (Hmode : mode cpu = USER \/ mode cpu = SUPERVISOR).
  { unfold trap_delegated in Hd. apply andb_true_iff in Hd as [Hm _].
    destruct (mode cpu); [by left|by right|discriminate]. }
  pose proof (trap_supervisor_sstatus cpu e intr 1 Hd ltac:(lia)) as Hb1.
  pose proof (trap_supervisor_sstatus cpu e intr 5 Hd ltac:(lia)) as Hb5.
  pose proof (trap_supervisor_sstatus cpu e intr 8 Hd ltac:(lia)) as Hb8.
  cbn [Z.eqb Pos.eqb] in Hb1, Hb5, Hb8.
  split.
  { unfold cpu_take_trap. rewrite Hd. cbv zeta.
    destruct (is_USER (mode cpu)), (truthy _); trap_fields; reflexivity. }
  split; [by apply trap_supervisor_sepc|]. split.
  { unfold cpu_take_trap. rewrite Hd. cbv zeta.
    destruct (is_USER (mode cpu)), (truthy _); trap_reads;
      apply trap_cause_range. }
  split.
  { unfold cpu_take_trap. rewrite Hd. cbv zeta.
    destruct (is_USER (mode cpu)), (truthy _); trap_reads; reflexivity. }
  split; [exact Hb1|]. split.
  { rewrite sret_mode, Hb8. by destruct Hmode as [-> | ->]. }
  split; [by rewrite sret_pc, trap_supervisor_sepc|].
  rewrite sret_sstatus by lia. cbn [Z.eqb Pos.eqb]. exact Hb5.
Qed.

(** X17.  The [mret] that follows a trap taken in Machine mode returns to
    the address of the trapping instruction, with MIE as it was before the
    trap, and enters User mode, whatever the mode the hart was in when it
    trapped. *)
Theorem machine_trap_mret (cpu : struct_cpu) (e : exception_t) (intr : interrupt_t) :
  trap_delegated cpu e intr = false ->
  let cpu' := mret (cpu_take_trap cpu e intr) in
  mode cpu' = USER
  /\ pc cpu' = Z.land (uint64_t (pc cpu - 4)) (uint64_t (Z.lnot 1))
  /\ Z.testbit (cpu_load_csr cpu' MSTATUS) 3
     = Z.testbit (cpu_load_csr cpu MSTATUS) 3.
Proof.
  intros Hd. cbv zeta.
  pose proof (trap_machine_mstatus cpu e intr 7 Hd ltac:(lia)) as Hb7.
  pose proof (trap_machine_mstatus cpu e intr 11 Hd ltac:(lia)) as Hb11.
  pose proof (trap_machine_mstatus cpu e intr 12 Hd ltac:(lia)) as Hb12.
  cbn [Z.eqb Pos.eqb orb] in Hb7, Hb11, Hb12.
  split.
  { rewrite mret_mode. cbv zeta. by rewrite (mpp_of_bits _ Hb11 Hb12). }
  split; [by rewrite mret_pc, trap_machine_mepc|].
  rewrite mret_mstatus by lia. cbn [Z.eqb Pos.eqb]. exact Hb7.
Qed.

End TrapEntry.
Lemma uart_receive_handshake_witness :
  exists u1,
    uart_thread_func 0x41 uart_new = Some u1
    /\ uart_thread_func 0x42 u1 = None
    /\ (uart_load u1 UART_RHR 8).2 = Ok (uint8_t 0x41).
Proof.
  destruct (uart_thread_func 0x41 uart_new) as [u1|] eqn:H;
    [|vm_compute in H; discriminate].
  exists u1. split; [reflexivity|].
  pose proof (uart_receive_handshake uart_new u1 0x41 0x42 H) as (_ & Hw & Hl & _).
  exact (conj Hw Hl).
Defined.

Lemma xret_effect_witness :
  mode example_delegating_cpu = USER
  /\ (cpu_execute (kbd := example_keyboard) example_delegating_cpu SRET).2 = OK
  /\ pc (cpu_execute (kbd := example_keyboard) example_delegating_cpu SRET).1
     = cpu_load_csr example_delegating_cpu SEPC
  /\ Z.testbit
       (cpu_load_csr
          (cpu_execute (kbd := example_keyboard) example_delegating_cpu SRET).1
          SSTATUS) 5 = true
  /\ (cpu_execute (kbd := example_keyboard) example_delegating_cpu MRET).2 = OK
  /\ mode (cpu_execute (kbd := example_keyboard) example_delegating_cpu MRET).1
     = USER.
Proof.
  destruct (xret_effect (kbd := example_keyboard) example_delegating_cpu SRET
              eq_refl eq_refl eq_refl) as [Hs _].
  destruct (Hs eq_refl) as (Hok & _ & Hpc & _ & Hbits & _).
  destruct (xret_effect (kbd := example_keyboard) example_delegating_cpu MRET
              eq_refl eq_refl eq_refl) as [_ Hm].
  destruct (Hm eq_refl) as (Hok' & _ & _ & Hmode & _).
  split; [reflexivity|]. split; [exact Hok|]. split; [exact Hpc|].
  split; [exact (Hbits 5 ltac:(lia))|]. split; [exact Hok'|exact Hmode].
Defined.

Lemma take_trap_machine_witness :
  mode (cpu_take_trap example_pending_cpu ILLEGAL_INSTRUCTION NONE) = MACHINE
  /\ cpu_load_csr (cpu_take_trap example_pending_cpu ILLEGAL_INSTRUCTION NONE) MCAUSE
     = trap_cause ILLEGAL_INSTRUCTION NONE.
Proof.
  pose proof (take_trap_machine example_pending_cpu
                ILLEGAL_INSTRUCTION NONE eq_refl) as (Hm & _ & _ & Hc & _).
  exact (conj Hm Hc).
Defined.

Lemma delegated_trap_sret_witness :
  mode (cpu_take_trap example_delegating_cpu ECALL_FROM_UMODE NONE) = SUPERVISOR
  /\ mode (sret (cpu_take_trap example_delegating_cpu ECALL_FROM_UMODE NONE))
     = mode example_delegating_cpu.
Proof.
  pose proof (delegated_trap_sret example_delegating_cpu
                ECALL_FROM_UMODE NONE ltac:(vm_compute; reflexivity))
    as (Hm & _ & _ & _ & _ & Hr & _).
  exact (conj Hm Hr).
Defined.

Lemma machine_trap_mret_witness :
  mode (mret (cpu_take_trap example_pending_cpu ILLEGAL_INSTRUCTION NONE)) = USER.
Proof.
  exact (proj1 (machine_trap_mret example_pending_cpu
                  ILLEGAL_INSTRUCTION NONE eq_refl)).
Defined.

(** ** Division of double words *)

Lemma int64_t_uint64_t v :
  - 2 ^ 63 <= v < 2 ^ 63 -> int64_t (uint64_t v) = v.
Proof.
  intros Hv. unfold int64_t, signed, uint64_t. cbv zeta.
  rewrite Z.mod_mod by lia. change (64 - 1) with 63.
  destruct (Z.ltb_spec v 0).
  - replace (v mod 2 ^ 64) with (v + 2 ^ 64)
      by (apply Z.mod_unique with (-1); lia).
    destruct (Z.ltb_spec (v + 2 ^ 64) (2 ^ 63)); lia.
  - rewrite Z.mod_small by lia.
    destruct (Z.ltb_spec v (2 ^ 63)); lia.
Qed.

Lemma int64_t_range z : - 2 ^ 63 <= int64_t z < 2 ^ 63.
Proof.
  unfold int64_t, signed. cbv zeta. change (64 - 1) with 63.
  pose proof (Z.mod_pos_bound z (2 ^ 64) ltac:(lia)).
  destruct (Z.ltb_spec (z mod 2 ^ 64) (2 ^ 63)); lia.
Qed.

Lemma int64_t_eq_0 y : 0 <= y < 2 ^ 64 -> (int64_t y =? 0) = (y =? 0).
Proof.
  intros Hy. unfold int64_t, signed. cbv zeta. change (64 - 1) with 63.
  rewrite Z.mod_small by lia.
  destruct (Z.ltb_spec y (2 ^ 63)), (Z.eqb_spec y 0);
    try reflexivity; apply Z.eqb_neq || apply Z.eqb_eq; lia.
Qed.

Lemma uint64_t_int64_t y : 0 <= y < 2 ^ 64 -> uint64_t (int64_t y) = y.
Proof.
  intros Hy. unfold int64_t, signed, uint64_t. cbv zeta. change (64 - 1) with 63.
  rewrite (Z.mod_small y) by lia.
  destruct (Z.ltb_spec y (2 ^ 63)).
  - apply Z.mod_small. lia.
  - symmetry. apply Z.mod_unique with (-1); lia.
Qed.

(** The truncated quotient of two 64-bit signed numbers is one, the
    overflow apart. *)
Lemma quot_range a b :
  - 2 ^ 63 <= a < 2 ^ 63 -> b <> 0 -> ~ (a = - 2 ^ 63 /\ b = -1) ->
  - 2 ^ 63 <= Z.quot a b < 2 ^ 63.
Proof.
  intros Ha Hb Hov.
  destruct (Z.eq_dec b 1) as [-> | H1]; [rewrite Z.quot_1_r; lia|].
  destruct (Z.eq_dec b (-1)) as [-> | H2].
  { replace (Z.quot a (-1)) with (- a); [lia|].
    rewrite <- (Z.quot_1_r a) at 1. rewrite <- Z.quot_opp_r by lia. reflexivity. }
  assert (Habs : Z.abs (Z.quot a b) <= 2 ^ 62).
  { rewrite <- Z.quot_abs by lia.
    rewrite Z.quot_div_nonneg by lia.
    apply Z.le_trans with (Z.abs a / 2).
    - apply Z.div_le_compat_l; lia.
    - apply Z.div_le_upper_bound; lia. }
  lia.
Qed.

Lemma rem_range a b :
  - 2 ^ 63 <= b < 2 ^ 63 -> b <> 0 -> - 2 ^ 63 <= Z.rem a b < 2 ^ 63.
Proof.
  intros Hb Hne. pose proof (Z.rem_bound_abs a b Hne). lia.
Qed.

Section DoubleWordDivision.
Context {kbd : keyboard_h}.

Lemma cpu_execute_0x33 cpu insn :
  insn_opcode insn = 0x33 ->
  cpu_execute cpu insn
  = let '(c, r) :=
      execute_0x33 (insn_rd insn) (insn_rs1 insn) (insn_rs2 insn)
                   (insn_funct3 insn) (insn_funct7 insn) (set_reg cpu 0 0) in
    (c, status r).
Proof.
  unfold insn_opcode, insn_rd, insn_rs1, insn_rs2, insn_funct3, insn_funct7.
  intros Hop. unfold cpu_execute. cbv zeta. rewrite Hop. reflexivity.
Qed.

Lemma status_written rd v c :
  (let '(c1, r) := write rd v c in (c1, status r)).2 = OK.
Proof. reflexivity. Qed.

(** X18.  The division instructions of double words never trap.  With
    the operands [x] and [y] read as unsigned numbers, [divu] yields the
    quotient and [remu] the remainder, and for a zero divisor all ones and
    the dividend.  With the operands read as signed numbers, [div] yields
    the quotient truncated towards zero and [rem] the remainder with the
    sign of the dividend; for a zero divisor they yield -1 and the dividend,
    and for the overflow of [INT64_MIN] by -1 they yield [INT64_MIN] and
    zero. *)
Theorem div_rem_64 (cpu : struct_cpu) (insn x y : Z) :
  insn_opcode insn = 0x33 -> insn_funct7 insn = 1 ->
  reg (set_reg cpu 0 0) (insn_rs1 insn) = x ->
  reg (set_reg cpu 0 0) (insn_rs2 insn) = y ->
  0 <= x < 2 ^ 64 -> 0 <= y < 2 ^ 64 ->
  let r := reg (cpu_execute cpu insn).1 (insn_rd insn) in
  let overflow := (int64_t x =? INT64_MIN) && (int64_t y =? -1) in
  (insn_funct3 insn = 4 ->
     (cpu_execute cpu insn).2 = OK
     /\ int64_t r = if y =? 0 then -1
                    else if overflow then INT64_MIN
                    else Z.quot (int64_t x) (int64_t y))
  /\ (insn_funct3 insn = 5 ->
      (cpu_execute cpu insn).2 = OK
      /\ r = if y =? 0 then 2 ^ 64 - 1 else x / y)
  /\ (insn_funct3 insn = 6 ->
      (cpu_execute cpu insn).2 = OK
      /\ int64_t r = if y =? 0 then int64_t x
                     else if overflow then 0
                     else Z.rem (int64_t x) (int64_t y))
  /\ (insn_funct3 insn = 7 ->
      (cpu_execute cpu insn).2 = OK
      /\ r = if y =? 0 then x else x mod y).
Proof.
  intros Hop Hf7 Hx Hy Hxr Hyr. cbv zeta.
  rewrite cpu_execute_0x33 by done.
  unfold execute_0x33. cbv zeta. rewrite Hf7, Hx, Hy.
  pose proof (int64_t_range x) as Hsx. pose proof (int64_t_range y) as Hsy.
  split; [|split; [|split]]; intros ->;
    cbn [Z.eqb Pos.eqb andb]; rewrite ?int64_t_eq_0 by done.
  - destruct (Z.eqb_spec y 0) as [Hy0 | Hy0];
      [rewrite status_written, reg_written; split; reflexivity|].
    destruct ((int64_t x =? INT64_MIN) && (int64_t y =? -1)) eqn:Hov;
      rewrite status_written, reg_written; (split; [reflexivity|]);
      apply int64_t_uint64_t; [unfold INT64_MIN; lia|].
    apply quot_range; [done| |].
    + intros H0. apply Hy0. rewrite <- (uint64_t_int64_t y), H0 by done.
      reflexivity.
    + intros [Ha Hb]. apply andb_false_iff in Hov as [Hov | Hov];
        apply Z.eqb_neq in Hov; unfold INT64_MIN in Hov; lia.
  - rewrite status_written, reg_written. split; [reflexivity|].
    destruct (Z.eqb_spec y 0) as [Hy0 | Hy0]; [reflexivity|].
    apply Z.mod_small. split; [apply Z.div_pos; lia|].
    apply Z.le_lt_trans with x; [|lia].
    apply Z.div_le_upper_bound; nia.
  - destruct (Z.eqb_spec y 0) as [Hy0 | Hy0].
    { rewrite status_written, reg_written. split; [reflexivity|].
      unfold uint64_t. by rewrite Z.mod_small. }
    destruct ((int64_t x =? INT64_MIN) && (int64_t y =? -1)) eqn:Hov;
      rewrite status_written, reg_written; (split; [reflexivity|]);
      apply int64_t_uint64_t; [lia|].
    apply rem_range; [done|].
    intros H0. apply Hy0. rewrite <- (uint64_t_int64_t y), H0 by done.
    reflexivity.
  - rewrite status_written, reg_written. split; [reflexivity|].
    destruct (Z.eqb_spec y 0) as [Hy0 | Hy0]; [by apply Z.mod_small|].
    apply Z.mod_small. pose proof (Z.mod_pos_bound x y ltac:(lia)). lia.
Qed.

End DoubleWordDivision.

Lemma div_rem_64_witness :
  reg (cpu_execute (kbd := example_keyboard)
         (with_operands (cpu_new [] []) 7 0) DIVU_x3_x1_x2).1 3 = 2 ^ 64 - 1
  /\ reg (cpu_execute (kbd := example_keyboard)
            (with_operands (cpu_new [] []) 7 2) REMU_x3_x1_x2).1 3 = 1.
Proof.
  pose proof (div_rem_64 (kbd := example_keyboard)
                (with_operands (cpu_new [] []) 7 0) DIVU_x3_x1_x2 7 0
                eq_refl eq_refl eq_refl eq_refl
                ltac:(lia)
                ltac:(lia))
    as (_ & Hdivu & _).
  pose proof (div_rem_64 (kbd := example_keyboard)
                (with_operands (cpu_new [] []) 7 2) REMU_x3_x1_x2 7 2
                eq_refl eq_refl eq_refl eq_refl
                ltac:(lia)
                ltac:(lia))
    as (_ & _ & _ & Hremu).
  exact (conj (proj2 (Hdivu eq_refl)) (proj2 (Hremu eq_refl))).
Defined.
(** ** What an instruction leaves alone *)

Section ExecuteFrame.
Context {kbd : keyboard_h}.

Variable R : struct_cpu -> struct_cpu -> Prop.
Variable insn : Z.

Hypothesis R_refl : forall c, R c c.
Hypothesis R_trans : forall c1 c2 c3, R c1 c2 -> R c2 c3 -> R c1 c3.
Hypothesis R_reg : forall c v, R c (set_reg c (insn_rd insn) v).
Hypothesis R_bus :
  In (insn_opcode insn) [0x03; 0x23; 0x2f] ->
  forall c b, R c (cpu_set_bus c b).
Hypothesis R_pc :
  In (insn_opcode insn) [0x63; 0x67; 0x6f; 0x73] ->
  forall c x, R c (cpu_set_pc c x).
Hypothesis R_system :
  insn_opcode insn = 0x73 ->
  (forall c m, R c (cpu_set_mode c m))
  /\ (forall c addr v, R c (cpu_store_csr c addr v))
  /\ (forall c addr, R c (cpu_update_paging c addr)).

Ltac by_opcode Hop :=
  first [ assumption
        | apply R_bus; rewrite Hop; simpl; tauto
        | apply R_pc; rewrite Hop; simpl; tauto ].

(** A relation that holds across the updates an opcode makes holds across
    the instruction. *)
Lemma keeps_execute_by_opcode c : R (set_reg c 0 0) (cpu_execute c insn).1.
Proof.
  unfold cpu_execute, insn_opcode, insn_rd in *. cbv zeta.
  set (c0 := set_reg c 0 0).
  match goal with
  | |- R _ (let '(c1, r) := ?m in (c1, status r)).1 =>
      assert (R c0 m.1) as H; [|destruct m; exact H]
  end.
  destruct (Z.eqb_spec (Z.land insn 0x7f) 0x03) as [Hop|_];
    [apply keeps_0x03; by_opcode Hop|].
  destruct (Z.eqb_spec (Z.land insn 0x7f) 0x0f) as [Hop|_];
    [apply keeps_0x0f; by_opcode Hop|].
  destruct (Z.eqb_spec (Z.land insn 0x7f) 0x13) as [Hop|_];
    [apply keeps_0x13; by_opcode Hop|].
  destruct (Z.eqb_spec (Z.land insn 0x7f) 0x17) as [Hop|_];
    [apply keeps_0x17; by_opcode Hop|].
  destruct (Z.eqb_spec (Z.land insn 0x7f) 0x1b) as [Hop|_];
    [apply keeps_0x1b; by_opcode Hop|].
  destruct (Z.eqb_spec (Z.land insn 0x7f) 0x23) as [Hop|_];
    [apply keeps_0x23; by_opcode Hop|].
  destruct (Z.eqb_spec (Z.land insn 0x7f) 0x2f) as [Hop|_];
    [apply keeps_0x2f; by_opcode Hop|].
  destruct (Z.eqb_spec (Z.land insn 0x7f) 0x33) as [Hop|_];
    [apply keeps_0x33; by_opcode Hop|].
  destruct (Z.eqb_spec (Z.land insn 0x7f) 0x37) as [Hop|_];
    [apply keeps_0x37; by_opcode Hop|].
  destruct (Z.eqb_spec (Z.land insn 0x7f) 0x3b) as [Hop|_];
    [apply keeps_0x3b; by_opcode Hop|].
  destruct (Z.eqb_spec (Z.land insn 0x7f) 0x63) as [Hop|_];
    [apply keeps_0x63; by_opcode Hop|].
  destruct (Z.eqb_spec (Z.land insn 0x7f) 0x67) as [Hop|_];
    [apply keeps_0x67; by_opcode Hop|].
  destruct (Z.eqb_spec (Z.land insn 0x7f) 0x6f) as [Hop|_];
    [apply keeps_0x6f; by_opcode Hop|].
  destruct (Z.eqb_spec (Z.land insn 0x7f) 0x73) as [Hop|_];
    [|apply keeps_raise; by_opcode Hop].
  destruct (R_system Hop) as (Hmode & Hcsr & Hpaging).
  apply keeps_0x73 with (P := fun _ => True); try by_opcode Hop; auto.
Qed.

End ExecuteFrame.

Section ExecuteLeaves.
Context {kbd : keyboard_h}.

Lemma fields_set_reg c i v :
  csrs (set_reg c i v) = csrs c /\ mode (set_reg c i v) = mode c
  /\ enable_paging (set_reg c i v) = enable_paging c
  /\ pagetable (set_reg c i v) = pagetable c
  /\ bus (set_reg c i v) = bus c /\ pc (set_reg c i v) = pc c.
Proof. done. Qed.

Lemma bus_update_paging c addr : bus (cpu_update_paging c addr) = bus c.
Proof. unfold cpu_update_paging. by destruct (negb _). Qed.

(** X19.  What an instruction leaves alone, by its opcode.  Only the
    opcode 0x73 (ecall, sret, mret, the CSR instructions) changes a CSR,
    the privilege mode or the cached paging state.  Only the loads (0x03),
    the stores (0x23) and the atomics (0x2f) change the bus and its
    devices.  Only the branches (0x63), jalr (0x67), jal (0x6f) and the
    opcode 0x73 change the pc. *)
Theorem execute_leaves (cpu : struct_cpu) (insn : Z) :
  let op := insn_opcode insn in
  let cpu' := (cpu_execute cpu insn).1 in
  (op <> 0x73 ->
     csrs cpu' = csrs cpu /\ mode cpu' = mode cpu
     /\ enable_paging cpu' = enable_paging cpu
     /\ pagetable cpu' = pagetable cpu)
  /\ (op <> 0x03 -> op <> 0x23 -> op <> 0x2f -> bus cpu' = bus cpu)
  /\ (op <> 0x63 -> op <> 0x67 -> op <> 0x6f -> op <> 0x73 ->
      pc cpu' = pc cpu).
Proof.
  cbv zeta. split; [|split].
  - intros Hop.
    apply (keeps_execute_by_opcode
             (fun c c' => csrs c' = csrs c /\ mode c' = mode c
                          /\ enable_paging c' = enable_paging c
                          /\ pagetable c' = pagetable c) insn); try done.
    intros c1 c2 c3 (? & ? & ? & ?) (? & ? & ? & ?).
    repeat split; congruence.
  - intros H1 H2 H3.
    apply (keeps_execute_by_opcode (fun c c' => bus c' = bus c) insn);
      try done.
    + intros c1 c2 c3 ? ?. congruence.
    + intros [? | [? | [? | []]]]; congruence.
    + intros _. split; [done|]. split; intros.
      * apply bus_store_csr.
      * apply bus_update_paging.
  - intros H1 H2 H3 H4.
    apply (keeps_execute_by_opcode (fun c c' => pc c' = pc c) insn);
      try done.
    + intros c1 c2 c3 ? ?. congruence.
    + intros [? | [? | [? | [? | []]]]]; congruence.
Qed.

End ExecuteLeaves.
(** ** The frame loop *)

Section MainLoop.
Context {kbd : keyboard_h}.

Lemma run_instructions_add a b cpu :
  run_instructions (a + b) cpu
  = match run_instructions a cpu with
    | Some c => run_instructions b c
    | None => None
    end.
Proof.
  revert cpu. induction a as [|a IH]; intros cpu; [reflexivity|].
  cbn [Nat.add run_instructions].
  destruct (execute_instruction cpu) as [c|]; [apply IH|reflexivity].
Qed.

Lemma main_loop_ticks_total n : forall i dt cpt extra cpu,
  0 <= cpt -> 0 <= cpt + extra -> i + Z.of_nat (S n) = dt ->
  main_loop_ticks (S n) i dt cpt extra cpu
  = run_instructions (Z.to_nat (Z.of_nat n * cpt + (cpt + extra))) cpu.
Proof.
  induction n as [|n IH]; intros i dt cpt extra cpu Hcpt Hlast Hi.
  - cbn [main_loop_ticks]. replace (i =? dt - 1) with true
      by (symmetry; apply Z.eqb_eq; lia).
    change (Z.of_nat 0 * cpt) with 0. rewrite Z.add_0_l.
    by destruct (run_instructions _ cpu).
  - change (main_loop_ticks (S (S n)) i dt cpt extra cpu)
      with (let cycles_left :=
              if i =? dt - 1 then cpt + extra else cpt in
            match run_instructions (Z.to_nat cycles_left) cpu with
            | Some cpu' => main_loop_ticks (S n) (i + 1) dt cpt extra cpu'
            | None => None
            end).
    cbv zeta. replace (i =? dt - 1) with false
      by (symmetry; apply Z.eqb_neq; lia).
    replace (Z.to_nat (Z.of_nat (S n) * cpt + (cpt + extra)))
      with (Z.to_nat cpt + Z.to_nat (Z.of_nat n * cpt + (cpt + extra)))%nat
      by (rewrite <- Z2Nat.inj_add by nia; f_equal; lia).
    rewrite run_instructions_add.
    destruct (run_instructions (Z.to_nat cpt) cpu) as [c|]; [|reflexivity].
    apply IH; lia.
Qed.

(** X20.  One call of [main_loop] runs [CPU_HZ / TPS] = 550000
    instructions, however many milliseconds have elapsed and however the
    loop splits them into ticks; it runs none when the elapsed time is
    negative.  It stops early only when an instruction ends the process. *)
Theorem main_loop_cycles (elapsed : Z) (cpu : struct_cpu) :
  main_loop elapsed cpu
  = if elapsed <? 0 then Some cpu
    else run_instructions (Z.to_nat 550000) cpu.
Proof.
  unfold main_loop. cbv zeta.
  change (Z.quot CPU_HZ TPS) with 550000.
  destruct (Z.ltb_spec elapsed 0) as [Hneg | Hpos].
  { replace (elapsed =? 0) with false by (symmetry; apply Z.eqb_neq; lia).
    rewrite Z2Nat.nonpos by lia. reflexivity. }
  set (dt := if elapsed =? 0 then 1 else elapsed).
  assert (Hdt : 1 <= dt).
  { unfold dt. destruct (Z.eqb_spec elapsed 0); lia. }
  clearbody dt.
  assert (Hq : 0 <= Z.quot 550000 dt) by (apply Z.quot_pos; lia).
  assert (Hm : Z.quot 550000 dt * dt <= 550000).
  { rewrite Z.mul_comm. apply Z.mul_quot_le; lia. }
  destruct (Z.to_nat dt) as [|n] eqn:Hn; [lia|].
  rewrite main_loop_ticks_total by lia.
  f_equal. f_equal. nia.
Qed.

End MainLoop.

(** ** The image in RAM *)

Lemma cell_memcpy src : forall dst at_ j,
  cell (memcpy dst at_ src) j
  = if (at_ <=? j) && (j <? at_ + Z.of_nat (length src))
    then uint8_t (nth (Z.to_nat (j - at_)) src 0)
    else cell dst j.
Proof.
  induction src as [|b src IH]; intros dst at_ j.
  - cbn [memcpy length]. destruct (Z.leb_spec at_ j), (Z.ltb_spec j (at_ + Z.of_nat 0));
      cbn [andb]; try reflexivity; lia.
  - cbn [memcpy]. rewrite IH. change (length (b :: src)) with (S (length src)).
    destruct (Z.eq_dec j at_) as [-> | Hne].
    + replace (at_ + 1 <=? at_) with false by (symmetry; apply Z.leb_gt; lia).
      replace (at_ <=? at_) with true by (symmetry; apply Z.leb_le; lia).
      replace (at_ <? at_ + Z.of_nat (S (length src))) with true
        by (symmetry; apply Z.ltb_lt; lia).
      cbn [andb]. rewrite cell_insert_eq, Z.sub_diag. reflexivity.
    + rewrite cell_insert_ne by done.
      destruct (Z.leb_spec (at_ + 1) j), (Z.leb_spec at_ j),
        (Z.ltb_spec j (at_ + 1 + Z.of_nat (length src))),
        (Z.ltb_spec j (at_ + Z.of_nat (S (length src))));
        cbn [andb]; try reflexivity; try lia.
      replace (Z.to_nat (j - at_)) with (S (Z.to_nat (j - (at_ + 1)))) by lia.
      reflexivity.
Qed.

Lemma uint8_t_range z : 0 <= uint8_t z < 2 ^ 8.
Proof. unfold uint8_t. apply Z.mod_pos_bound. lia. Qed.

Lemma uint64_t_shiftl_byte z k :
  0 <= k <= 56 -> uint64_t (Z.shiftl (uint8_t z) k) = Z.shiftl (uint8_t z) k.
Proof.
  intros Hk. apply uint64_t_small. pose proof (uint8_t_range z) as Hz.
  rewrite Z.shiftl_mul_pow2 by lia. split; [nia|].
  apply Z.lt_le_trans with (2 ^ 8 * 2 ^ k); [nia|].
  rewrite <- Z.pow_add_r by lia. apply Z.pow_le_mono_r; lia.
Qed.

Section Image.
Context {kbd : keyboard_h}.

(** X21.  A new machine holds the image at the bottom of its RAM and
    zeros above it: the byte at [RAM_BASE + i] is byte [i] of the image.
    The first fetch of a new hart yields the first four bytes of the image
    as a little-endian word, when [RAM_BASE] is not in the range of the
    keyboard. *)
Theorem ram_new_image (code disk_image : list Z) :
  let byte i := uint8_t (nth i code 0) in
  (forall i, 0 <= i < RAM_SIZE ->
     ram_load (ram_new code) (RAM_BASE + i) 8 = Ok (byte (Z.to_nat i)))
  /\ (RANGE_CHECK RAM_BASE KBD_BASE KBD_SIZE = false ->
      cpu_fetch (cpu_new code disk_image)
      = (cpu_new code disk_image,
         Ok (Z.lor (Z.lor (Z.lor (Z.shiftl (byte 3%nat) 24)
                                 (Z.shiftl (byte 2%nat) 16))
                          (Z.shiftl (byte 1%nat) 8))
                   (byte 0%nat)))).
Proof.
  cbv zeta. split.
  - intros i Hi. unfold ram_load, ram_new. cbv zeta. cbn [ram_data].
    change (8 =? 64) with false. change (8 =? 32) with false.
    change (8 =? 16) with false. change (8 =? 8) with true. cbv iota.
    unfold RAM_SIZE in Hi.
    replace (RAM_BASE + i - RAM_BASE) with i by lia.
    rewrite (uint64_t_small i) by lia.
    rewrite Z.add_0_r, (uint64_t_small i) by lia.
    rewrite cell_memcpy, Z.sub_0_r, Z.add_0_l, Z.shiftl_0_r, Z.lor_0_l.
    replace (0 <=? i) with true by (symmetry; apply Z.leb_le; lia).
    cbn [andb].
    destruct (Z.ltb_spec i (Z.of_nat (length code))) as [Hlt | Hge].
    + apply f_equal, uint64_t_small. pose proof (uint8_t_range (nth (Z.to_nat i) code 0)). lia.
    + rewrite nth_overflow by lia. reflexivity.
  - intros Hk. unfold cpu_fetch, bind, cpu_translate.
    cbn [cpu_new enable_paging pc bus negb].
    rewrite bus_load_ram by (done || (unfold RAM_BASE; lia)).
    cbn [bus_new ram]. unfold ram_load, ram_new. cbv zeta. cbn [ram_data].
    change (32 =? 64) with false. change (32 =? 32) with true. cbv iota.
    change (uint64_t (RAM_BASE - RAM_BASE)) with 0.
    change (uint64_t (0 + 0)) with 0. change (uint64_t (0 + 1)) with 1.
    change (uint64_t (0 + 2)) with 2. change (uint64_t (0 + 3)) with 3.
    rewrite !cell_memcpy, !Z.sub_0_r, !Z.add_0_l.
    change (Z.to_nat 0) with 0%nat. change (Z.to_nat 1) with 1%nat.
    change (Z.to_nat 2) with 2%nat. change (Z.to_nat 3) with 3%nat.
    assert (Hcell : forall k : nat,
              (if (0 <=? Z.of_nat k) && (Z.of_nat k <? Z.of_nat (length code))
               then uint8_t (nth k code 0) else cell ∅ (Z.of_nat k))
              = uint8_t (nth k code 0)).
    { intros k.
      replace (0 <=? Z.of_nat k) with true by (symmetry; apply Z.leb_le; lia).
      destruct (Z.ltb_spec (Z.of_nat k) (Z.of_nat (length code)));
        cbn [andb]; [reflexivity|].
      rewrite nth_overflow by lia. reflexivity. }
    pose proof (Hcell 0%nat) as H0. pose proof (Hcell 1%nat) as H1.
    pose proof (Hcell 2%nat) as H2. pose proof (Hcell 3%nat) as H3.
    change (Z.of_nat 0) with 0 in H0. change (Z.of_nat 1) with 1 in H1.
    change (Z.of_nat 2) with 2 in H2. change (Z.of_nat 3) with 3 in H3.
    rewrite H0, H1, H2, H3, Z.lor_0_l, !uint64_t_shiftl_byte by lia.
    rewrite Z.shiftl_0_r. reflexivity.
Qed.

End Image.
(** ** Traps within one step *)

Lemma uint64_t_next_prev p : uint64_t (uint64_t (p + 4) - 4) = uint64_t p.
Proof.
  unfold uint64_t. rewrite Zminus_mod_idemp_l. f_equal. lia.
Qed.

Lemma land_mask_idem x m :
  Z.land (Z.land x (uint64_t m)) (uint64_t m) = Z.land x (uint64_t m).
Proof. by rewrite <- Z.land_assoc, Z.land_diag. Qed.

Section StepTraps.
Context {kbd : keyboard_h}.

Lemma check_pending_after_trap c e intr :
  cpu_check_pending_interrupt (cpu_take_trap c e intr)
  = Some (cpu_take_trap c e intr, NONE).
Proof.
  rewrite check_pending_gate. unfold interrupts_gated.
  rewrite mode_take_trap.
  destruct (trap_delegated c e intr) eqn:Hd.
  - by rewrite trap_supervisor_sstatus by (done || lia).
  - by rewrite trap_machine_mstatus by (done || lia).
Qed.

Lemma machine_not_delegated c e intr :
  mode c = MACHINE -> trap_delegated c e intr = false.
Proof. intros Hm. unfold trap_delegated. by rewrite Hm. Qed.

Lemma fetch_keeps c :
  mode (cpu_fetch c).1 = mode c /\ csrs (cpu_fetch c).1 = csrs c
  /\ pc (cpu_fetch c).1 = pc c.
Proof.
  apply keeps_fetch
    with (R := fun c c' => mode c' = mode c /\ csrs c' = csrs c /\ pc c' = pc c);
    try done.
  intros c1 c2 c3 (? & ? & ?) (? & ? & ?). repeat split; congruence.
Qed.

Lemma load_csr_same_csrs c c' addr :
  csrs c' = csrs c -> cpu_load_csr c' addr = cpu_load_csr c addr.
Proof. intros H. unfold cpu_load_csr. by rewrite H. Qed.

Lemma cpu_execute_unknown c insn :
  ~ In (insn_opcode insn)
       [0x03; 0x0f; 0x13; 0x17; 0x1b; 0x23; 0x2f; 0x33; 0x37; 0x3b; 0x63;
        0x67; 0x6f; 0x73] ->
  cpu_execute c insn = (set_reg c 0 0, ILLEGAL_INSTRUCTION).
Proof.
  unfold insn_opcode. intros Hop. unfold cpu_execute. cbv zeta.
  repeat match goal with
         | |- context [Z.land insn 0x7f =? ?k] =>
             destruct (Z.eqb_spec (Z.land insn 0x7f) k) as [Heq|_];
             [exfalso; apply Hop; rewrite Heq; cbn [In]; tauto|]
         end.
  reflexivity.
Qed.

Lemma execute_fetched_exception c insn :
  let r := cpu_execute (cpu_set_pc c (uint64_t (pc c + 4))) insn in
  is_OK r.2 = false ->
  execute_fetched c insn
  = if exception_is_fatal r.2 then None
    else Some (cpu_take_trap r.1 r.2 NONE).
Proof.
  cbv zeta. intros Hok. unfold execute_fetched. cbv zeta.
  destruct (cpu_execute _ insn) as [c4 e4]. cbn [fst snd] in *.
  rewrite Hok. cbn [negb].
  destruct (exception_is_fatal e4); [reflexivity|].
  by rewrite check_pending_after_trap.
Qed.

(** X22.  A trap masks the interrupts of its step: the check for pending
    interrupts that follows a trap returns [NONE] and touches nothing, since
    the trap has cleared the interrupt-enable bit of the mode it entered.
    So an instruction that raises an exception ends its step with the trap
    of that exception, or ends the process when the exception is fatal. *)
Theorem trap_masks_interrupts (cpu : struct_cpu) (e : exception_t)
  (intr : interrupt_t) (insn : Z) :
  cpu_check_pending_interrupt (cpu_take_trap cpu e intr)
  = Some (cpu_take_trap cpu e intr, NONE)
  /\ (let r := cpu_execute (cpu_set_pc cpu (uint64_t (pc cpu + 4))) insn in
      is_OK r.2 = false ->
      execute_fetched cpu insn
      = if exception_is_fatal r.2 then None
        else Some (cpu_take_trap r.1 r.2 NONE)).
Proof.
  split; [apply check_pending_after_trap|apply execute_fetched_exception].
Qed.

(** X23.  An instruction word whose opcode is none of the fourteen that
    [cpu_execute] decodes raises [ILLEGAL_INSTRUCTION] and changes nothing
    but register 0, which is cleared.  In Machine mode the step then ends
    in the trap handler: the pc is the base of [mtvec], [mcause] is 2 and
    [mepc] is the address of the instruction. *)
Theorem illegal_instruction_step (cpu cpu1 : struct_cpu) (insn : Z) :
  ~ In (insn_opcode insn)
       [0x03; 0x0f; 0x13; 0x17; 0x1b; 0x23; 0x2f; 0x33; 0x37; 0x3b; 0x63;
        0x67; 0x6f; 0x73] ->
  mode cpu = MACHINE ->
  cpu_fetch cpu = (cpu1, Ok insn) ->
  cpu_execute cpu insn = (set_reg cpu 0 0, ILLEGAL_INSTRUCTION)
  /\ exists cpu',
       execute_instruction cpu = Some cpu'
       /\ mode cpu' = MACHINE
       /\ pc cpu' = Z.land (cpu_load_csr cpu MTVEC) (uint64_t (Z.lnot 1))
       /\ cpu_load_csr cpu' MCAUSE = 2
       /\ cpu_load_csr cpu' MEPC
          = Z.land (uint64_t (pc cpu)) (uint64_t (Z.lnot 1)).
Proof.
  intros Hop Hm Hf. split; [by apply cpu_execute_unknown|].
  pose proof (fetch_keeps cpu) as (Hm1 & Hc1 & Hp1).
  rewrite Hf in Hm1, Hc1, Hp1. cbn [fst] in Hm1, Hc1, Hp1.
  unfold execute_instruction. rewrite Hf.
  pose proof (execute_fetched_exception cpu1 insn) as Hstep.
  cbv zeta in Hstep. rewrite cpu_execute_unknown in Hstep by done.
  cbn [fst snd] in Hstep. rewrite (Hstep eq_refl). cbn [exception_is_fatal].
  set (c4 := set_reg (cpu_set_pc cpu1 (uint64_t (pc cpu1 + 4))) 0 0).
  assert (Hd : trap_delegated c4 ILLEGAL_INSTRUCTION NONE = false).
  { apply machine_not_delegated. unfold c4. cbn [mode cpu_set_pc set_reg cpu_set_regs]. congruence. }
  eexists. split; [reflexivity|].
  split; [by rewrite mode_take_trap, Hd|].
  split.
  { rewrite trap_machine_exception_pc by done. f_equal.
    apply load_csr_same_csrs. exact Hc1. }
  split; [by rewrite trap_machine_mcause by done|].
  rewrite trap_machine_mepc by done. f_equal.
  unfold c4. cbn [pc cpu_set_pc set_reg cpu_set_regs].
  by rewrite uint64_t_next_prev, Hp1.
Qed.

(** X24.  A page fault on the fetch traps twice in one step.  After the
    trap of the page fault the step goes on with the instruction word 0,
    which is illegal.  In Machine mode the second trap overwrites what the
    first recorded: the step ends with [mcause] 2 and with [mepc] the base
    of [mtvec], not the address of the fetch. *)
Theorem fetch_page_fault_traps_twice (cpu cpu1 : struct_cpu) :
  mode cpu = MACHINE ->
  cpu_fetch cpu = (cpu1, Failed INSTRUCTION_PAGE_FAULT) ->
  let base := Z.land (cpu_load_csr cpu MTVEC) (uint64_t (Z.lnot 1)) in
  exists cpu',
    execute_instruction cpu = Some cpu'
    /\ mode cpu' = MACHINE
    /\ pc cpu' = base
    /\ cpu_load_csr cpu' MCAUSE = 2
    /\ cpu_load_csr cpu' MEPC = base.
Proof.
  intros Hm Hf. cbv zeta.
  pose proof (fetch_keeps cpu) as (Hm1 & Hc1 & Hp1).
  rewrite Hf in Hm1, Hc1, Hp1. cbn [fst] in Hm1, Hc1, Hp1.
  unfold execute_instruction. rewrite Hf. cbn [exception_is_fatal]. cbv zeta.
  assert (Hd1 : trap_delegated cpu1 INSTRUCTION_PAGE_FAULT NONE = false)
    by (apply machine_not_delegated; congruence).
  set (t1 := cpu_take_trap cpu1 INSTRUCTION_PAGE_FAULT NONE).
  assert (Hpc1 : pc t1 = Z.land (cpu_load_csr cpu MTVEC) (uint64_t (Z.lnot 1))).
  { unfold t1. rewrite trap_machine_exception_pc by done. f_equal.
    by apply load_csr_same_csrs. }
  assert (Htvec : cpu_load_csr t1 MTVEC = cpu_load_csr cpu MTVEC).
  { unfold t1. rewrite trap_machine_mtvec by done.
    by apply load_csr_same_csrs. }
  assert (Hmt : mode t1 = MACHINE) by (unfold t1; by rewrite mode_take_trap, Hd1).
  pose proof (execute_fetched_exception t1 0) as Hstep.
  cbv zeta in Hstep.
  rewrite cpu_execute_unknown in Hstep by (vm_compute; intuition discriminate).
  cbn [fst snd] in Hstep. rewrite (Hstep eq_refl). cbn [exception_is_fatal].
  set (c4 := set_reg (cpu_set_pc t1 (uint64_t (pc t1 + 4))) 0 0).
  assert (Hd : trap_delegated c4 ILLEGAL_INSTRUCTION NONE = false).
  { apply machine_not_delegated. unfold c4. cbn [mode cpu_set_pc set_reg cpu_set_regs]. congruence. }
  eexists. split; [reflexivity|].
  split; [by rewrite mode_take_trap, Hd|].
  split.
  { rewrite trap_machine_exception_pc by done. f_equal. exact Htvec. }
  split; [by rewrite trap_machine_mcause by done|].
  rewrite trap_machine_mepc by done.
  unfold c4. cbn [pc cpu_set_pc set_reg cpu_set_regs].
  rewrite uint64_t_next_prev, Hpc1, uint64_t_land_mask. apply land_mask_idem.
Qed.

End StepTraps.

Lemma illegal_instruction_step_witness :
  cpu_execute (kbd := example_keyboard) (cpu_new [] []) 0
  = (set_reg (cpu_new [] []) 0 0, ILLEGAL_INSTRUCTION).
Proof.
  exact (proj1 (illegal_instruction_step (kbd := example_keyboard)
                  (cpu_new [] []) (cpu_new [] []) 0
                  ltac:(vm_compute; intuition discriminate) eq_refl
                  ltac:(vm_compute; reflexivity))).
Defined.

Lemma fetch_page_fault_traps_twice_witness :
  exists cpu',
    execute_instruction (kbd := example_keyboard)
      (cpu_set_paging (cpu_new [] []) true RAM_BASE) = Some cpu'
    /\ cpu_load_csr cpu' MCAUSE = 2.
Proof.
  destruct (fetch_page_fault_traps_twice (kbd := example_keyboard)
              (cpu_set_paging (cpu_new [] []) true RAM_BASE)
              (cpu_set_paging (cpu_new [] []) true RAM_BASE)
              eq_refl ltac:(vm_compute; reflexivity))
    as (cpu' & Hs & _ & _ & Hc & _).
  exists cpu'. exact (conj Hs Hc).
Defined.
(** ** The devices behind the interrupt check *)

Section Poll.
Context {kbd : keyboard_h}.

Lemma sclaim_published b irq :
  sclaim (plic (bus_store b PLIC_SCLAIM 32 irq).1) = irq
  /\ uart (bus_store b PLIC_SCLAIM 32 irq).1 = uart b
  /\ disk (bus_store b PLIC_SCLAIM 32 irq).1 = disk b
  /\ ram (bus_store b PLIC_SCLAIM 32 irq).1 = ram b.
Proof. done. Qed.

(** X25.  The interrupt check asks the UART first.  When the UART
    interrupts, the check publishes IRQ 10 in the claim register of the
    PLIC and sets [mip.SEIP]; the block device is not asked, so that its
    notification waits for a later check.  When no device interrupts, the
    check leaves the CSRs, the PLIC, the RAM and the disk as they were. *)
Theorem poll_devices_uart_first (cpu : struct_cpu) :
  (interrupting (uart (bus cpu)) = true ->
   exists cpu',
     poll_devices cpu = Some cpu'
     /\ sclaim (plic (bus cpu')) = UART_IRQ
     /\ Z.testbit (cpu_load_csr cpu' MIP) 9 = true
     /\ interrupting (uart (bus cpu')) = false
     /\ disk (bus cpu') = disk (bus cpu))
  /\ (interrupting (uart (bus cpu)) = false ->
      (disk_is_interrupting (disk (bus cpu))).1 = false ->
      exists cpu',
        poll_devices cpu = Some cpu'
        /\ csrs cpu' = csrs cpu
        /\ plic (bus cpu') = plic (bus cpu)
        /\ ram (bus cpu') = ram (bus cpu)
        /\ disk (bus cpu') = disk (bus cpu)).
Proof.
  split.
  - intros Hu. unfold poll_devices, uart_is_interrupting. rewrite Hu.
    eexists. split; [reflexivity|]. unfold publish_irq. cbv zeta.
    rewrite testbit_load_csr_set by (done || lia).
    rewrite bus_csr_set. cbn [bus cpu_set_bus].
    split; [apply sclaim_published|].
    split; [unfold MIP_SEIP; rewrite testbit_shiftl_1 by lia; apply orb_true_r|].
    split; reflexivity.
  - intros Hu Hd. unfold poll_devices, uart_is_interrupting. rewrite Hu.
    cbn [bus cpu_set_bus disk bus_set_uart].
    unfold disk_is_interrupting in *.
    destruct (negb _) eqn:Hn; [discriminate Hd|].
    eexists. split; [reflexivity|]. cbn [bus cpu_set_bus csrs].
    repeat split; by destruct (bus cpu).
Qed.

End Poll.

Lemma poll_devices_uart_first_witness :
  exists cpu',
    poll_devices (kbd := example_keyboard)
      (cpu_set_bus (cpu_new [] [])
         (bus_do (kbd := example_keyboard) (bus (cpu_new [] [])) (Input 0x41)))
    = Some cpu'
    /\ sclaim (plic (bus cpu')) = UART_IRQ.
Proof.
  destruct (proj1 (poll_devices_uart_first (kbd := example_keyboard)
                     (cpu_set_bus (cpu_new [] [])
                        (bus_do (kbd := example_keyboard)
                           (bus (cpu_new [] [])) (Input 0x41))))
              eq_refl) as (cpu' & Hp & Hs & _).
  exists cpu'. exact (conj Hp Hs).
Defined.
(** ** DMA from the disk to RAM *)

Lemma ram_store_8 ram a v :
  RAM_BASE <= a < 2 ^ 63 ->
  ram_store ram a 8 v
  = ({| ram_data := <[a - RAM_BASE := Z.land v 0xff]> (ram_data ram) |}, OK).
Proof.
  intros Ha. unfold ram_store. cbv zeta.
  change (8 =? 64) with false. change (8 =? 32) with false.
  change (8 =? 16) with false. change (8 =? 8) with true. cbv iota.
  unfold RAM_BASE in *.
  rewrite Z.add_0_r, uint64_t_idem, uint64_t_small, Z.shiftr_0_r by lia.
  reflexivity.
Qed.

Lemma ram_load_8 ram a :
  RAM_BASE <= a < 2 ^ 63 ->
  ram_load ram a 8 = Ok (uint64_t (cell (ram_data ram) (a - RAM_BASE))).
Proof.
  intros Ha. unfold ram_load. cbv zeta.
  change (8 =? 64) with false. change (8 =? 32) with false.
  change (8 =? 16) with false. change (8 =? 8) with true. cbv iota.
  rewrite Z.add_0_r, uint64_t_idem.
  rewrite (uint64_t_small (a - RAM_BASE)) by (unfold RAM_BASE in *; lia).
  by rewrite Z.shiftl_0_r, Z.lor_0_l.
Qed.

Lemma land_0xff_range v : 0 <= Z.land v 0xff < 2 ^ 64.
Proof.
  change 0xff with (Z.ones 8). rewrite Z.land_ones by lia.
  pose proof (Z.mod_pos_bound v (2 ^ 8) ltac:(lia)). lia.
Qed.

Lemma bus_store_disk_data b a size v :
  disk_data (disk (bus_store b a size v).1) = disk_data (disk b).
Proof.
  unfold bus_store.
  destruct (RANGE_CHECK a CLINT_BASE CLINT_SIZE);
    [by destruct (clint_store _ _ _ _)|].
  destruct (RANGE_CHECK a PLIC_BASE PLIC_SIZE);
    [by destruct (plic_store _ _ _ _)|].
  destruct (RANGE_CHECK a UART_BASE UART_SIZE);
    [by destruct (uart_store _ _ _ _ _) as [[? ?] ?]|].
  destruct (RANGE_CHECK a DISK_BASE DISK_SIZE).
  { unfold disk_store. destruct (negb _); [reflexivity|].
    by destruct (_ || _). }
  destruct (RAM_BASE <=? a); [by destruct (ram_store _ _ _ _)|reflexivity].
Qed.

Section Dma.

Variables (address sector_ : Z).

Lemma dma_disk_to_ram_cells n : forall i b,
  0 <= i -> RAM_BASE <= address ->
  address + i + Z.of_nat n <= RAM_BASE + RAM_SIZE ->
  (forall j, i <= j < i + Z.of_nat n ->
     is_Some (disk_data (disk b) !! (uint32_t (sector_ * 512) + j))) ->
  exists b',
    dma_disk_to_ram n i address sector_ b = Some b'
    /\ disk b' = disk b /\ clint b' = clint b /\ plic b' = plic b
    /\ uart b' = uart b /\ host b' = host b
    /\ forall k,
         cell (ram_data (ram b')) k
         = if (address + i - RAM_BASE <=? k)
              && (k <? address + i + Z.of_nat n - RAM_BASE)
           then Z.land
                  (cell (disk_data (disk b))
                     (uint32_t (sector_ * 512) + (k - (address - RAM_BASE))))
                  0xff
           else cell (ram_data (ram b)) k.
Proof.
  induction n as [|n IH]; intros i b Hi Hbase Hend Himage.
  - exists b. split; [reflexivity|]. repeat (split; [reflexivity|]).
    intros k.
    destruct (Z.leb_spec (address + i - RAM_BASE) k),
      (Z.ltb_spec k (address + i + Z.of_nat 0 - RAM_BASE));
      cbn [andb]; try reflexivity; lia.
  - cbn [dma_disk_to_ram].
    assert (Ha : RAM_BASE <= address + i < 2 ^ 32)
      by (unfold RAM_BASE, RAM_SIZE in *; lia).
    pose proof (Z.mod_pos_bound (sector_ * 512) (2 ^ 32) ltac:(lia)) as Hu.
    fold (uint32_t (sector_ * 512)) in Hu.
    rewrite (uint64_t_small (uint32_t (sector_ * 512) + i))
      by (unfold RAM_BASE, RAM_SIZE in *; lia).
    unfold disk_disk_read.
    destruct (Himage i ltac:(lia)) as [byte Hbyte]. rewrite Hbyte.
    rewrite (uint64_t_small (address + i)) by (unfold RAM_BASE in Ha; lia).
    rewrite bus_store_ram by done.
    rewrite ram_store_8 by lia. cbn [fst snd].
    destruct (IH (i + 1)
                (bus_set_ram b
                   {| ram_data :=
                        <[address + i - RAM_BASE := Z.land byte 0xff]>
                          (ram_data (ram b)) |}))
      as (b' & Hrun & Hdisk & Hclint & Hplic & Huart & Hhost & Hcells);
      [lia | done | lia | |].
    { intros j Hj. cbn [disk bus_set_ram]. apply Himage. lia. }
    exists b'. split; [exact Hrun|].
    split; [by rewrite Hdisk|]. split; [by rewrite Hclint|].
    split; [by rewrite Hplic|]. split; [by rewrite Huart|].
    split; [by rewrite Hhost|].
    intros k. rewrite Hcells. cbn [disk ram bus_set_ram ram_data].
    destruct (Z.leb_spec (address + (i + 1) - RAM_BASE) k),
      (Z.ltb_spec k (address + (i + 1) + Z.of_nat n - RAM_BASE)),
      (Z.leb_spec (address + i - RAM_BASE) k),
      (Z.ltb_spec k (address + i + Z.of_nat (S n) - RAM_BASE));
      cbn [andb]; try reflexivity; try lia.
    all: first
           [ apply cell_insert_ne; lia
           | assert (k = address + i - RAM_BASE) as -> by lia;
             rewrite cell_insert_eq;
             replace (address + i - RAM_BASE - (address - RAM_BASE)) with i
               by lia;
             unfold cell; by rewrite Hbyte ].
Qed.

Lemma dma_disk_to_ram_outside n : forall i b,
  0 <= i -> i + Z.of_nat n <= 2 ^ 32 ->
  (exists j, i <= j < i + Z.of_nat n
             /\ disk_data (disk b) !! (uint32_t (sector_ * 512) + j) = None) ->
  dma_disk_to_ram n i address sector_ b = None.
Proof.
  induction n as [|n IH]; intros i b Hi Hend (j & Hj & Hnone); [lia|].
  cbn [dma_disk_to_ram].
  pose proof (Z.mod_pos_bound (sector_ * 512) (2 ^ 32) ltac:(lia)) as Hu.
  fold (uint32_t (sector_ * 512)) in Hu.
  rewrite (uint64_t_small (uint32_t (sector_ * 512) + i)) by lia.
  unfold disk_disk_read.
  destruct (disk_data (disk b) !! (uint32_t (sector_ * 512) + i))
    as [data|] eqn:Hread; [|reflexivity].
  pose proof (bus_store_disk_data b (uint64_t (address + i)) 8 data) as Hsame.
  destruct (bus_store b (uint64_t (address + i)) 8 data) as [b1 e].
  cbn [fst] in Hsame.
  destruct e; try reflexivity.
  apply IH; [lia | lia |].
  exists j. rewrite Hsame. split; [|exact Hnone].
  destruct (Z.eq_dec j i) as [-> | Hne]; [congruence|lia].
Qed.

(** X26.  The DMA loop that reads the disk, for a buffer of [n] bytes that
    lies in the 8 MiB of RAM.  When the disk image holds the [n] bytes from
    the offset [sector * 512], computed in 32 bits, the loop ends without
    an error and has copied them: byte [j] of the buffer holds byte
    offset + [j] of the image, and the rest of the RAM, the disk and the
    other devices are as they were.  When one of these bytes lies outside
    the image, as every byte does on a machine without a disk image, the
    loop has no defined result. *)
Theorem dma_disk_to_ram_copies (b : struct_bus) (n : nat) :
  RAM_BASE <= address ->
  address + Z.of_nat n <= RAM_BASE + RAM_SIZE ->
  let offset j := uint32_t (sector_ * 512) + j in
  ((forall j, 0 <= j < Z.of_nat n ->
      is_Some (disk_data (disk b) !! offset j)) ->
   exists b',
     dma_disk_to_ram n 0 address sector_ b = Some b'
     /\ (forall j, 0 <= j < Z.of_nat n ->
           exists byte,
             disk_disk_read (disk b) (offset j) = Some byte
             /\ ram_load (ram b') (address + j) 8 = Ok (Z.land byte 0xff))
     /\ (forall a, RAM_BASE <= a < RAM_BASE + RAM_SIZE ->
           ~ (address <= a < address + Z.of_nat n) ->
           ram_load (ram b') a 8 = ram_load (ram b) a 8)
     /\ disk b' = disk b /\ clint b' = clint b /\ plic b' = plic b
     /\ uart b' = uart b /\ host b' = host b)
  /\ ((exists j, 0 <= j < Z.of_nat n
                 /\ disk_data (disk b) !! offset j = None) ->
      dma_disk_to_ram n 0 address sector_ b = None).
Proof.
  intros Hbase Hend. cbv zeta. split.
  - intros Himage.
    destruct (dma_disk_to_ram_cells n 0 b) as
      (b' & Hrun & Hdisk & Hclint & Hplic & Huart & Hhost & Hcells);
      [lia | done | lia | |].
    { intros j Hj. apply Himage. lia. }
    exists b'. split; [exact Hrun|].
    split; [|split; [|done]].
    + intros j Hj. destruct (Himage j Hj) as [byte Hbyte].
      exists byte. split; [exact Hbyte|].
      rewrite ram_load_8 by (unfold RAM_BASE, RAM_SIZE in *; lia).
      rewrite Hcells.
      replace (address + 0 - RAM_BASE <=? address + j - RAM_BASE) with true
        by (symmetry; apply Z.leb_le; lia).
      replace (address + j - RAM_BASE <? address + 0 + Z.of_nat n - RAM_BASE)
        with true by (symmetry; apply Z.ltb_lt; lia).
      cbn [andb].
      replace (address + j - RAM_BASE - (address - RAM_BASE)) with j by lia.
      unfold cell. rewrite Hbyte. cbn [default].
      f_equal. apply uint64_t_small, land_0xff_range.
    + intros a Ha Hout.
      rewrite !ram_load_8 by (unfold RAM_BASE, RAM_SIZE in *; lia).
      rewrite Hcells.
      destruct (Z.leb_spec (address + 0 - RAM_BASE) (a - RAM_BASE)),
        (Z.ltb_spec (a - RAM_BASE) (address + 0 + Z.of_nat n - RAM_BASE));
        cbn [andb]; try reflexivity; lia.
  - intros (j & Hj & Hnone).
    apply dma_disk_to_ram_outside;
      [lia | unfold RAM_BASE, RAM_SIZE in *; lia |].
    exists j. split; [lia|exact Hnone].
Qed.

End Dma.

Lemma dma_disk_to_ram_copies_witness :
  (exists b',
     dma_disk_to_ram 2 0 (RAM_BASE + 0x100) 0
       (bus_new (ram_new []) (disk_new (memcpy ∅ 0 [0xAA; 0xBB; 0]))) = Some b'
     /\ ram_load (ram b') (RAM_BASE + 0x101) 8 = Ok 0xBB)
  /\ dma_disk_to_ram 2 0 (RAM_BASE + 0x100) 0
       (bus_new (ram_new []) (disk_new ∅)) = None.
Proof.
  split.
  - destruct (proj1 (dma_disk_to_ram_copies (RAM_BASE + 0x100) 0
                       (bus_new (ram_new []) (disk_new (memcpy ∅ 0 [0xAA; 0xBB; 0])))
                       2 ltac:(unfold RAM_BASE; lia)
                       ltac:(unfold RAM_BASE, RAM_SIZE; lia)))
      as (b' & Hrun & Hcopy & _).
    { intros j Hj. assert (j = 0 \/ j = 1) as [-> | ->] by lia;
        vm_compute; eauto. }
    exists b'. split; [exact Hrun|].
    destruct (Hcopy 1 ltac:(lia)) as (byte & Hbyte & Hload).
    vm_compute in Hbyte. injection Hbyte as <-. exact Hload.
  - apply (proj2 (dma_disk_to_ram_copies (RAM_BASE + 0x100) 0
                    (bus_new (ram_new []) (disk_new ∅)) 2
                    ltac:(unfold RAM_BASE; lia)
                    ltac:(unfold RAM_BASE, RAM_SIZE; lia))).
    exists 0. split; [lia|reflexivity].
Defined.
(** ** Environment calls and atomics *)

Section EcallAmo.
Context {kbd : keyboard_h}.

Lemma cpu_execute_0x2f cpu insn :
  insn_opcode insn = 0x2f ->
  cpu_execute cpu insn
  = let '(c, r) :=
      execute_0x2f (insn_rd insn) (insn_rs1 insn) (insn_rs2 insn)
                   (insn_funct3 insn) (insn_funct7 insn) (set_reg cpu 0 0) in
    (c, status r).
Proof.
  unfold insn_opcode, insn_rd, insn_rs1, insn_rs2, insn_funct3, insn_funct7.
  intros Hop. unfold cpu_execute. cbv zeta. rewrite Hop. reflexivity.
Qed.

(** X27.  [ecall] raises the exception whose code is 8 plus the number of
    the current mode, 8, 9 or 11, and changes nothing but register 0, which
    is cleared; [ebreak] does the same with [BREAKPOINT].  Neither ends the
    process: the step ends with the trap of the exception, taken with the
    pc past the instruction. *)
Theorem ecall_step (cpu : struct_cpu) (insn : Z) :
  insn_opcode insn = 0x73 -> insn_funct3 insn = 0 -> insn_funct7 insn = 0 ->
  insn_rs2 insn = 0 \/ insn_rs2 insn = 1 ->
  let e := if insn_rs2 insn =? 0 then ecall_from (mode cpu) else BREAKPOINT in
  cpu_execute cpu insn = (set_reg cpu 0 0, e)
  /\ exception_code (ecall_from (mode cpu)) = 8 + mode_code (mode cpu)
  /\ execute_fetched cpu insn
     = Some (cpu_take_trap
               (set_reg (cpu_set_pc cpu (uint64_t (pc cpu + 4))) 0 0) e NONE).
Proof.
  intros Hop Hf3 Hf7 Hrs2. cbv zeta.
  assert (Hexec : forall c,
            cpu_execute c insn
            = (set_reg c 0 0,
               if insn_rs2 insn =? 0 then ecall_from (mode c) else BREAKPOINT)).
  { intros c. rewrite cpu_execute_0x73 by done.
    unfold execute_0x73. cbv zeta. rewrite Hf3, Hf7.
    destruct Hrs2 as [-> | ->]; reflexivity. }
  split; [apply Hexec|]. split; [by destruct (mode cpu)|].
  pose proof (execute_fetched_exception cpu insn) as Hstep.
  cbv zeta in Hstep. rewrite Hexec in Hstep. cbn [fst snd] in Hstep.
  cbn [mode cpu_set_pc] in Hstep.
  rewrite Hstep; destruct Hrs2 as [-> | ->]; by destruct (mode cpu).
Qed.

(** X28.  The atomics check the alignment of the address before they
    touch anything: a word atomic at an address that is not a multiple of
    4, and a double-word atomic at one that is not a multiple of 8, raises
    [LOAD_ADDRESS_MISALIGNED] and changes nothing but register 0.  The
    instructions lr and sc (funct5 2 and 3) are not decoded: they raise
    [ILLEGAL_INSTRUCTION]. *)
Theorem amo_faults (cpu : struct_cpu) (insn : Z) :
  insn_opcode insn = 0x2f ->
  let funct5 := Z.shiftr (Z.land (insn_funct7 insn) 0x7c) 2 in
  let x := reg (set_reg cpu 0 0) (insn_rs1 insn) in
  (funct5 = 2 \/ funct5 = 3 ->
   cpu_execute cpu insn = (set_reg cpu 0 0, ILLEGAL_INSTRUCTION))
  /\ (In funct5 [0x00; 0x01; 0x04; 0x08; 0x0c; 0x10; 0x14; 0x18; 0x1c] ->
      (insn_funct3 insn = 2 /\ Z.land x 3 <> 0)
      \/ (insn_funct3 insn = 3 /\ Z.land x 7 <> 0) ->
      cpu_execute cpu insn = (set_reg cpu 0 0, LOAD_ADDRESS_MISALIGNED)).
Proof.
  intros Hop. cbv zeta. rewrite cpu_execute_0x2f by done.
  unfold execute_0x2f. cbv zeta. split.
  - intros [-> | ->]; cbn [Z.eqb Pos.eqb]; rewrite !andb_false_r; reflexivity.
  - intros Hf5 Hmis.
    assert (Hamo : forall width rd rs2 f g align,
              (align = 4 /\ insn_funct3 insn = 2)
                            \/ (align = 8 /\ insn_funct3 insn = 3) ->
              (let '(c, r) :=
                 amo width align rd (insn_rs1 insn) rs2 f g (set_reg cpu 0 0) in
               (c, status r))
              = (set_reg cpu 0 0, LOAD_ADDRESS_MISALIGNED)).
    { intros width rd rs2 f g align Halign. unfold amo.
      replace (IS_ALIGNED (reg (set_reg cpu 0 0) (insn_rs1 insn)) align)
        with false; [reflexivity|].
      symmetry. unfold IS_ALIGNED. apply Z.eqb_neq.
      destruct Halign as [[-> H3] | [-> H3]],
               Hmis as [[H3' Hm] | [H3' Hm]]; try congruence; exact Hm. }
    cbn [In] in Hf5.
    destruct Hmis as [[H3 Hm] | [H3 Hm]]; rewrite H3;
      cbn [Z.eqb Pos.eqb andb];
      destruct Hf5 as [<- | [<- | [<- | [<- | [<- | [<- | [<- | [<- | [<- | []]]]]]]]]];
      cbn [Z.eqb Pos.eqb andb];
      apply Hamo; try done; rewrite H3; (left; done) || (right; done).
Qed.

End EcallAmo.

Lemma ecall_step_witness :
  cpu_execute (kbd := example_keyboard) (cpu_new [] []) 0x00000073
  = (set_reg (cpu_new [] []) 0 0, ECALL_FROM_MMODE).
Proof.
  exact (proj1 (ecall_step (kbd := example_keyboard) (cpu_new [] []) 0x00000073
                  eq_refl eq_refl eq_refl (or_introl eq_refl))).
Defined.

Lemma amo_faults_witness :
  cpu_execute (kbd := example_keyboard)
    (with_operands (cpu_new [] []) (RAM_BASE + 2) 0) 0x0820A1AF
  = (set_reg (with_operands (cpu_new [] []) (RAM_BASE + 2) 0) 0 0,
     LOAD_ADDRESS_MISALIGNED).
Proof.
  pose proof (amo_faults (kbd := example_keyboard)
                (with_operands (cpu_new [] []) (RAM_BASE + 2) 0) 0x0820A1AF
                eq_refl) as H.
  cbv zeta in H. destruct H as [_ H].
  apply H.
  - vm_compute. tauto.
  - left. split; [reflexivity|]. vm_compute. discriminate.
Defined.
(** ** Multiplication *)

Lemma int64_t_congr z : (int64_t z) mod 2 ^ 64 = z mod 2 ^ 64.
Proof.
  unfold int64_t, signed. cbv zeta. change (64 - 1) with 63.
  destruct (Z.ltb_spec (z mod 2 ^ 64) (2 ^ 63)).
  - apply Z.mod_mod. lia.
  - rewrite Zminus_mod, Z.mod_same, Z.sub_0_r, !Z.mod_mod by lia. reflexivity.
Qed.

Lemma int64_t_in_range x : 0 <= x < 2 ^ 64 -> (int64_t x) mod 2 ^ 64 = x.
Proof. intros. rewrite int64_t_congr. by apply Z.mod_small. Qed.

Lemma mul_mod_congr a b a' b' n :
  a mod n = a' mod n -> b mod n = b' mod n -> (a * b) mod n = (a' * b') mod n.
Proof. intros Ha Hb. by rewrite Zmult_mod, Ha, Hb, <- Zmult_mod. Qed.

Lemma high_of_mod_128 p : (p mod 2 ^ 128) / 2 ^ 64 = (p / 2 ^ 64) mod 2 ^ 64.
Proof.
  change (2 ^ 128) with (2 ^ 64 * 2 ^ 64).
  rewrite Z.rem_mul_r by lia.
  rewrite Z.mul_comm, Z.div_add by lia.
  rewrite (Z.div_small (p mod 2 ^ 64)) by (apply Z.mod_pos_bound; lia).
  reflexivity.
Qed.

Section Multiplication.
Context {kbd : keyboard_h}.

(** X29.  The multiplication instructions split the 128-bit product in
    two halves.  [mul] yields the low 64 bits.  [mulhu] yields the high 64
    bits of the product of the operands read as unsigned numbers, [mulh]
    those of the product of both read as signed numbers, [mulhsu] those of
    the product of rs1 read as signed and rs2 as unsigned: in each case
    high * 2^64 + low is the exact product, the high half of [mulh] and
    [mulhsu] read as a signed number. *)
Theorem mul_high_low (cpu : struct_cpu) (m h : Z) :
  let c0 := set_reg cpu 0 0 in
  let x := reg c0 (insn_rs1 m) in
  let y := reg c0 (insn_rs2 m) in
  let lo := reg (cpu_execute cpu m).1 (insn_rd m) in
  let hi := reg (cpu_execute cpu h).1 (insn_rd h) in
  insn_opcode m = 0x33 -> insn_funct7 m = 1 -> insn_funct3 m = 0 ->
  insn_opcode h = 0x33 -> insn_funct7 h = 1 ->
  insn_rs1 h = insn_rs1 m -> insn_rs2 h = insn_rs2 m ->
  0 <= x < 2 ^ 64 -> 0 <= y < 2 ^ 64 ->
  (insn_funct3 h = 3 -> hi * 2 ^ 64 + lo = x * y)
  /\ (insn_funct3 h = 1 -> int64_t hi * 2 ^ 64 + lo = int64_t x * int64_t y)
  /\ (insn_funct3 h = 2 -> int64_t hi * 2 ^ 64 + lo = int64_t x * y).
Proof.
  cbv zeta. intros Hop Hf7 Hf3 Hoph Hf7h Hrs1 Hrs2 Hx Hy.
  rewrite (cpu_execute_0x33 cpu m), (cpu_execute_0x33 cpu h) by done.
  unfold execute_0x33. cbv zeta. rewrite Hf7, Hf3, Hf7h, Hrs1, Hrs2.
  set (x := reg (set_reg cpu 0 0) (insn_rs1 m)) in *.
  set (y := reg (set_reg cpu 0 0) (insn_rs2 m)) in *.
  cbn [Z.eqb Pos.eqb andb]. rewrite reg_written.
  pose proof (int64_t_range x) as Hsx. pose proof (int64_t_range y) as Hsy.
  split; [|split]; intros ->; cbn [Z.eqb Pos.eqb andb]; rewrite reg_written.
  - unfold uint128_t. rewrite Z.shiftr_div_pow2 by lia.
    rewrite (Z.mod_small (x * y) (2 ^ 128)) by nia.
    rewrite (uint64_t_small (x * y / 2 ^ 64)).
    + unfold uint64_t. pose proof (Z.div_mod (x * y) (2 ^ 64) ltac:(lia)). lia.
    + split; [apply Z.div_pos; nia|]. apply Z.div_lt_upper_bound; nia.
  - rewrite Z.shiftr_div_pow2 by lia.
    rewrite int64_t_uint64_t.
    + unfold uint64_t.
      rewrite <- (mul_mod_congr (int64_t x) (int64_t y) x y)
        by (apply int64_t_congr).
      pose proof (Z.div_mod (int64_t x * int64_t y) (2 ^ 64) ltac:(lia)). lia.
    + split; [apply Z.div_le_lower_bound; nia
             |apply Z.div_lt_upper_bound; nia].
  - unfold uint128_t. rewrite Z.shiftr_div_pow2, high_of_mod_128 by lia.
    fold (uint64_t (int64_t x * y / 2 ^ 64)). rewrite uint64_t_idem.
    rewrite int64_t_uint64_t.
    + unfold uint64_t.
      rewrite <- (mul_mod_congr (int64_t x) y x y)
        by (apply int64_t_congr || reflexivity).
      pose proof (Z.div_mod (int64_t x * y) (2 ^ 64) ltac:(lia)). lia.
    + split; [apply Z.div_le_lower_bound; nia
             |apply Z.div_lt_upper_bound; nia].
Qed.

End Multiplication.

Lemma mul_high_low_witness :
  reg (cpu_execute (kbd := example_keyboard)
         (with_operands (cpu_new [] []) (2 ^ 63) 6) 0x0220B1B3).1 3 * 2 ^ 64
  + reg (cpu_execute (kbd := example_keyboard)
           (with_operands (cpu_new [] []) (2 ^ 63) 6) 0x022081B3).1 3
  = 2 ^ 63 * 6.
Proof.
  exact (proj1 (mul_high_low (kbd := example_keyboard)
                  (with_operands (cpu_new [] []) (2 ^ 63) 6)
                  0x022081B3 0x0220B1B3
                  eq_refl eq_refl eq_refl eq_refl eq_refl eq_refl eq_refl
                  ltac:(vm_compute; split; [discriminate|reflexivity])
                  ltac:(vm_compute; split; [discriminate|reflexivity]))
               eq_refl).
Defined.
(** ** A store and the load that follows *)

Section StoreLoad.
Context {kbd : keyboard_h}.

Lemma cpu_execute_0x23 cpu insn :
  insn_opcode insn = 0x23 ->
  cpu_execute cpu insn
  = let '(c, r) :=
      execute_0x23 insn (insn_rs1 insn) (insn_rs2 insn) (insn_funct3 insn)
                   (set_reg cpu 0 0) in
    (c, status r).
Proof.
  unfold insn_opcode, insn_rs1, insn_rs2, insn_funct3.
  intros Hop. unfold cpu_execute. cbv zeta. rewrite Hop. reflexivity.
Qed.

Lemma cpu_execute_0x03 cpu insn :
  insn_opcode insn = 0x03 ->
  cpu_execute cpu insn
  = let '(c, r) :=
      execute_0x03 insn (insn_rd insn) (insn_rs1 insn) (insn_funct3 insn)
                   (set_reg cpu 0 0) in
    (c, status r).
Proof.
  unfold insn_opcode, insn_rd, insn_rs1, insn_funct3.
  intros Hop. unfold cpu_execute. cbv zeta. rewrite Hop. reflexivity.
Qed.

Lemma cpu_store_ram c a size v :
  enable_paging c = false -> RAM_BASE <= a < 2 ^ 32 ->
  size = 8 \/ size = 16 \/ size = 32 \/ size = 64 ->
  cpu_store a size v c
  = (cpu_set_bus c (bus_set_ram (bus c) (ram_store (ram (bus c)) a size v).1),
     Ok tt).
Proof.
  intros Hen Ha Hs. unfold cpu_store, bind, cpu_translate.
  rewrite Hen. cbn [negb]. rewrite bus_store_ram by done.
  destruct Hs as [-> | [-> | [-> | ->]]]; reflexivity.
Qed.

Lemma cpu_load_ram c a size :
  enable_paging c = false -> RAM_BASE <= a < 2 ^ 32 ->
  RANGE_CHECK a KBD_BASE KBD_SIZE = false ->
  cpu_load a size c = (c, ram_load (ram (bus c)) a size).
Proof.
  intros Hen Ha Hk. unfold cpu_load, bind, cpu_translate.
  rewrite Hen. cbn [negb]. rewrite bus_load_ram by done.
  by rewrite cpu_set_bus_same.
Qed.

Lemma reg_cleared_again cpu b i :
  reg (set_reg (cpu_set_bus (set_reg cpu 0 0) b) 0 0) i
  = reg (set_reg cpu 0 0) i.
Proof.
  destruct (Z.eq_dec i 0) as [-> | Hne].
  - by rewrite !reg_set_reg_eq.
  - rewrite (reg_set_reg_ne (cpu_set_bus _ _)) by lia. reflexivity.
Qed.

Lemma uint64_t_signed_64 z : uint64_t (signed 64 z) = z mod 2 ^ 64.
Proof. apply int64_t_congr. Qed.

(** The load reads what the store wrote. *)
Lemma loaded_after_store r a size v :
  RAM_BASE <= a -> a - RAM_BASE + size / 8 <= RAM_SIZE ->
  size = 8 \/ size = 16 \/ size = 32 \/ size = 64 ->
  ram_load (ram_store r a size v).1 a size = Ok (v mod 2 ^ size).
Proof.
  intros Hbase Hbound [-> | [-> | [-> | ->]]].
  - by apply ram_store_load_8.
  - by apply ram_store_load_16.
  - by apply ram_store_load_32.
  - by apply ram_store_load_64.
Qed.

(** X30.  With paging disabled and the address in RAM, a store
    instruction followed by a load instruction of the same width at the same
    address leaves in rd what the store took from rs2, cut to the width:
    sign-extended by lb, lh, lw and ld, zero-extended by lbu, lhu and lwu.
    Both instructions return [OK]. *)
Theorem store_then_load (cpu : struct_cpu) (s l : Z) :
  let c0 := set_reg cpu 0 0 in
  let a := uint64_t (reg c0 (insn_rs1 s) + insn_imm_store s) in
  let v := reg c0 (insn_rs2 s) in
  let size := 8 * 2 ^ insn_funct3 s in
  let c1 := (cpu_execute cpu s).1 in
  let c2 := (cpu_execute c1 l).1 in
  enable_paging cpu = false ->
  insn_opcode s = 0x23 -> insn_opcode l = 0x03 ->
  0 <= insn_funct3 s <= 3 ->
  insn_funct3 l = insn_funct3 s
  \/ (insn_funct3 l = insn_funct3 s + 4 /\ insn_funct3 s < 3) ->
  uint64_t (reg c0 (insn_rs1 l) + insn_imm_load l) = a ->
  RAM_BASE <= a -> a - RAM_BASE + size / 8 <= RAM_SIZE ->
  RANGE_CHECK a KBD_BASE KBD_SIZE = false ->
  (cpu_execute cpu s).2 = OK
  /\ (cpu_execute c1 l).2 = OK
  /\ reg c2 (insn_rd l)
     = uint64_t (if insn_funct3 l <? 4 then signed size (v mod 2 ^ size)
                 else v mod 2 ^ size).
Proof.
  cbv zeta. unfold insn_imm_store, insn_imm_load.
  intros Hen Hops Hopl Hk Hl Haddr Hbase Hbound Hkbd.
  set (c0 := set_reg cpu 0 0) in *.
  set (a := uint64_t (reg c0 (insn_rs1 s) + _)) in *.
  set (v := reg c0 (insn_rs2 s)) in *.
  assert (Hsize : exists size,
            size = 8 * 2 ^ insn_funct3 s
            /\ (size = 8 \/ size = 16 \/ size = 32 \/ size = 64)).
  { assert (insn_funct3 s = 0 \/ insn_funct3 s = 1 \/ insn_funct3 s = 2
            \/ insn_funct3 s = 3) as [-> | [-> | [-> | ->]]] by lia;
      eexists; (split; [reflexivity|]); cbn; tauto. }
  destruct Hsize as (size & Hsz & Hsizes). rewrite <- Hsz in *.
  assert (Ha : RAM_BASE <= a < 2 ^ 32).
  { unfold RAM_BASE, RAM_SIZE in *.
    destruct Hsizes as [-> | [-> | [-> | ->]]];
      [ change (8 / 8) with 1 in Hbound | change (16 / 8) with 2 in Hbound
      | change (32 / 8) with 4 in Hbound | change (64 / 8) with 8 in Hbound ];
      lia. }
  assert (Hen0 : enable_paging c0 = false) by exact Hen.
  (* the store *)
  assert (Hstore : cpu_execute cpu s
                   = (cpu_set_bus c0
                        (bus_set_ram (bus c0)
                           (ram_store (ram (bus c0)) a size v).1), OK)).
  { rewrite cpu_execute_0x23 by done. unfold execute_0x23. cbv zeta.
    fold c0. fold a. fold v.
    assert (insn_funct3 s = 0 \/ insn_funct3 s = 1 \/ insn_funct3 s = 2
            \/ insn_funct3 s = 3) as [Hf | [Hf | [Hf | Hf]]] by lia;
      rewrite Hf in *; cbn [Z.eqb Pos.eqb];
      change (8 * 2 ^ 0) with 8 in Hsz; change (8 * 2 ^ 1) with 16 in Hsz;
      change (8 * 2 ^ 2) with 32 in Hsz; change (8 * 2 ^ 3) with 64 in Hsz;
      subst size; by rewrite cpu_store_ram by (done || tauto). }
  rewrite Hstore. cbn [fst snd]. split; [reflexivity|].
  set (r1 := (ram_store (ram (bus c0)) a size v).1).
  set (c1 := cpu_set_bus c0 (bus_set_ram (bus c0) r1)).
  (* the load *)
  rewrite cpu_execute_0x03 by done. unfold execute_0x03. cbv zeta.
  assert (Hreg : forall i, reg (set_reg c1 0 0) i = reg c0 i)
    by (intros i; unfold c1, c0; apply reg_cleared_again).
  rewrite Hreg, Haddr.
  assert (Hload : cpu_load a size (set_reg c1 0 0)
                  = (set_reg c1 0 0, Ok (v mod 2 ^ size))).
  { rewrite cpu_load_ram by done. f_equal.
    unfold c1. cbn [bus set_reg cpu_set_regs cpu_set_bus ram bus_set_ram].
    by apply loaded_after_store. }
  assert (insn_funct3 s = 0 \/ insn_funct3 s = 1 \/ insn_funct3 s = 2
          \/ insn_funct3 s = 3) as [Hf | [Hf | [Hf | Hf]]] by lia;
    rewrite Hf in *;
    change (8 * 2 ^ 0) with 8 in Hsz; change (8 * 2 ^ 1) with 16 in Hsz;
    change (8 * 2 ^ 2) with 32 in Hsz; change (8 * 2 ^ 3) with 64 in Hsz;
    subst size;
    (destruct Hl as [Hfl | [Hfl Hlt]]; [|try lia]);
    try change (0 + 4) with 4 in Hfl; try change (1 + 4) with 5 in Hfl;
    try change (2 + 4) with 6 in Hfl;
    rewrite Hfl; cbn [Z.eqb Pos.eqb Z.ltb Z.compare Pos.compare
                      Pos.compare_cont];
    unfold bind; cbv beta; rewrite Hload; (split; [reflexivity|]);
    unfold write, step; cbn [fst]; rewrite reg_set_reg_eq; try reflexivity.
  rewrite uint64_t_signed_64. reflexivity.
Qed.

End StoreLoad.

Lemma store_then_load_witness :
  reg (cpu_execute (kbd := example_keyboard)
         (cpu_execute (kbd := example_keyboard)
            (with_operands (cpu_new [] []) (RAM_BASE + 0x100) 0x1122334455667788)
            SD_x2_8_x1).1
         LD_x3_8_x1).1 3
  = 0x1122334455667788.
Proof.
  exact (proj2 (proj2
           (store_then_load (kbd := example_keyboard)
              (with_operands (cpu_new [] []) (RAM_BASE + 0x100) 0x1122334455667788)
              SD_x2_8_x1 LD_x3_8_x1
              eq_refl eq_refl eq_refl
              ltac:(vm_compute; split; discriminate)
              (or_introl eq_refl) eq_refl
              ltac:(vm_compute; discriminate)
              ltac:(vm_compute; discriminate)
              eq_refl))).
Defined.
